(** * The superagents ID allocator ([sa_id.py]) in Rocq

    A shallow embedding of [scripts/sa_id.py] (with the one helper it takes
    from [scripts/sa_util.py]) and the properties of the allocator that the
    specification states.

    Conventions of the embedding.
    - Python [str] is modelled by [string]: a character is a code point
      below 256.  [\d], [str.strip], [str.splitlines] and the white space
      that [int()] skips are those of Python on that range; texts with
      code points from 256 on are outside the embedding.
    - Python [int] is [Z].  The cap CPython puts on the number of digits
      that [int()] reads and [str()] writes (4300 unless configured
      otherwise) is not modelled.
    - A [pathlib.Path] is the list of its components, root first, without
      [.], [..] or symbolic links, so that [Path.resolve] is the identity.
    - Exceptions are values of [exn]; a computation that touches the file
      system is a function from a [world] to a result and a new [world],
      and an exception keeps the effects performed before it was raised.
    - The world holds no other process.  Time passes in [time.sleep]
      only, and by what is asked for.  A call that goes on for ever has
      the outcome [NeverReturns], and the world that comes with it is the
      one the call has made by its first turn of the loop that has no
      end. *)

From Stdlib Require Import Bool Ascii String List ZArith Lia.
From Stdlib Require Import DecimalString DecimalPos.
Import ListNotations.

Local Open Scope string_scope.
Local Open Scope Z_scope.

Set Implicit Arguments.
Set Warnings "-register-all".

(* ===================================================================== *)
(** * Exceptions and results *)
(* ===================================================================== *)

(** The [raise] sites of [sa_id.py], and the library calls that raise a
    [ValueError] of their own. *)
Inductive message : Type :=
| MsgKindNotInEnum (kind : string)     (* kind 不在枚举中 *)
| MsgRegistryNotObject                 (* registry 格式错误（需为JSON对象） *)
| MsgMissingLastId                     (* registry 缺少 last_id *)
| MsgLastIdNotInt                      (* registry.last_id 不是整数 *)
| MsgCountersNotObject                 (* registry.counters 需为对象 *)
| MsgCounterNotInt (key : string)      (* registry.counters[k] 不是整数 *)
| MsgBadSchemaVersion                  (* registry.schema_version 非法 *)
| MsgPadNotPositive                    (* --pad 必须为正整数 *)
| MsgTypeSlugTogether                  (* --type 与 --slug 必须同时提供 *)
| MsgNameOnlyForChg                    (* --kind!=chg 时不允许使用 --type/--slug *)
| MsgBadSlug (slug : string)           (* slug 不合法 *)
| MsgIntLiteral                        (* int(): invalid literal, or NaN *)
| MsgJSONDecode                        (* json.JSONDecodeError *)
| MsgUnicodeDecode                     (* UnicodeDecodeError *)
| MsgEmptyName.                        (* Path.with_name on a path without a name *)

Inductive os_error : Type :=
| FileExistsError | FileNotFoundError | IsADirectoryError
| NotADirectoryError | NoSpaceError | BadFileDescriptor.

(** What ends a call other than a return: an exception, or
    [NeverReturns], the outcome of a call that goes on for ever.  No
    handler and no [finally] sees the latter. *)
Inductive exn : Type :=
| ValueError (m : message)
| TypeError
| OverflowError
| KeyError (key : string)
| TimeoutError
| OSError (e : os_error)
| NeverReturns.

Inductive result (A : Type) : Type :=
| Ok (a : A)
| Err (e : exn).
Arguments Ok {A} a.
Arguments Err {A} e.

Definition rbind {A B} (r : result A) (k : A -> result B) : result B :=
  match r with
  | Ok a => k a
  | Err e => Err e
  end.

Declare Scope result_scope.
Delimit Scope result_scope with result.
Notation "'let?' x ':=' r 'in' k" := (rbind r (fun x => k))
  (at level 10, x name, r at level 100, k at level 200) : result_scope.

(** The error classes of the specification, as sets of exceptions. *)
Definition is_InvalidKind (e : exn) : bool :=
  match e with ValueError (MsgKindNotInEnum _) => true | _ => false end.

Definition is_InvalidArgument (e : exn) : bool :=
  match e with
  | ValueError (MsgPadNotPositive | MsgTypeSlugTogether
               | MsgNameOnlyForChg | MsgBadSlug _) => true
  | _ => false
  end.

Definition is_LockTimeout (e : exn) : bool :=
  match e with TimeoutError => true | _ => false end.

Definition is_RegistryCorrupt (e : exn) : bool :=
  match e with
  | ValueError (MsgRegistryNotObject | MsgMissingLastId | MsgLastIdNotInt
               | MsgCountersNotObject | MsgCounterNotInt _
               | MsgBadSchemaVersion) => true
  | _ => false
  end.

(* ===================================================================== *)
(** * The Python built-ins the script uses *)
(* ===================================================================== *)

Module Py.

(** ** Characters *)

Definition code (c : ascii) : N := N_of_ascii c.

(** [c.isspace()], the characters [str.strip] removes: [\t \n \v \f \r],
    the separators [\x1c] to [\x1f], the space, [\x85] and [\xa0]. *)
Definition isspace (c : ascii) : bool :=
  let n := code c in
  ((9 <=? n) && (n <=? 13) || (28 <=? n) && (n <=? 32)
   || (n =? 133) || (n =? 160))%N.

(** The white space [int()] skips around a literal: [\t \n \v \f \r],
    the space, [\x85] and [\xa0], but not the separators [\x1c] to
    [\x1f]. *)
Definition is_int_space (c : ascii) : bool :=
  let n := code c in
  ((9 <=? n) && (n <=? 13) || (n =? 32) || (n =? 133) || (n =? 160))%N.

(** [\d]: below 256 the decimal digits are [0] to [9]. *)
Definition isdigit (c : ascii) : bool :=
  let n := code c in ((48 <=? n) && (n <=? 57))%N.

Definition digit_value (c : ascii) : Z := Z.of_N (code c) - 48.

(** The characters at which [str.splitlines] cuts, besides the pair
    [\r\n]: [\n \v \f \r \x1c \x1d \x1e \x85]. *)
Definition islinebreak (c : ascii) : bool :=
  let n := code c in
  ((10 <=? n) && (n <=? 13) || (28 <=? n) && (n <=? 30) || (n =? 133))%N.

Definition CR : ascii := ascii_of_N 13.
Definition LF : ascii := ascii_of_N 10.
Definition DQUOTE : ascii := ascii_of_N 34.

(** ** Strings *)

Definition is_empty (s : string) : bool :=
  match s with EmptyString => true | String _ _ => false end.

Fixpoint lstrip (p : ascii -> bool) (s : string) : string :=
  match s with
  | EmptyString => EmptyString
  | String c r => if p c then lstrip p r else s
  end.

Fixpoint rstrip (p : ascii -> bool) (s : string) : string :=
  match s with
  | EmptyString => EmptyString
  | String c r =>
      let r' := rstrip p r in
      if is_empty r' && p c then EmptyString else String c r'
  end.

(** [s.strip()] and [s.strip(ch)] for a single character [ch]. *)
Definition strip_with (p : ascii -> bool) (s : string) : string :=
  rstrip p (lstrip p s).

Definition strip (s : string) : string := strip_with isspace s.

Definition strip_char (ch : ascii) (s : string) : string :=
  strip_with (Ascii.eqb ch) s.

(** [s.startswith(prefix)], and [s[len(prefix):]] when it does. *)
Fixpoint drop_prefix (prefix s : string) : option string :=
  match prefix with
  | EmptyString => Some s
  | String a prefix' =>
      match s with
      | EmptyString => None
      | String b s' =>
          if Ascii.eqb a b then drop_prefix prefix' s' else None
      end
  end.

(** [s.splitlines()]: [cur] is the line being read. *)
Fixpoint splitlines_from (cur s : string) : list string :=
  match s with
  | EmptyString => if is_empty cur then [] else [cur]
  | String c r =>
      if Ascii.eqb c CR then
        match r with
        | String c' r' =>
            if Ascii.eqb c' LF then cur :: splitlines_from "" r'
            else cur :: splitlines_from "" r
        | EmptyString => cur :: splitlines_from "" r
        end
      else if islinebreak c then cur :: splitlines_from "" r
      else splitlines_from (cur ++ String c "") r
  end.

Definition splitlines (s : string) : list string := splitlines_from "" s.

Definition len (s : string) : Z := Z.of_nat (String.length s).

Fixpoint zeros (n : nat) : string :=
  match n with
  | O => ""
  | S n' => String "0" (zeros n')
  end.

(** ** Integers *)

(** [str(n)] for an [int]. *)
Definition str (n : Z) : string := NilZero.string_of_int (Z.to_int n).

Definition is_sign (c : ascii) : bool :=
  Ascii.eqb c "+" || Ascii.eqb c "-".

(** [s.zfill(width)]: zeros go after a leading sign; a string already
    [width] long or longer comes back as it is. *)
Definition zfill (s : string) (width : Z) : string :=
  if width <=? len s then s
  else
    let fill := zeros (Z.to_nat (width - len s)) in
    match s with
    | String c r => if is_sign c then String c (fill ++ r) else fill ++ s
    | EmptyString => fill
    end.

(** The digits of a decimal literal: groups of digits separated by single
    underscores.  [prev] tells whether the previous character was a
    digit. *)
Fixpoint digits_value (acc : Z) (prev : bool) (s : string) : option Z :=
  match s with
  | EmptyString => if prev then Some acc else None
  | String c r =>
      if isdigit c then digits_value (10 * acc + digit_value c) true r
      else if Ascii.eqb c "_" && prev then digits_value acc false r
      else None
  end.

(** [int(s)] for a [str]: surrounding white space, an optional sign, a
    decimal literal. *)
Definition int_of_str (s : string) : result Z :=
  let t := strip_with is_int_space s in
  let (negative, body) :=
    match t with
    | String c r =>
        if Ascii.eqb c "-" then (true, r)
        else if Ascii.eqb c "+" then (false, r)
        else (false, t)
    | EmptyString => (false, t)
    end in
  match digits_value 0 false body with
  | Some v => Ok (if negative then - v else v)
  | None => Err (ValueError MsgIntLiteral)
  end.

(** A Python [float] as [json.load] can produce it: not-a-number, an
    infinity, or the finite value [m * 2^e]. *)
Inductive float : Type :=
| NaN
| Inf (negative : bool)
| Finite (m e : Z).

(** [int(f)]: truncation towards zero. *)
Definition int_of_float (f : float) : result Z :=
  match f with
  | NaN => Err (ValueError MsgIntLiteral)
  | Inf _ => Err OverflowError
  | Finite m e =>
      Ok (if 0 <=? e then m * 2 ^ e else Z.quot m (2 ^ (- e)))
  end.

End Py.

(* ===================================================================== *)
(** * JSON values and Python dictionaries *)
(* ===================================================================== *)

(** What [json.load] returns.  An object is a [dict]: an association list
    in insertion order (the order [json.dump] writes the keys in). *)
Inductive json : Type :=
| JNull
| JBool (b : bool)
| JInt (z : Z)
| JFloat (f : Py.float)
| JStr (s : string)
| JArr (items : list json)
| JObj (fields : list (string * json)).

Module Dict.
Section Ops.
Variable V : Type.

(** [d.get(k)] *)
Fixpoint get (k : string) (d : list (string * V)) : option V :=
  match d with
  | [] => None
  | (k', v) :: d' => if String.eqb k k' then Some v else get k d'
  end.

(** [d[k] = v]: in place when the key is there, at the end when not. *)
Fixpoint set (k : string) (v : V) (d : list (string * V))
  : list (string * V) :=
  match d with
  | [] => [(k, v)]
  | (k', v') :: d' =>
      if String.eqb k k' then (k, v) :: d' else (k', v') :: set k v d'
  end.

(** [del d[k]] *)
Fixpoint remove (k : string) (d : list (string * V))
  : list (string * V) :=
  match d with
  | [] => []
  | (k', v') :: d' =>
      if String.eqb k k' then remove k d' else (k', v') :: remove k d'
  end.

(** [k in d] *)
Definition mem (k : string) (d : list (string * V)) : bool :=
  match get k d with Some _ => true | None => false end.

(** [d.get(k, default)] *)
Definition get_default (k : string) (default : V)
           (d : list (string * V)) : V :=
  match get k d with Some v => v | None => default end.
End Ops.
End Dict.

(** Truth value of a JSON value, as [or] tests it. *)
Definition truthy (j : json) : bool :=
  match j with
  | JNull => false
  | JBool b => b
  | JInt z => negb (z =? 0)
  | JFloat (Py.Finite m _) => negb (m =? 0)
  | JFloat _ => true
  | JStr s => negb (Py.is_empty s)
  | JArr l => match l with [] => false | _ => true end
  | JObj d => match d with [] => false | _ => true end
  end.

(** [a or b] *)
Definition py_or (a b : json) : json := if truthy a then a else b.

(** [int(j)] *)
Definition py_int (j : json) : result Z :=
  match j with
  | JInt z => Ok z
  | JBool b => Ok (if b then 1 else 0)
  | JFloat f => Py.int_of_float f
  | JStr s => Py.int_of_str s
  | JNull | JArr _ | JObj _ => Err TypeError
  end.

(** [dict(j)] for a value that is a [dict]: the script hands it the
    [counters] that [read_registry] has rebuilt, or an empty [dict]. *)
Definition py_dict (j : json) : result (list (string * json)) :=
  match j with
  | JObj d => Ok d
  | _ => Err TypeError
  end.

(* ===================================================================== *)
(** * The file system *)
(* ===================================================================== *)

Definition path : Type := list string.

(** What a file holds, as far as the script can tell: [Doc j] is the text
    [json.dump] writes for [j] (and [json.load] reads [j] back from it),
    [Text s] is UTF-8 text that is not a JSON document, [Binary] is
    anything that does not decode as UTF-8. *)
Inductive content : Type :=
| Doc (j : json)
| Text (s : string)
| Binary.

(** A directory lists its entries in the order the system enumerates
    them. *)
Inductive node : Type :=
| File (c : content)
| Dir (entries : list (string * node)).

Module FS.

(** [p.parent], [p.name] and [p.with_name(n)]. *)
Definition parent (p : path) : path := removelast p.
Definition name (p : path) : string := last p "".

Definition with_name (p : path) (n : string) : result path :=
  match p with
  | [] => Err (ValueError MsgEmptyName)
  | _ => Ok (parent p ++ [n])%list
  end.

(** The node at [p] below [n], if there is one. *)
Fixpoint get (n : node) (p : path) : option node :=
  match p with
  | [] => Some n
  | x :: p' =>
      match n with
      | Dir es =>
          match Dict.get x es with
          | Some c => get c p'
          | None => None
          end
      | File _ => None
      end
  end.

(** The error of a system call that finds nothing at [p]: [ENOTDIR]
    when a file stands where the path needs a directory, [ENOENT] when a
    name is missing from a directory. *)
Fixpoint lookup_error (n : node) (p : path) : os_error :=
  match p with
  | [] => FileNotFoundError
  | x :: p' =>
      match n with
      | File _ => NotADirectoryError
      | Dir es =>
          match Dict.get x es with
          | Some c => lookup_error c p'
          | None => FileNotFoundError
          end
      end
  end.

(** Rewrites the entries of the directory at [d]; nothing changes when
    [d] is not a directory. *)
Fixpoint alter_dir (f : list (string * node) -> list (string * node))
         (n : node) (d : path) : node :=
  match n with
  | File _ => n
  | Dir es =>
      match d with
      | [] => Dir (f es)
      | x :: d' =>
          match Dict.get x es with
          | Some c => Dir (Dict.set x (alter_dir f c d') es)
          | None => n
          end
      end
  end.

(** [d.mkdir(parents=True, exist_ok=True)] *)
Fixpoint mkdir_p (n : node) (d : path) : result node :=
  match n with
  | File _ =>
      Err (OSError match d with
                   | [] => FileExistsError
                   | _ => NotADirectoryError
                   end)
  | Dir es =>
      match d with
      | [] => Ok n
      | x :: d' =>
          match mkdir_p (match Dict.get x es with
                         | Some c => c
                         | None => Dir []
                         end) d' with
          | Ok c' => Ok (Dir (Dict.set x c' es))
          | Err e => Err e
          end
      end
  end.

Definition is_dir (n : node) (p : path) : bool :=
  match get n p with Some (Dir _) => true | _ => false end.

Definition put (n : node) (p : path) (v : node) : node :=
  alter_dir (Dict.set (name p) v) n (parent p).

Definition del (n : node) (p : path) : node :=
  alter_dir (@Dict.remove node (name p)) n (parent p).

End FS.

(* ===================================================================== *)
(** * The world, and computations in it *)
(* ===================================================================== *)

(** The system calls the script makes, in the order it makes them. *)
Inductive event : Type :=
| EvMkdir (p : path)
| EvOpenExcl (p : path)
| EvClose (fd : nat)
| EvUnlink (p : path)
| EvExists (p : path)
| EvRead (p : path)
| EvWrite (p : path)
| EvReplace (src dst : path)
| EvScan (p : path).

(** What [print] writes. *)
Inductive output : Type :=
| OutLine (s : string)
| OutJson (j : json).

Record world : Type := World {
  fs : node;                 (* the file tree *)
  fds : list nat;            (* the open file descriptors *)
  now : string;              (* what [utc_now_iso] reads off the clock *)
  write_fault : bool;        (* the device refuses to store file data *)
  trace : list event;
  stdout : list output
}.

Definition with_fs (w : world) (n : node) : world :=
  World n (fds w) (now w) (write_fault w) (trace w) (stdout w).

Definition with_fds (w : world) (l : list nat) : world :=
  World (fs w) l (now w) (write_fault w) (trace w) (stdout w).

Definition log (e : event) (w : world) : world :=
  World (fs w) (fds w) (now w) (write_fault w) (trace w ++ [e])%list (stdout w).

Definition emit (o : output) (w : world) : world :=
  World (fs w) (fds w) (now w) (write_fault w) (trace w) (stdout w ++ [o])%list.

Definition M (A : Type) : Type := world -> result A * world.

Definition ret {A} (a : A) : M A := fun w => (Ok a, w).

Definition raise {A} (e : exn) : M A := fun w => (Err e, w).

Definition bind {A B} (m : M A) (k : A -> M B) : M B :=
  fun w =>
    match m w with
    | (Ok a, w') => k a w'
    | (Err e, w') => (Err e, w')
    end.

Definition lift {A} (r : result A) : M A := fun w => (r, w).

(** [try: body finally: cleanup]: the clean-up runs when the body has
    returned or raised, and an exception of its own replaces the outcome
    of the body; there is no clean-up after a body that never returns. *)
Definition try_finally {A} (body : M A) (cleanup : M unit) : M A :=
  fun w =>
    let (r, w1) := body w in
    match r with
    | Err NeverReturns => (r, w1)
    | _ =>
        match cleanup w1 with
        | (Ok _, w2) => (r, w2)
        | (Err e, w2) => (Err e, w2)
        end
    end.

Declare Scope io_scope.
Delimit Scope io_scope with io.
Notation "x <- m ;; k" := (bind m (fun x => k))
  (at level 100, m at next level, right associativity) : io_scope.
Notation "m ;; k" := (bind m (fun _ => k))
  (at level 100, right associativity) : io_scope.
Local Open Scope io_scope.

Module Sys.

(** [p.exists()] *)
Definition path_exists (p : path) : M bool :=
  fun w =>
    (Ok match FS.get (fs w) p with Some _ => true | None => false end,
     log (EvExists p) w).

(** [d.mkdir(parents=True, exist_ok=True)] *)
Definition mkdir_parents (d : path) : M unit :=
  fun w =>
    match FS.mkdir_p (fs w) d with
    | Ok n => (Ok tt, log (EvMkdir d) (with_fs w n))
    | Err e => (Err e, log (EvMkdir d) w)
    end.

Definition fresh_fd (l : list nat) : nat := S (list_max l).

(** [os.open(p, O_CREAT | O_EXCL | O_RDWR)]: creates an empty file. *)
Definition open_excl (p : path) : M nat :=
  fun w =>
    let w' := log (EvOpenExcl p) w in
    match FS.get (fs w) p with
    | Some _ => (Err (OSError FileExistsError), w')
    | None =>
        if FS.is_dir (fs w) (FS.parent p) then
          let fd := fresh_fd (fds w) in
          (Ok fd,
           with_fds (with_fs w' (FS.put (fs w) p (File (Text "")))) 
                    (fd :: fds w))
        else (Err (OSError (FS.lookup_error (fs w) p)), w')
    end.

(** [os.close(fd)] *)
Definition close (fd : nat) : M unit :=
  fun w =>
    let w' := log (EvClose fd) w in
    if existsb (Nat.eqb fd) (fds w) then
      (Ok tt, with_fds w' (filter (fun x => negb (Nat.eqb fd x)) (fds w)))
    else (Err (OSError BadFileDescriptor), w').

(** [os.unlink(p)] *)
Definition unlink (p : path) : M unit :=
  fun w =>
    let w' := log (EvUnlink p) w in
    match FS.get (fs w) p with
    | None => (Err (OSError (FS.lookup_error (fs w) p)), w')
    | Some (Dir _) => (Err (OSError IsADirectoryError), w')
    | Some (File _) => (Ok tt, with_fs w' (FS.del (fs w) p))
    end.

(** [with p.open("r", encoding="utf-8") as f: json.load(f)] *)
Definition load_json (p : path) : M json :=
  fun w =>
    let w' := log (EvRead p) w in
    match FS.get (fs w) p with
    | None => (Err (OSError (FS.lookup_error (fs w) p)), w')
    | Some (Dir _) => (Err (OSError IsADirectoryError), w')
    | Some (File (Doc j)) => (Ok j, w')
    | Some (File (Text _)) => (Err (ValueError MsgJSONDecode), w')
    | Some (File Binary) => (Err (ValueError MsgUnicodeDecode), w')
    end.

(** [with p.open("w", encoding="utf-8") as f: json.dump(data, f, ...)]:
    the file is created or emptied first; on a device that refuses the
    data it stays empty and the call raises. *)
Definition dump_json (p : path) (data : json) : M unit :=
  fun w =>
    let w' := log (EvWrite p) w in
    match FS.get (fs w) p with
    | Some (Dir _) => (Err (OSError IsADirectoryError), w')
    | _ =>
        if FS.is_dir (fs w) (FS.parent p) then
          if write_fault w then
            (Err (OSError NoSpaceError),
             with_fs w' (FS.put (fs w) p (File (Text ""))))
          else (Ok tt, with_fs w' (FS.put (fs w) p (File (Doc data))))
        else (Err (OSError (FS.lookup_error (fs w) p)), w')
    end.

(** [os.replace(src, dst)] *)
Definition replace (src dst : path) : M unit :=
  fun w =>
    let w' := log (EvReplace src dst) w in
    match FS.get (fs w) src with
    | None => (Err (OSError (FS.lookup_error (fs w) src)), w')
    | Some n =>
        match n, FS.get (fs w) dst with
        | File _, Some (Dir _) => (Err (OSError IsADirectoryError), w')
        | Dir _, Some (File _) => (Err (OSError NotADirectoryError), w')
        | _, _ =>
            if FS.is_dir (fs w) (FS.parent dst) then
              (Ok tt, with_fs w' (FS.put (FS.del (fs w) src) dst n))
            else (Err (OSError (FS.lookup_error (fs w) dst)), w')
        end
    end.

End Sys.

(* ===================================================================== *)
(** * [sa_util.py] *)
(* ===================================================================== *)

Module sa_util.

(** The front-matter lines: those before the first line that is [---]
    once stripped; [None] when no such line closes the block. *)
Fixpoint until_fence (lines : list string) : option (list string) :=
  match lines with
  | [] => None
  | l :: rest =>
      if String.eqb (Py.strip l) "---" then Some []
      else option_map (cons l) (until_fence rest)
  end.

Fixpoint first_value (prefix : string) (fm_lines : list string)
  : option string :=
  match fm_lines with
  | [] => None
  | line :: rest =>
      match Py.drop_prefix prefix line with
      | Some v =>
          Some (Py.strip_char "'" (Py.strip_char Py.DQUOTE (Py.strip v)))
      | None => first_value prefix rest
      end
  end.

Definition extract_frontmatter_value (markdown key : string)
  : option string :=
  match Py.splitlines markdown with
  | [] => None
  | l0 :: rest =>
      if String.eqb (Py.strip l0) "---" then
        match until_fence rest with
        | Some fm_lines => first_value (key ++ ":") fm_lines
        | None => None
        end
      else None
  end.

(** ** The layout of a [superagents] directory *)

Definition META_DIRNAME : string := ".sa".

Definition sa_meta_dir (superagents_dir : path) : path :=
  (superagents_dir ++ [META_DIRNAME])%list.

Definition sa_registry_path (superagents_dir : path) : path :=
  (sa_meta_dir superagents_dir ++ ["registry.json"])%list.

End sa_util.

(* ===================================================================== *)
(** * [sa_id.py] *)
(* ===================================================================== *)

Module sa_id.

Definition KIND_CHOICES : list string := ["chg"; "spec"].

Definition KIND_PREFIX : list (string * string) :=
  [("chg", "CHG"); ("spec", "SPEC")].

Definition kind_in_choices (kind : string) : bool :=
  existsb (String.eqb kind) KIND_CHOICES.

(** ** The regular expressions *)

(** The longest run of digits that opens [s], and what follows it. *)
Fixpoint span_digits (s : string) : string * string :=
  match s with
  | String c r =>
      if Py.isdigit c then
        let (ds, rest) := span_digits r in (String c ds, rest)
      else (EmptyString, s)
  | EmptyString => (EmptyString, EmptyString)
  end.

(** [LEADING_ID_RE.match(name)], giving the group [id]:
    [^(?P<id>\d+)_]. *)
Definition LEADING_ID_RE_match (name : string) : option string :=
  match span_digits name with
  | (String _ _ as ds, String c _) =>
      if Ascii.eqb c "_" then Some ds else None
  | _ => None
  end.

(** [STABLE_ID_RE.match(doc_id)], giving the groups [prefix] and [id]:
    [^(?P<prefix>CHG|SPEC)-(?P<id>\d+)$]; [$] also matches before a
    final newline. *)
Definition STABLE_ID_RE_match (doc_id : string)
  : option (string * string) :=
  let after_prefix :=
    match Py.drop_prefix "CHG" doc_id with
    | Some r => Some ("CHG", r)
    | None =>
        match Py.drop_prefix "SPEC" doc_id with
        | Some r => Some ("SPEC", r)
        | None => None
        end
    end in
  match after_prefix with
  | Some (prefix, String c r) =>
      if Ascii.eqb c "-" then
        match span_digits r with
        | (String _ _ as ds, rest) =>
            if String.eqb rest "" || String.eqb rest (String Py.LF "")
            then Some (prefix, ds) else None
        | _ => None
        end
      else None
  | _ => None
  end.

(** [SLUG_RE.fullmatch(slug)]: [^[a-z0-9]+(?:-[a-z0-9]+)*$].  [prev]
    tells whether the previous character was a letter or a digit. *)
Definition is_slug_char (c : ascii) : bool :=
  let n := Py.code c in
  Py.isdigit c || ((97 <=? n) && (n <=? 122))%N.

Fixpoint slug_groups (prev : bool) (s : string) : bool :=
  match s with
  | EmptyString => prev
  | String c r =>
      if is_slug_char c then slug_groups true r
      else if Ascii.eqb c "-" && prev then slug_groups false r
      else false
  end.

Definition SLUG_RE_fullmatch (slug : string) : bool :=
  slug_groups false slug.

(** ** [utc_now_iso] *)

Definition utc_now_iso : M string := fun w => (Ok (now w), w).

(** ** [write_json_atomic] *)

(** [path.with_suffix(path.suffix + ".tmp")]: the name with [.tmp]
    appended. *)
Definition tmp_path_of (p : path) : result path :=
  FS.with_name p (FS.name p ++ ".tmp").

Definition write_json_atomic (p : path) (data : json) : M unit :=
  Sys.mkdir_parents (FS.parent p) ;;
  tmp_path <- lift (tmp_path_of p) ;;
  Sys.dump_json tmp_path data ;;
  Sys.replace tmp_path p.

(** ** The lock *)

Record LockHandle : Type := { fd : nat; lock_path : path }.

(** [time.time() - start >= timeout_sec] after [slept] calls of
    [time.sleep(0.1)].  Time is taken to pass in [time.sleep] only, and by
    what is asked for, so that the time elapsed is [slept / 10] seconds;
    the time-out is the float [m * 2^e], an infinity, or not a number,
    with which every comparison is false. *)
Definition time_is_up (timeout_sec : Py.float) (slept : Z) : bool :=
  match timeout_sec with
  | Py.NaN => false
  | Py.Inf negative => negative
  | Py.Finite m e =>
      if 0 <=? e then 10 * (m * 2 ^ e) <=? slept
      else 10 * m <=? slept * 2 ^ (- e)
  end.

(** A number of sleeps after which a finite time-out is up. *)
Definition patience (timeout_sec : Py.float) : nat :=
  match timeout_sec with
  | Py.Finite m e => Z.to_nat (if 0 <=? e then 10 * (m * 2 ^ e) else 10 * m)
  | _ => O
  end.

(** The loop of [acquire_lock]: [os.open] creates the lock file or finds
    it there; then the call gives up if the time is up, and sleeps and
    tries again if it is not.  [fuel] bounds the number of sleeps; the
    loop that uses it up is one that does not end. *)
Fixpoint acquire_loop (fuel : nat) (slept : Z) (lock_path : path)
         (timeout_sec : Py.float) : M LockHandle :=
  fun w =>
    match Sys.open_excl lock_path w with
    | (Ok fd, w') => (Ok {| fd := fd; lock_path := lock_path |}, w')
    | (Err (OSError FileExistsError), w') =>
        if time_is_up timeout_sec slept then (Err TimeoutError, w')
        else
          match fuel with
          | S fuel' => acquire_loop fuel' (slept + 1) lock_path timeout_sec w'
          | O => (Err NeverReturns, w')
          end
    | (Err e, w') => (Err e, w')
    end.

(** The loop is given the fuel that any finite time-out needs: it runs
    out of it only with a time-out that is never up (not a number, or
    positive infinity), when the call waits for ever for a lock file
    that stays.  The world holds no other process to remove the file
    meanwhile. *)
Definition acquire_lock (lock_path : path) (timeout_sec : Py.float)
  : M LockHandle :=
  Sys.mkdir_parents (FS.parent lock_path) ;;
  acquire_loop (patience timeout_sec) 0 lock_path timeout_sec.

(** [os.close] in a [try], [os.unlink] in its [finally]; the [return]
    of the handler for [FileNotFoundError] ends the call normally,
    whatever [os.close] did. *)
Definition release_lock (handle : LockHandle) : M unit :=
  fun w =>
    let (closed, w1) := Sys.close (fd handle) w in
    match Sys.unlink (lock_path handle) w1 with
    | (Err (OSError FileNotFoundError), w2) => (Ok tt, w2)
    | (Err e, w2) => (Err e, w2)
    | (Ok _, w2) => (closed, w2)
    end.

(** ** [read_registry] *)

(** The handler [except (TypeError, ValueError)] around [int(...)]. *)
Definition int_or (m : message) (j : json) : result Z :=
  match py_int j with
  | Ok z => Ok z
  | Err (TypeError | ValueError _) => Err (ValueError m)
  | Err e => Err e
  end.

(** The loop over [counters.items()]. *)
Fixpoint normalize_counters (items normalized : list (string * json))
  : result (list (string * json)) :=
  match items with
  | [] => Ok normalized
  | (k, v) :: rest =>
      match int_or (MsgCounterNotInt k) v with
      | Ok z => normalize_counters rest (Dict.set k (JInt z) normalized)
      | Err e => Err e
      end
  end.

(** What [read_registry] does with the value [json.load] returned. *)
Definition check_registry (data : json) : result (list (string * json)) :=
  match data with
  | JObj d =>
      (let? schema_version :=
         py_int (py_or (Dict.get_default "schema_version" (JInt 1) d)
                       (JInt 1)) in
       let d := Dict.set "schema_version" (JInt schema_version) d in
       if schema_version =? 1 then
         match Dict.get "last_id" d with
         | None => Err (ValueError MsgMissingLastId)
         | Some v =>
             let? last_id := int_or MsgLastIdNotInt v in
             Ok (Dict.set "last_id" (JInt last_id) d)
         end
       else if 2 <=? schema_version then
         let? counters :=
           match Dict.get "counters" d with
           | None | Some JNull => Ok []
           | Some (JObj c) => Ok c
           | Some _ => Err (ValueError MsgCountersNotObject)
           end in
         let? normalized := normalize_counters counters [] in
         Ok (Dict.set "counters" (JObj normalized) d)
       else Err (ValueError MsgBadSchemaVersion))%result
  | _ => Err (ValueError MsgRegistryNotObject)
  end.

Definition read_registry (p : path)
  : M (option (list (string * json))) :=
  present <- Sys.path_exists p ;;
  if present then
    data <- Sys.load_json p ;;
    registry <- lift (check_registry data) ;;
    ret (Some registry)
  else ret None.

(** ** [scan_max_ids] *)

Record scan_result : Type := { s_chg : Z; s_spec : Z }.

(** The closure [bump_chg], with [max_chg] passed in and out. *)
Definition bump_chg (name : string) (max_chg : Z) : Z :=
  match LEADING_ID_RE_match name with
  | None => max_chg
  | Some id =>
      match Py.int_of_str id with
      | Err _ => max_chg
      | Ok value => if max_chg <? value then value else max_chg
      end
  end.

(** [for child in d.iterdir(): if child.is_dir(): bump_chg(child.name)] *)
Fixpoint bump_dirs (children : list (string * node)) (max_chg : Z) : Z :=
  match children with
  | [] => max_chg
  | (name, Dir _) :: rest => bump_dirs rest (bump_chg name max_chg)
  | (_, File _) :: rest => bump_dirs rest max_chg
  end.

(** [d.iterdir()] *)
Definition iterdir (n : node) : result (list (string * node)) :=
  match n with
  | Dir es => Ok es
  | File _ => Err (OSError NotADirectoryError)
  end.

(** The loop over the month directories of [.sa/history]. *)
Fixpoint bump_months (months : list (string * node)) (max_chg : Z) : Z :=
  match months with
  | [] => max_chg
  | (_, Dir tasks) :: rest => bump_months rest (bump_dirs tasks max_chg)
  | (_, File _) :: rest => bump_months rest max_chg
  end.

(** [spec_md.read_text(encoding="utf-8")] and then
    [extract_frontmatter_value(text, "id") or ""].  The text of a JSON
    document has no front matter: [json.dump] writes no line that reads
    [---]. *)
Definition read_doc_id (n : node) : result string :=
  match n with
  | Dir _ => Err (OSError IsADirectoryError)
  | File Binary => Err (ValueError MsgUnicodeDecode)
  | File (Doc _) => Ok ""
  | File (Text text) =>
      Ok match sa_util.extract_frontmatter_value text "id" with
         | Some v => v
         | None => ""
         end
  end.

(** The body of the loop over the [spec.md] files. *)
Definition bump_spec (spec_md : node) (max_spec : Z) : result Z :=
  (let? doc_id := read_doc_id spec_md in
   match STABLE_ID_RE_match doc_id with
   | None => Ok max_spec
   | Some (prefix, id) =>
       if negb (String.eqb prefix "SPEC") then Ok max_spec
       else
         match Py.int_of_str id with
         | Err _ => Ok max_spec
         | Ok value => Ok (if max_spec <? value then value else max_spec)
         end
   end)%result.

(** [specs_dir.glob("*/*/spec.md")]: the entries [spec.md] of the
    directories two levels down, in enumeration order. *)
Definition glob_in (pattern : string) (dirs : list (string * node))
  : list node :=
  flat_map (fun e => match snd e with
                     | Dir es =>
                         match Dict.get pattern es with
                         | Some n => [n]
                         | None => []
                         end
                     | File _ => []
                     end) dirs.

Definition subdirs (dirs : list (string * node)) : list (string * node) :=
  flat_map (fun e => match snd e with
                     | Dir es => es
                     | File _ => []
                     end) dirs.

Definition glob_spec_md (specs_dir : node) : list node :=
  match specs_dir with
  | Dir es => glob_in "spec.md" (subdirs es)
  | File _ => []
  end.

Fixpoint bump_specs (files : list node) (max_spec : Z) : result Z :=
  match files with
  | [] => Ok max_spec
  | f :: rest =>
      match bump_spec f max_spec with
      | Ok m => bump_specs rest m
      | Err e => Err e
      end
  end.

Definition scan_tree (tree : node) (superagents_dir : path)
  : result scan_result :=
  (let max_chg := 0 in
   let max_spec := 0 in
   let? max_chg :=
     match FS.get tree (superagents_dir ++ ["tasks"])%list with
     | Some tasks_dir =>
         let? children := iterdir tasks_dir in
         Ok (bump_dirs children max_chg)
     | None => Ok max_chg
     end in
   let? max_chg :=
     match FS.get tree (superagents_dir ++ [".sa"; "history"])%list with
     | Some history_dir =>
         let? months := iterdir history_dir in
         Ok (bump_months months max_chg)
     | None => Ok max_chg
     end in
   let? max_spec :=
     match FS.get tree (superagents_dir ++ ["specs"])%list with
     | Some specs_dir => bump_specs (glob_spec_md specs_dir) max_spec
     | None => Ok max_spec
     end in
   Ok {| s_chg := max_chg; s_spec := max_spec |})%result.

Definition scan_max_ids (superagents_dir : path) : M scan_result :=
  fun w => (scan_tree (fs w) superagents_dir, log (EvScan superagents_dir) w).

(** ** [allocate_next_id] *)

Record call : Type := {
  root : path;
  registry_relpath : path;
  pad : Z;
  timeout_sec : Py.float;
  dry_run : bool;
  scan : bool;
  kind : string
}.

Record allocation : Type := {
  id : Z;
  padded_id : string;
  stable_id : string;
  a_kind : string;
  a_registry_path : path;
  a_dry_run : bool
}.

(** The document [{"schema_version": 2, "counters": {...},
    "updated_at": ...}]. *)
Definition fresh_registry (chg spec : Z) (updated_at : string)
  : list (string * json) :=
  [("schema_version", JInt 2);
   ("counters", JObj [("chg", JInt chg); ("spec", JInt spec)]);
   ("updated_at", JStr updated_at)].

(** The three-way branch of [allocate_next_id] on the registry it has
    read; [updated_at] is what [utc_now_iso()] gives in the branches
    that call it. *)
Definition reconcile (registry : option (list (string * json)))
           (scanned : scan_result) (updated_at : string)
  : result (list (string * json)) :=
  match registry with
  | None => Ok (fresh_registry (s_chg scanned) (s_spec scanned) updated_at)
  | Some registry =>
      (let? version :=
         py_int (Dict.get_default "schema_version" (JInt 1) registry) in
       if version =? 1 then
         let? last_id :=
           py_int (Dict.get_default "last_id" (JInt 0) registry) in
         Ok (fresh_registry (Z.max (s_chg scanned) last_id)
                            (s_spec scanned) updated_at)
       else
         let? counters :=
           py_dict (py_or (Dict.get_default "counters" JNull registry)
                          (JObj [])) in
         let? chg := py_int (Dict.get_default "chg" (JInt 0) counters) in
         let counters :=
           Dict.set "chg" (JInt (Z.max chg (s_chg scanned))) counters in
         let? spec := py_int (Dict.get_default "spec" (JInt 0) counters) in
         let counters :=
           Dict.set "spec" (JInt (Z.max spec (s_spec scanned))) counters in
         let? version :=
           py_int (py_or (Dict.get_default "schema_version" (JInt 2)
                                           registry) (JInt 2)) in
         let registry :=
           Dict.set "schema_version" (JInt version) registry in
         Ok (Dict.set "counters" (JObj counters) registry))%result
  end.

(** [d[k]] *)
Definition subscript {V} (d : list (string * V)) (k : string) : result V :=
  match Dict.get k d with
  | Some v => Ok v
  | None => Err (KeyError k)
  end.

(** The guarded section of [allocate_next_id]: the body of its [try]. *)
Definition allocate_locked (c : call) (registry_path : path)
  : M allocation :=
  (if kind_in_choices (kind c) then ret tt
   else raise (ValueError (MsgKindNotInEnum (kind c)))) ;;
  prefix <- lift (subscript KIND_PREFIX (kind c)) ;;
  registry <- read_registry registry_path ;;
  let superagents_dir := (root c ++ FS.parent (registry_relpath c))%list in
  scanned <- (if scan c then scan_max_ids superagents_dir
              else ret {| s_chg := 0; s_spec := 0 |}) ;;
  updated_at <- utc_now_iso ;;
  registry <- lift (reconcile registry scanned updated_at) ;;
  counters <- lift (let? j := subscript registry "counters" in
                    py_dict j)%result ;;
  current <- lift (py_int (Dict.get_default (kind c) (JInt 0) counters)) ;;
  let next_id := current + 1 in
  let padded_id := Py.zfill (Py.str next_id) (pad c) in
  let stable_id := prefix ++ "-" ++ padded_id in
  (if dry_run c then ret tt
   else
     (* [counters] is the very dict that [registry] holds *)
     let counters := Dict.set (kind c) (JInt next_id) counters in
     let registry := Dict.set "counters" (JObj counters) registry in
     updated_at <- utc_now_iso ;;
     let registry := Dict.set "updated_at" (JStr updated_at) registry in
     write_json_atomic registry_path (JObj registry)) ;;
  ret {| id := next_id;
         padded_id := padded_id;
         stable_id := stable_id;
         a_kind := kind c;
         a_registry_path := registry_path;
         a_dry_run := dry_run c |}.

Definition allocate_next_id (c : call) : M allocation :=
  let registry_path := (root c ++ registry_relpath c)%list in
  lock_path <- lift (FS.with_name registry_path
                                  (FS.name registry_path ++ ".lock")) ;;
  handle <- acquire_lock lock_path (timeout_sec c) ;;
  try_finally (allocate_locked c registry_path) (release_lock handle).

(** [scan_max_id], the legacy wrapper. *)
Definition scan_max_id (superagents_dir : path) : M Z :=
  scanned <- scan_max_ids superagents_dir ;;
  ret (s_chg scanned).

(** ** [normalize_slug] and [main] *)

Definition normalize_slug (slug : string) : result string :=
  let slug := Py.strip slug in
  if SLUG_RE_fullmatch slug then Ok slug
  else Err (ValueError (MsgBadSlug slug)).

(** The [argparse.Namespace] that [parse_args] returns. *)
Record args : Type := {
  arg_root : path;
  arg_registry : path;
  arg_kind : string;
  arg_pad : Z;
  arg_timeout : Py.float;
  arg_dry_run : bool;
  arg_scan : bool;
  arg_no_scan : bool;
  arg_type : option string;
  arg_slug : option string;
  arg_json : bool
}.

Definition is_none {A} (o : option A) : bool :=
  match o with None => true | Some _ => false end.

Definition json_of_option (o : option string) : json :=
  match o with Some s => JStr s | None => JNull end.

(** [os.path.relpath(registry_path, root)] for a registry below [root]. *)
Definition relpath (rel : path) : string :=
  match rel with
  | [] => "."
  | _ => String.concat "/" rel
  end.

Definition main (a : args) : M Z :=
  let root := arg_root a in
  let scan := true in
  let scan := if arg_no_scan a then false else scan in
  let scan := if arg_scan a then true else scan in
  (if arg_pad a <=? 0 then raise (ValueError MsgPadNotPositive)
   else ret tt) ;;
  (if negb (Bool.eqb (is_none (arg_type a)) (is_none (arg_slug a)))
   then raise (ValueError MsgTypeSlugTogether) else ret tt) ;;
  (if negb (String.eqb (arg_kind a) "chg")
      && (negb (is_none (arg_type a)) || negb (is_none (arg_slug a)))
   then raise (ValueError MsgNameOnlyForChg) else ret tt) ;;
  slug <- match arg_slug a with
          | Some s => s' <- lift (normalize_slug s) ;; ret (Some s')
          | None => ret None
          end ;;
  allocation <- allocate_next_id
                  {| root := root;
                     registry_relpath := arg_registry a;
                     pad := arg_pad a;
                     timeout_sec := arg_timeout a;
                     dry_run := arg_dry_run a;
                     scan := scan;
                     kind := arg_kind a |} ;;
  let padded_id := padded_id allocation in
  let stable_id := stable_id allocation in
  let name :=
    match arg_type a, slug with
    | Some t, Some s => Some (padded_id ++ "_" ++ t ++ "_" ++ s)
    | _, _ => None
    end in
  (if arg_json a then
     fun w =>
       (Ok tt,
        emit (OutJson (JObj
          [("id", JInt (id allocation));
           ("padded_id", JStr padded_id);
           ("stable_id", JStr stable_id);
           ("kind", JStr (arg_kind a));
           ("type", json_of_option (arg_type a));
           ("slug", json_of_option slug);
           ("name", json_of_option name);
           ("registry", JStr (relpath (arg_registry a)));
           ("dry_run", JBool (a_dry_run allocation))])) w)
   else
     fun w =>
       (Ok tt,
        emit (OutLine match name with
                      | Some n => if Py.is_empty n then padded_id else n
                      | None => padded_id
                      end) w)) ;;
  ret 0.

End sa_id.

Import sa_id.

(* ===================================================================== *)
(** * Derived notions: what a call computes, what it leaves behind *)
(* ===================================================================== *)

(** Everything of a world but its file tree and its trace. *)
Definition same_env (w w' : world) : Prop :=
  fds w' = fds w /\ now w' = now w /\ write_fault w' = write_fault w
  /\ stdout w' = stdout w.

(** What [read_registry] makes of the directory entry at the registry
    path. *)
Definition registry_of_node (entry : option node)
  : result (option (list (string * json))) :=
  match entry with
  | None => Ok None
  | Some (Dir _) => Err (OSError IsADirectoryError)
  | Some (File (Doc j)) =>
      match sa_id.check_registry j with
      | Ok r => Ok (Some r)
      | Err e => Err e
      end
  | Some (File (Text _)) => Err (ValueError MsgJSONDecode)
  | Some (File Binary) => Err (ValueError MsgUnicodeDecode)
  end.

(** What the allocator takes for the scan when scanning is off. *)
Definition no_scan : sa_id.scan_result :=
  {| sa_id.s_chg := 0; sa_id.s_spec := 0 |}.

(** The allocation a call computes and the registry it would persist,
    from the entry at the registry path, the outcome of the scan and the
    clock. *)
Definition plan (c : sa_id.call) (registry_path : path) (entry : option node)
           (scanned : result sa_id.scan_result) (ts : string)
  : result (sa_id.allocation * list (string * json)) :=
  (if sa_id.kind_in_choices (sa_id.kind c) then
     let? prefix := sa_id.subscript sa_id.KIND_PREFIX (sa_id.kind c) in
     let? registry := registry_of_node entry in
     let? scanned := scanned in
     let? registry := sa_id.reconcile registry scanned ts in
     let? counters := (let? j := sa_id.subscript registry "counters" in
                       py_dict j) in
     let? current :=
       py_int (Dict.get_default (sa_id.kind c) (JInt 0) counters) in
     let next_id := current + 1 in
     let padded_id := Py.zfill (Py.str next_id) (sa_id.pad c) in
     Ok ({| sa_id.id := next_id;
            sa_id.padded_id := padded_id;
            sa_id.stable_id := prefix ++ "-" ++ padded_id;
            sa_id.a_kind := sa_id.kind c;
            sa_id.a_registry_path := registry_path;
            sa_id.a_dry_run := sa_id.dry_run c |},
         Dict.set "updated_at" (JStr ts)
           (Dict.set "counters"
              (JObj (Dict.set (sa_id.kind c) (JInt next_id) counters))
              registry))
   else Err (ValueError (MsgKindNotInEnum (sa_id.kind c))))%result.

(** What [write_json_atomic] returns for the registry named [nm] and the
    entries it leaves in the registry directory [es]. *)
Definition write_outcome (nm : string) (es : list (string * node))
           (data : json) (fault : bool) : result unit * list (string * node) :=
  match Dict.get (nm ++ ".tmp") es with
  | Some (Dir _) => (Err (OSError IsADirectoryError), es)
  | _ =>
      if fault then
        (Err (OSError NoSpaceError),
         Dict.set (nm ++ ".tmp") (File (Text "")) es)
      else
        (Ok tt,
         Dict.set nm (File (Doc data))
           (Dict.remove (nm ++ ".tmp")
              (Dict.set (nm ++ ".tmp") (File (Doc data)) es)))
  end.

(** The outcome of the guarded section and the entries it leaves in the
    registry directory [es]. *)
Definition locked_outcome (c : sa_id.call) (registry_path : path)
           (nm : string) (es : list (string * node))
           (scanned : result sa_id.scan_result) (ts : string) (fault : bool)
  : result sa_id.allocation * list (string * node) :=
  match plan c registry_path (Dict.get nm es) scanned ts with
  | Err e => (Err e, es)
  | Ok (a, registry) =>
      if sa_id.dry_run c then (Ok a, es)
      else
        match write_outcome nm es (JObj registry) fault with
        | (Ok _, es') => (Ok a, es')
        | (Err e, es') => (Err e, es')
        end
  end.

(** The world after the system calls [evs]. *)
Definition logs (evs : list event) (w : world) : world :=
  World (fs w) (fds w) (now w) (write_fault w) (trace w ++ evs)%list
        (stdout w).

(** A time-out that is up sooner or later: any but not-a-number and
    positive infinity. *)
Definition runs_out (timeout_sec : Py.float) : bool :=
  match timeout_sec with
  | Py.NaN => false
  | Py.Inf negative => negative
  | Py.Finite _ _ => true
  end.

(** How the loop of [acquire_lock] ends when it finds the lock file at
    every attempt, and the number of attempts it makes. *)
Fixpoint blocked_error (fuel : nat) (slept : Z) (timeout_sec : Py.float)
  : exn :=
  if time_is_up timeout_sec slept then TimeoutError
  else
    match fuel with
    | S fuel' => blocked_error fuel' (slept + 1) timeout_sec
    | O => NeverReturns
    end.

Fixpoint blocked_attempts (fuel : nat) (slept : Z) (timeout_sec : Py.float)
  : nat :=
  if time_is_up timeout_sec slept then 1%nat
  else
    match fuel with
    | S fuel' => S (blocked_attempts fuel' (slept + 1) timeout_sec)
    | O => 1%nat
    end.

Definition is_NeverReturns (e : exn) : bool :=
  match e with NeverReturns => true | _ => false end.

(** The outcomes that are foreign to the guarded section of
    [allocate_next_id]: the argument errors, which are those of [main],
    and [NeverReturns], which is that of the wait for the lock. *)
Definition foreign (e : exn) : bool :=
  is_InvalidArgument e || is_NeverReturns e.

(** The events that change a file's contents. *)
Definition is_write (e : event) : bool :=
  match e with
  | EvWrite _ | EvReplace _ _ => true
  | _ => false
  end.

(** The observable outcome of a call: what it returns, and the entries it
    leaves at the registry path and at the temporary path. *)
Record outcome : Type := {
  returned : result allocation;
  registry_after : option node;
  tmp_after : option node
}.

Definition call_outcome (c : call) (registry_path : path)
           (entry tmp : option node) (scanned : result scan_result)
           (ts : string) (fault : bool) : outcome :=
  match plan c registry_path entry scanned ts with
  | Err e => {| returned := Err e; registry_after := entry; tmp_after := tmp |}
  | Ok (a, registry) =>
      if dry_run c then
        {| returned := Ok a; registry_after := entry; tmp_after := tmp |}
      else
        match tmp with
        | Some (Dir _) =>
            {| returned := Err (OSError IsADirectoryError);
               registry_after := entry; tmp_after := tmp |}
        | _ =>
            if fault then
              {| returned := Err (OSError NoSpaceError);
                 registry_after := entry;
                 tmp_after := Some (File (Text "")) |}
            else
              {| returned := Ok a;
                 registry_after := Some (File (Doc (JObj registry)));
                 tmp_after := None |}
        end
  end.

(** The counter of [kind] among the two of a fresh registry. *)
Definition counter_of (kind : string) (chg spec : Z) : Z :=
  if String.eqb kind "chg" then chg else spec.

Definition bumped (kind : string) (chg spec : Z) (ts : string)
  : list (string * json) :=
  if String.eqb kind "chg" then fresh_registry (chg + 1) spec ts
  else fresh_registry chg (spec + 1) ts.

Definition allocation_of (c : call) (rp : path) (next_id : Z) : allocation :=
  {| id := next_id;
     padded_id := Py.zfill (Py.str next_id) (pad c);
     stable_id :=
       (if String.eqb (kind c) "chg" then "CHG" else "SPEC")
       ++ "-" ++ Py.zfill (Py.str next_id) (pad c);
     a_kind := kind c;
     a_registry_path := rp;
     a_dry_run := dry_run c |}.

Fixpoint run_calls (c : call) (n : nat) (w : world)
  : list (result allocation * world) :=
  match n with
  | O => []
  | S n' =>
      let rw := allocate_next_id c w in
      rw :: run_calls c n' (snd rw)
  end.

Definition persisted_registry (w : world) (rp : path)
  : option (list (string * json)) :=
  match FS.get (fs w) rp with
  | Some (File (Doc (JObj r))) => Some r
  | _ => None
  end.

Definition counter_in (registry : list (string * json)) (kind : string)
  : option json :=
  match Dict.get "counters" registry with
  | Some (JObj counters) => Dict.get kind counters
  | _ => None
  end.

Definition persisted_counter (w : world) (rp : path) (kind : string)
  : option json :=
  match persisted_registry w rp with
  | Some r => counter_in r kind
  | None => None
  end.

Definition returned_id (rw : result allocation * world) : option Z :=
  match fst rw with
  | Ok a => Some (id a)
  | Err _ => None
  end.

Definition succeeded (rw : result allocation * world) : Prop :=
  exists a, fst rw = Ok a.

(** The registry a world holds at [rp] has the counters [chg] and [spec]:
    it is absent and both are zero, or it is a document in the shape the
    allocator writes. *)
Definition holds_counters (w : world) (rp : path) (chg spec : Z) : Prop :=
  (FS.get (fs w) rp = None /\ chg = 0 /\ spec = 0)
  \/ exists ts0,
       FS.get (fs w) rp = Some (File (Doc (JObj (fresh_registry chg spec ts0)))).

(** A loaded registry of schema version 1 whose [last_id] is [L]. *)
Definition version_1 (registry : list (string * json)) (L : Z) : Prop :=
  Dict.get "schema_version" registry = Some (JInt 1)
  /\ Dict.get "last_id" registry = Some (JInt L).




(** Nothing stands in the way of a call for the registry [d/nm]: its
    directory can be made, the lock is free, the temporary path is not a
    directory, the device stores what it is given. *)
Definition unobstructed (w : world) (d : path) (nm : string) : Prop :=
  (exists n1, FS.mkdir_p (fs w) d = Ok n1)
  /\ FS.get (fs w) (d ++ [(nm ++ ".lock")%string])%list = None
  /\ (forall es, FS.get (fs w) (d ++ [(nm ++ ".tmp")%string])%list
                 <> Some (Dir es))
  /\ write_fault w = false.

(* ===================================================================== *)
(** * Concrete worlds and calls *)
(* ===================================================================== *)



(** A registry of schema version 1 whose [last_id] is negative. *)
Definition negative_last_id : list (string * json) :=
  [("schema_version", JInt 1); ("last_id", JInt (-5))].

Definition negative_world : world :=
  World (Dir [("registry.json", File (Doc (JObj negative_last_id)))])
        [] "2026-01-01T00:00:00Z" false [] [].

(** An empty root directory, no descriptor open, the device in order. *)
Definition empty_world : world :=
  World (Dir []) [] "2026-01-01T00:00:00Z" false [] [].

(** A call with a kind that is not in [KIND_CHOICES]. *)
Definition bad_kind_call : call :=
  {| root := []; registry_relpath := ["registry.json"]; pad := 6;
     timeout_sec := Py.Finite 10 0; dry_run := false; scan := false;
     kind := "feat" |}.


(** A real allocation of kind [chg] for [registry.json] in the root
    directory, scanning off. *)
Definition chg_call : call :=
  {| root := []; registry_relpath := ["registry.json"]; pad := 6;
     timeout_sec := Py.Finite 10 0; dry_run := false; scan := false;
     kind := "chg" |}.

(** Its lock file, the handle [acquire_lock] returns for it in
    [empty_world], and the world [acquire_lock] leaves. *)
Definition lock_of_chg_call : path := ["registry.json.lock"].

Definition handle_of_chg_call : LockHandle :=
  {| fd := 1; lock_path := lock_of_chg_call |}.

Definition world_under_lock : world :=
  World (Dir [("registry.json.lock", File (Text ""))]) [1%nat]
        "2026-01-01T00:00:00Z" false
        [EvMkdir []; EvOpenExcl lock_of_chg_call] [].

(** A dry run with scanning on. *)
Definition preview_call : call :=
  {| root := []; registry_relpath := ["registry.json"]; pad := 6;
     timeout_sec := Py.Finite 10 0; dry_run := true; scan := true;
     kind := "chg" |}.

(** A registry with a counter and a top-level field of its own. *)
Definition extended_registry : list (string * json) :=
  [("schema_version", JInt 2);
   ("counters", JObj [("chg", JInt 4); ("doc", JInt 9)]);
   ("updated_at", JStr "2025-12-31T00:00:00Z");
   ("owner", JStr "team")].

Definition extended_world : world :=
  World (Dir [("registry.json", File (Doc (JObj extended_registry)))])
        [] "2026-01-01T00:00:00Z" false [] [].

(** A registry whose [chg] counter has more digits than the pad width. *)
Definition big_registry : list (string * json) :=
  [("schema_version", JInt 2);
   ("counters", JObj [("chg", JInt 1234566); ("spec", JInt 0)])].

Definition big_world : world :=
  World (Dir [("registry.json", File (Doc (JObj big_registry)))])
        [] "2026-01-01T00:00:00Z" false [] [].

(** A project as [sa_init.py] and [sa_new.py] lay it out: the tasks under
    [superagents/tasks], the registry (absent here) under
    [superagents/.sa]. *)
Definition project_tree : node :=
  Dir [("proj",
        Dir [("superagents",
              Dir [("tasks", Dir [("000005_fix_login", Dir [("change", Dir [])])]);
                   ("specs", Dir []);
                   (".sa", Dir [("history", Dir [])])])])].

Definition project_world : world :=
  World project_tree [] "2026-01-01T00:00:00Z" false [] [].

(** The call [sa_new.py] makes. *)
Definition sa_new_call : call :=
  {| root := ["proj"];
     registry_relpath := ["superagents"; ".sa"; "registry.json"];
     pad := 6; timeout_sec := Py.Finite 10 0; dry_run := false;
     scan := true; kind := "chg" |}.

(** The same tasks, put where the allocator looks for them. *)
Definition misplaced_tree : node :=
  Dir [("proj",
        Dir [("superagents",
              Dir [(".sa",
                    Dir [("tasks", Dir [("000005_fix_login", Dir [])])])])])].

Definition misplaced_world : world :=
  World misplaced_tree [] "2026-01-01T00:00:00Z" false [] [].



(** A registry with a counter written as a string. *)
Definition string_counter_registry : list (string * json) :=
  [("schema_version", JInt 2);
   ("counters", JObj [("chg", JInt 1); ("doc", JStr "7")])].

(* ===================================================================== *)
(** * Notions for the further properties *)
(* ===================================================================== *)

(** Every character of [s] passes [p]. *)
Fixpoint all_chars (p : ascii -> bool) (s : string) : bool :=
  match s with
  | EmptyString => true
  | String c r => p c && all_chars p r
  end.

(** The lines [ls], each closed by a line feed. *)
Fixpoint unlines (ls : list string) : string :=
  match ls with
  | [] => ""
  | l :: rest => l ++ String Py.LF (unlines rest)
  end.

(** A real allocation of kind [spec] for [registry.json] in the root
    directory, scanning off. *)
Definition spec_call : call :=
  {| root := []; registry_relpath := ["registry.json"]; pad := 6;
     timeout_sec := Py.Finite 10 0; dry_run := false; scan := false;
     kind := "spec" |}.

(** A [spec.md] whose front matter declares the first id of kind [spec]. *)
Definition spec_md_text : string :=
  unlines ["---"; "id: SPEC-000001"; "title: login"; "---"; "# login"].

(** A [dict] in which no key comes twice and every value is an [int]. *)
Definition int_dict (d : list (string * json)) : Prop :=
  NoDup (map fst d) /\ Forall (fun kv => exists z, snd kv = JInt z) d.

(** The counter of [kind] a loaded registry holds, 0 when it holds none:
    [int(counters.get(kind, 0))]. *)
Definition stored_counter (registry : list (string * json)) (kind : string)
  : Z :=
  match counter_in registry kind with
  | Some (JInt z) => z
  | _ => 0
  end.

(** [math.isfinite(f)] *)
Definition is_finite (f : Py.float) : bool :=
  match f with Py.Finite _ _ => true | _ => false end.

(** A device that refuses the data of every file. *)
Definition full_disk_world : world :=
  World (Dir [("registry.json", File (Doc (JObj extended_registry)))])
        [] "2026-01-01T00:00:00Z" true [] [].

(** A lock file left behind by a process that died. *)
Definition stale_lock_world : world :=
  World (Dir [("registry.json", File (Doc (JObj extended_registry)));
              ("registry.json.lock", File (Text ""))])
        [] "2026-01-01T00:00:00Z" false [] [].

(** A handle whose lock file another process has removed and whose
    descriptor is not open. *)
Definition lost_handle : LockHandle :=
  {| fd := 7; lock_path := ["registry.json.lock"] |}.

(** A handle for a lock file below [registry.json], which in
    [extended_world] is a regular file. *)
Definition stranded_handle : LockHandle :=
  {| fd := 7; lock_path := ["registry.json"; "registry.json.lock"] |}.

Module sa_compile.

(** The closure [numeric_id] of [compile_tasks], the key it sorts the
    task directories by. *)
Definition numeric_id (name : string) : Z :=
  match LEADING_ID_RE_match name with
  | None => 0
  | Some id =>
      match Py.int_of_str id with
      | Ok value => value
      | Err _ => 0
      end
  end.

End sa_compile.

(** The characters of a slug: lower-case letters, digits, hyphens. *)
Definition is_kebab_char (c : ascii) : bool :=
  is_slug_char c || Ascii.eqb c "-".

(** The task directories a scan of [superagents_dir] looks at: the
    directories in [tasks] and those in the month directories of
    [.sa/history]. *)
Definition is_task_dir (tree : node) (superagents_dir : path) (name : string)
  : Prop :=
  (exists tasks es,
     FS.get tree (superagents_dir ++ ["tasks"])%list = Some (Dir tasks)
     /\ In (name, Dir es) tasks)
  \/ (exists months month archived es,
        FS.get tree (superagents_dir ++ [".sa"; "history"])%list
        = Some (Dir months)
        /\ In (month, Dir archived) months
        /\ In (name, Dir es) archived).


(** A project with an active task, an archived one, a stray file and
    two specs. *)
Definition busy_tree : node :=
  Dir [("superagents",
        Dir [("tasks",
              Dir [("000005_fix_login", Dir []);
                   ("notes.txt", File (Text "000099_"));
                   ("draft", Dir [])]);
             (".sa",
              Dir [("history",
                    Dir [("2025-12", Dir [("000012_feat_search", Dir [])]);
                         ("index.md", File (Text ""))])]);
             ("specs",
              Dir [("auth",
                    Dir [("login",
                          Dir [("spec.md",
                                File (Text (unlines ["---"; "id: SPEC-000003";
                                                     "---"])))]);
                         ("logout",
                          Dir [("spec.md",
                                File (Text (unlines ["---"; "id: CHG-000040";
                                                     "---"])))])])])])].

(** The call [main] makes for the command line [a]: scanning is on
    unless [--no-scan] is given without [--scan]. *)
Definition call_of_args (a : args) : call :=
  {| root := arg_root a;
     registry_relpath := arg_registry a;
     pad := arg_pad a;
     timeout_sec := arg_timeout a;
     dry_run := arg_dry_run a;
     scan := arg_scan a || negb (arg_no_scan a);
     kind := arg_kind a |}.

(** The command line [--type fix --slug " login-page "]. *)
Definition named_args : args :=
  {| arg_root := []; arg_registry := ["superagents"; ".sa"; "registry.json"];
     arg_kind := "chg"; arg_pad := 6; arg_timeout := Py.Finite 10 0;
     arg_dry_run := false; arg_scan := false; arg_no_scan := false;
     arg_type := Some "fix"; arg_slug := Some " login-page ";
     arg_json := false |}.

(** The command line [--slug Login_Page --type fix]. *)
Definition bad_slug_args : args :=
  {| arg_root := []; arg_registry := ["superagents"; ".sa"; "registry.json"];
     arg_kind := "chg"; arg_pad := 6; arg_timeout := Py.Finite 10 0;
     arg_dry_run := false; arg_scan := false; arg_no_scan := false;
     arg_type := Some "fix"; arg_slug := Some "Login_Page";
     arg_json := false |}.

(* ===================================================================== *)
(** * [sa_init.py] *)
(* ===================================================================== *)

Module sa_init.

(** The loop of [ensure_dirs] over the names that are left. *)
Fixpoint make_dirs (superagents_dir : path) (names : list path)
         (dry_run : bool) : M unit :=
  match names with
  | [] => ret tt
  | name :: rest =>
      (if dry_run then ret tt
       else Sys.mkdir_parents (superagents_dir ++ name)%list) ;;
      make_dirs superagents_dir rest dry_run
  end.

Definition LAYOUT : list path :=
  [["specs"]; ["tasks"]; [".sa"; "wiki"]; [".sa"; "templates"];
   [".sa"; "history"]].

Definition ensure_dirs (superagents_dir : path) (dry_run : bool) : M unit :=
  make_dirs superagents_dir LAYOUT dry_run.

(** [root] is not used. *)
Definition ensure_registry (superagents_dir root : path) (dry_run : bool)
  : M unit :=
  let registry_path := sa_util.sa_registry_path superagents_dir in
  present <- Sys.path_exists registry_path ;;
  if present then ret tt
  else
    scanned <- scan_max_ids superagents_dir ;;
    updated_at <- utc_now_iso ;;
    let registry :=
      fresh_registry (s_chg scanned) (s_spec scanned) updated_at in
    if dry_run then ret tt
    else write_json_atomic registry_path (JObj registry).

End sa_init.

(** The call [sa_new.py] makes for the project [root] and the directory
    name [dir]. *)
Definition sa_new_call_for (root : path) (dir : string) (dry_run : bool)
  : call :=
  {| root := root;
     registry_relpath := [dir; ".sa"; "registry.json"];
     pad := 6; timeout_sec := Py.Finite 10 0; dry_run := dry_run;
     scan := true; kind := "chg" |}.

(** A node stays what it is: a file keeps its contents, a directory
    stays a directory. *)
Definition kept (x x' : node) : Prop :=
  match x with
  | File c => x' = File c
  | Dir _ => exists es', x' = Dir es'
  end.

(** What [scan_max_ids] makes of the three entries it looks up: [tasks],
    [.sa/history] and [specs]. *)
Definition scan_of (tasks history specs : option node) : result scan_result :=
  (let max_chg := 0 in
   let max_spec := 0 in
   let? max_chg :=
     match tasks with
     | Some tasks_dir =>
         let? children := iterdir tasks_dir in
         Ok (bump_dirs children max_chg)
     | None => Ok max_chg
     end in
   let? max_chg :=
     match history with
     | Some history_dir =>
         let? months := iterdir history_dir in
         Ok (bump_months months max_chg)
     | None => Ok max_chg
     end in
   let? max_spec :=
     match specs with
     | Some specs_dir => bump_specs (glob_spec_md specs_dir) max_spec
     | None => Ok max_spec
     end in
   Ok {| s_chg := max_chg; s_spec := max_spec |})%result.

(** An entry that is not a directory: nothing, or a file. *)
Definition no_dir (entry : option node) : Prop :=
  match entry with
  | Some (Dir _) => False
  | _ => True
  end.


(** A computation that, run where [d] is a directory, changes the tree
    in the entries of [d] only. *)
Definition confined {A} (d : path) (m : M A) : Prop :=
  forall w es, FS.get (fs w) d = Some (Dir es) ->
               exists f, fs (snd (m w)) = FS.alter_dir f (fs w) d.






(** What a registry document states as its version: the value of
    [data.get("schema_version", 1)]. *)
Definition stated_version (doc : list (string * json)) : json :=
  Dict.get_default "schema_version" (JInt 1) doc.

(** The error of the last line of [read_registry]. *)
Definition bad_version : exn := ValueError MsgBadSchemaVersion.

(* ===================================================================== *)
(** * The built-ins on small inputs *)
(* ===================================================================== *)

Example strip_ex : Py.strip "  id 7 " = "id 7".
Proof. reflexivity. Qed.

Example splitlines_ex :
  Py.splitlines (String "a" (String Py.CR (String Py.LF
                (String Py.LF (String "b" (String Py.LF ""))))))
  = ["a"; ""; "b"].
Proof. reflexivity. Qed.

Example str_ex : Py.str 120 = "120" /\ Py.str 0 = "0" /\ Py.str (-4) = "-4".
Proof. repeat split. Qed.

Example zfill_ex :
  Py.zfill "7" 6 = "000007" /\ Py.zfill "-4" 6 = "-00004"
  /\ Py.zfill "1234567" 6 = "1234567" /\ Py.zfill "7" (-3) = "7".
Proof. repeat split. Qed.

Example int_of_str_ex :
  Py.int_of_str " 000_005 " = Ok 5 /\ Py.int_of_str "-12" = Ok (-12)
  /\ Py.int_of_str "_5" = Err (ValueError MsgIntLiteral)
  /\ Py.int_of_str "" = Err (ValueError MsgIntLiteral).
Proof. repeat split. Qed.

Example int_of_str_space_ex :
  Py.strip (String (ascii_of_N 31) "7") = "7"
  /\ Py.int_of_str (String (ascii_of_N 31) "7") = Err (ValueError MsgIntLiteral)
  /\ Py.int_of_str (String (ascii_of_N 160) "7") = Ok 7.
Proof. repeat split. Qed.

Example int_of_float_ex :
  Py.int_of_float (Py.Finite (-7) (-1)) = Ok (-3)
  /\ Py.int_of_float (Py.Finite 3 2) = Ok 12.
Proof. repeat split. Qed.


Example time_is_up_ex :
  time_is_up (Py.Finite 10 0) 99 = false
  /\ time_is_up (Py.Finite 10 0) 100 = true
  /\ time_is_up (Py.Finite 3 (-1)) 14 = false
  /\ time_is_up (Py.Finite 3 (-1)) 15 = true
  /\ time_is_up (Py.Finite 0 0) 0 = true
  /\ time_is_up (Py.Inf true) 0 = true.
Proof. repeat split. Qed.

Example lookup_error_ex :
  FS.lookup_error (Dir [("a", File (Text ""))]) ["b"; "c"] = FileNotFoundError
  /\ FS.lookup_error (Dir [("a", File (Text ""))]) ["a"; "c"]
     = NotADirectoryError.
Proof. repeat split. Qed.

(* ===================================================================== *)
(** * Facts *)
(* ===================================================================== *)

Section DictFacts.
Variable V : Type.
Implicit Types (d : list (string * V)) (k : string) (v : V).

Lemma dict_get_set_same k v d : Dict.get k (Dict.set k v d) = Some v.
Proof.
  induction d as [|[k' v'] d IH]; simpl.
  - now rewrite String.eqb_refl.
  - destruct (String.eqb k k') eqn:E; simpl.
    + now rewrite String.eqb_refl.
    + now rewrite E.
Qed.

Lemma dict_get_set_other k k' v d :
  k <> k' -> Dict.get k (Dict.set k' v d) = Dict.get k d.
Proof.
  intros Hne. apply String.eqb_neq in Hne.
  induction d as [|[k0 v0] d IH]; simpl.
  - now rewrite Hne.
  - destruct (String.eqb k' k0) eqn:E; simpl.
    + apply String.eqb_eq in E. subst k0. now rewrite Hne.
    + now rewrite IH.
Qed.

Lemma dict_get_remove_same k d : Dict.get k (Dict.remove k d) = None.
Proof.
  induction d as [|[k' v'] d IH]; simpl; [reflexivity|].
  destruct (String.eqb k k') eqn:E; simpl; [assumption|].
  now rewrite E.
Qed.

Lemma dict_get_remove_other k k' d :
  k <> k' -> Dict.get k (Dict.remove k' d) = Dict.get k d.
Proof.
  intros Hne. apply String.eqb_neq in Hne.
  induction d as [|[k0 v0] d IH]; simpl; [reflexivity|].
  destruct (String.eqb k' k0) eqn:E; simpl.
  - apply String.eqb_eq in E. subst k0. now rewrite Hne.
  - now rewrite IH.
Qed.

Lemma dict_set_same k v d : Dict.get k d = Some v -> Dict.set k v d = d.
Proof.
  induction d as [|[k' v'] d IH]; simpl; [discriminate|].
  destruct (String.eqb k k') eqn:E.
  - apply String.eqb_eq in E. intros [= ->]. now subst.
  - intros H. now rewrite IH.
Qed.

Lemma dict_set_set k v v' d :
  Dict.set k v' (Dict.set k v d) = Dict.set k v' d.
Proof.
  induction d as [|[k0 v0] d IH]; simpl.
  - now rewrite String.eqb_refl.
  - destruct (String.eqb k k0) eqn:E; simpl.
    + now rewrite String.eqb_refl.
    + now rewrite E, IH.
Qed.

Lemma dict_remove_absent k d : Dict.get k d = None -> Dict.remove k d = d.
Proof.
  induction d as [|[k' v'] d IH]; simpl; [reflexivity|].
  destruct (String.eqb k k'); [discriminate|].
  intros H. now rewrite IH.
Qed.

Lemma dict_remove_set_absent k v d :
  Dict.get k d = None -> Dict.remove k (Dict.set k v d) = d.
Proof.
  induction d as [|[k' v'] d IH]; simpl.
  - now rewrite String.eqb_refl.
  - destruct (String.eqb k k') eqn:E; [discriminate|].
    intros H. simpl. now rewrite E, IH.
Qed.
End DictFacts.

Section TreeFacts.
Implicit Types (n : node) (d p q : path)
         (f g : list (string * node) -> list (string * node)).

Lemma get_app n p q :
  FS.get n (p ++ q)%list =
  match FS.get n p with Some m => FS.get m q | None => None end.
Proof.
  revert n. induction p as [|x p IH]; intros n; simpl; [reflexivity|].
  destruct n as [c|es]; [reflexivity|].
  destruct (Dict.get x es); [apply IH | reflexivity].
Qed.

Lemma get_child n d x es :
  FS.get n d = Some (Dir es) -> FS.get n (d ++ [x])%list = Dict.get x es.
Proof.
  intros H. rewrite get_app, H. simpl. now destruct (Dict.get x es).
Qed.

Lemma lookup_error_cases n p :
  FS.lookup_error n p = FileNotFoundError
  \/ FS.lookup_error n p = NotADirectoryError.
Proof.
  revert n. induction p as [|x p IH]; intros n; cbn; [now left|].
  destruct n as [c|es]; [now right|].
  destruct (Dict.get x es); [apply IH | now left].
Qed.

(** A name that is missing from a directory that is there: [ENOENT]. *)
Lemma lookup_error_child n d x es :
  FS.get n d = Some (Dir es) -> Dict.get x es = None ->
  FS.lookup_error n (d ++ [x])%list = FileNotFoundError.
Proof.
  revert n. induction d as [|y d IH]; intros n; cbn.
  - intros [= ->] ->. reflexivity.
  - destruct n as [c|es0]; [discriminate|].
    destruct (Dict.get y es0) as [c|]; [apply IH | discriminate].
Qed.

(** A file where the path needs a directory: [ENOTDIR]. *)
Lemma lookup_error_below_file n d c x q :
  FS.get n d = Some (File c) ->
  FS.lookup_error n (d ++ x :: q)%list = NotADirectoryError.
Proof.
  revert n. induction d as [|y d IH]; intros n; cbn.
  - intros [= ->]. reflexivity.
  - destruct n as [c0|es0]; [discriminate|].
    destruct (Dict.get y es0) as [c0|]; [apply IH | discriminate].
Qed.

Lemma get_alter_dir f n d es :
  FS.get n d = Some (Dir es) ->
  FS.get (FS.alter_dir f n d) d = Some (Dir (f es)).
Proof.
  revert n. induction d as [|x d IH]; intros n; simpl.
  - intros [= ->]. reflexivity.
  - destruct n as [c|es0]; [discriminate|].
    destruct (Dict.get x es0) as [c|] eqn:E; [|discriminate].
    intros H. simpl. rewrite dict_get_set_same. now apply IH.
Qed.

Lemma alter_dir_fixed f n d es :
  FS.get n d = Some (Dir es) -> f es = es -> FS.alter_dir f n d = n.
Proof.
  revert n. induction d as [|x d IH]; intros n; simpl.
  - intros [= ->] ->. reflexivity.
  - destruct n as [c|es0]; [discriminate|].
    destruct (Dict.get x es0) as [c|] eqn:E; [|discriminate].
    intros H Hf. rewrite (IH c H Hf). now rewrite dict_set_same.
Qed.

Lemma alter_dir_twice f g n d :
  FS.alter_dir g (FS.alter_dir f n d) d =
  FS.alter_dir (fun es => g (f es)) n d.
Proof.
  revert n. induction d as [|x d IH]; intros [c|es]; simpl; try reflexivity.
  destruct (Dict.get x es) as [c|] eqn:E; simpl.
  - now rewrite dict_get_set_same, dict_set_set, IH.
  - now rewrite E.
Qed.

Lemma parent_snoc d x : FS.parent (d ++ [x])%list = d.
Proof. apply removelast_last. Qed.

Lemma name_snoc d x : FS.name (d ++ [x])%list = x.
Proof. apply last_last. Qed.

Lemma path_snoc p : p <> [] -> p = (FS.parent p ++ [FS.name p])%list.
Proof. intros H. now apply app_removelast_last. Qed.

Lemma path_cases (p : path) : p = [] \/ exists d nm, p = (d ++ [nm])%list.
Proof.
  destruct p as [|x p]; [now left|]. right.
  exists (FS.parent (x :: p)), (FS.name (x :: p)).
  apply path_snoc. discriminate.
Qed.

Lemma with_name_snoc d x y : FS.with_name (d ++ [x])%list y = Ok (d ++ [y])%list.
Proof.
  unfold FS.with_name. rewrite parent_snoc.
  destruct (d ++ [x])%list eqn:E; [|reflexivity].
  now destruct d.
Qed.

Lemma is_dir_parent n d x es :
  FS.get n d = Some (Dir es) -> FS.is_dir n (FS.parent (d ++ [x])%list) = true.
Proof. intros H. unfold FS.is_dir. now rewrite parent_snoc, H. Qed.

Lemma get_put n d x v es :
  FS.get n d = Some (Dir es) ->
  FS.get (FS.put n (d ++ [x])%list v) d = Some (Dir (Dict.set x v es)).
Proof.
  intros H. unfold FS.put. rewrite parent_snoc, name_snoc.
  now apply get_alter_dir.
Qed.

Lemma get_del n d x es :
  FS.get n d = Some (Dir es) ->
  FS.get (FS.del n (d ++ [x])%list) d = Some (Dir (Dict.remove x es)).
Proof.
  intros H. unfold FS.del. rewrite parent_snoc, name_snoc.
  now apply get_alter_dir.
Qed.

Lemma del_put_absent n d x v es :
  FS.get n d = Some (Dir es) -> Dict.get x es = None ->
  FS.del (FS.put n (d ++ [x])%list v) (d ++ [x])%list = n.
Proof.
  intros H Hx. unfold FS.del, FS.put. rewrite parent_snoc, name_snoc.
  rewrite alter_dir_twice. apply alter_dir_fixed with (es := es); [assumption|].
  now apply dict_remove_set_absent.
Qed.

(** [mkdir -p] leaves a directory at [d]: the one that was there, or a
    new, empty one. *)
Lemma mkdir_p_dir n d n' :
  FS.mkdir_p n d = Ok n' ->
  exists es, FS.get n' d = Some (Dir es)
             /\ (FS.get n d = Some (Dir es) \/ FS.get n d = None /\ es = []).
Proof.
  revert n n'. induction d as [|x d IH]; intros [c|es0] n'; simpl;
    try discriminate.
  - intros [= <-]. exists es0. auto.
  - destruct (FS.mkdir_p _ d) as [c'|e] eqn:E; [|discriminate].
    intros [= <-]. simpl. rewrite dict_get_set_same.
    destruct (IH _ _ E) as (es & Hget & Hold). exists es. split; [assumption|].
    destruct (Dict.get x es0) as [c|]; [assumption|].
    right. split; [reflexivity|].
    destruct Hold as [Hold|[_ ->]]; [|reflexivity].
    destruct d; simpl in Hold; [now inversion Hold | discriminate].
Qed.

Lemma mkdir_p_existing n d es :
  FS.get n d = Some (Dir es) -> FS.mkdir_p n d = Ok n.
Proof.
  revert n. induction d as [|x d IH]; intros [c|es0]; simpl; try discriminate.
  - reflexivity.
  - destruct (Dict.get x es0) as [c|] eqn:E; [|discriminate].
    intros H. rewrite (IH c H). now rewrite dict_set_same.
Qed.
End TreeFacts.

Section StringFacts.
Lemma append_inv_head (s a b : string) : s ++ a = s ++ b -> a = b.
Proof. induction s as [|c s IH]; simpl; [auto|]. intros [= H]. auto. Qed.

Lemma append_length (s a : string) :
  String.length (s ++ a) = (String.length s + String.length a)%nat.
Proof. induction s as [|c s IH]; simpl; [reflexivity|]. now rewrite IH. Qed.

Lemma append_neq_self (s a : string) : a <> "" -> s ++ a <> s.
Proof.
  intros Ha H. apply (f_equal String.length) in H.
  rewrite append_length in H. destruct a; [congruence|]. simpl in H. lia.
Qed.

Lemma lock_neq_name (nm : string) : nm ++ ".lock" <> nm.
Proof. now apply append_neq_self. Qed.

Lemma tmp_neq_name (nm : string) : nm ++ ".tmp" <> nm.
Proof. now apply append_neq_self. Qed.

Lemma tmp_neq_lock (nm : string) : nm ++ ".tmp" <> nm ++ ".lock".
Proof. intros H. now apply append_inv_head in H. Qed.
End StringFacts.

Lemma same_env_refl w : same_env w w.
Proof. now repeat split. Qed.

Lemma same_env_trans w1 w2 w3 : same_env w1 w2 -> same_env w2 w3 -> same_env w1 w3.
Proof. unfold same_env. intuition congruence. Qed.

Section SysFacts.
Variables (w : world) (d : path) (es : list (string * node)).
Hypothesis Hd : FS.get (fs w) d = Some (Dir es).

Lemma path_exists_at x :
  Sys.path_exists (d ++ [x])%list w
  = (Ok (Dict.mem x es), log (EvExists (d ++ [x])%list) w).
Proof.
  unfold Sys.path_exists, Dict.mem. now rewrite (get_child _ _ x Hd).
Qed.

Lemma mkdir_parents_at x :
  Sys.mkdir_parents (FS.parent (d ++ [x])%list) w = (Ok tt, log (EvMkdir d) w).
Proof.
  unfold Sys.mkdir_parents. rewrite parent_snoc, (mkdir_p_existing _ _ Hd).
  now destruct w.
Qed.

Lemma load_json_at x :
  Sys.load_json (d ++ [x])%list w
  = (match Dict.get x es with
     | None => Err (OSError FileNotFoundError)
     | Some (Dir _) => Err (OSError IsADirectoryError)
     | Some (File (Doc j)) => Ok j
     | Some (File (Text _)) => Err (ValueError MsgJSONDecode)
     | Some (File Binary) => Err (ValueError MsgUnicodeDecode)
     end, log (EvRead (d ++ [x])%list) w).
Proof.
  unfold Sys.load_json. rewrite (get_child _ _ x Hd).
  destruct (Dict.get x es) as [[[j|s|]|es']|] eqn:E; try reflexivity.
  now rewrite (@lookup_error_child _ _ _ _ Hd E).
Qed.

Lemma dump_json_at x data :
  Sys.dump_json (d ++ [x])%list data w
  = match Dict.get x es with
    | Some (Dir _) =>
        (Err (OSError IsADirectoryError), log (EvWrite (d ++ [x])%list) w)
    | _ =>
        if write_fault w then
          (Err (OSError NoSpaceError),
           with_fs (log (EvWrite (d ++ [x])%list) w)
                   (FS.put (fs w) (d ++ [x])%list (File (Text ""))))
        else
          (Ok tt,
           with_fs (log (EvWrite (d ++ [x])%list) w)
                   (FS.put (fs w) (d ++ [x])%list (File (Doc data))))
    end.
Proof.
  unfold Sys.dump_json.
  rewrite (get_child _ _ x Hd), (is_dir_parent _ _ x Hd).
  destruct (Dict.get x es) as [[c|es']|]; reflexivity.
Qed.

Lemma replace_file_at x y c :
  Dict.get x es = Some (File c) ->
  (forall es', Dict.get y es <> Some (Dir es')) ->
  Sys.replace (d ++ [x])%list (d ++ [y])%list w
  = (Ok tt,
     with_fs (log (EvReplace (d ++ [x])%list (d ++ [y])%list) w)
             (FS.put (FS.del (fs w) (d ++ [x])%list) (d ++ [y])%list (File c))).
Proof.
  intros Hx Hy. unfold Sys.replace.
  rewrite (get_child _ _ x Hd), (get_child _ _ y Hd), Hx, (is_dir_parent _ _ y Hd).
  destruct (Dict.get y es) as [[c'|es']|]; try reflexivity.
  now elim (Hy es').
Qed.

Lemma unlink_file_at x c :
  Dict.get x es = Some (File c) ->
  Sys.unlink (d ++ [x])%list w
  = (Ok tt, with_fs (log (EvUnlink (d ++ [x])%list) w)
                    (FS.del (fs w) (d ++ [x])%list)).
Proof.
  intros Hx. unfold Sys.unlink. now rewrite (get_child _ _ x Hd), Hx.
Qed.
End SysFacts.

Lemma read_registry_at w d es nm :
  FS.get (fs w) d = Some (Dir es) ->
  exists w',
    read_registry (d ++ [nm])%list w = (registry_of_node (Dict.get nm es), w')
    /\ fs w' = fs w /\ same_env w w'
    /\ exists evs, trace w' = (trace w ++ evs)%list
                   /\ forallb (fun e => negb (is_write e)) evs = true.
Proof.
  intros Hd. unfold read_registry, bind.
  rewrite (path_exists_at _ _ Hd). unfold Dict.mem.
  destruct (Dict.get nm es) as [n|] eqn:E.
  - assert (Hd' : FS.get (fs (log (EvExists (d ++ [nm])%list) w)) d = Some (Dir es))
      by exact Hd.
    rewrite (load_json_at _ _ Hd' nm), E.
    eexists. split.
    + destruct n as [[j|s|]|es']; simpl; try reflexivity.
      unfold lift. destruct (check_registry j); reflexivity.
    + simpl. repeat split. eexists. split.
      * rewrite <- app_assoc. reflexivity.
      * reflexivity.
  - eexists. split; [reflexivity|]. simpl. repeat split.
    eexists. split; reflexivity.
Qed.

Lemma write_json_atomic_at w d es nm data :
  FS.get (fs w) d = Some (Dir es) ->
  (forall es', Dict.get nm es <> Some (Dir es')) ->
  exists w',
    write_json_atomic (d ++ [nm])%list data w
    = (fst (write_outcome nm es data (write_fault w)), w')
    /\ FS.get (fs w') d = Some (Dir (snd (write_outcome nm es data (write_fault w))))
    /\ same_env w w'
    /\ exists evs, trace w' = (trace w ++ evs)%list.
Proof.
  intros Hd Hreg. unfold write_json_atomic, bind, tmp_path_of, write_outcome.
  rewrite (mkdir_parents_at _ _ Hd nm).
  rewrite with_name_snoc, name_snoc. unfold lift.
  set (w1 := log (EvMkdir d) w).
  assert (Hd1 : FS.get (fs w1) d = Some (Dir es)) by exact Hd.
  rewrite (dump_json_at _ _ Hd1).
  change (write_fault w1) with (write_fault w).
  destruct (Dict.get (nm ++ ".tmp") es) as [[c|es']|] eqn:Et.
  2: { eexists. split; [reflexivity|]. simpl. repeat split; try assumption.
       eexists. now rewrite <- app_assoc. }
  all: destruct (write_fault w) eqn:Ef.
  all: try (eexists; split; [reflexivity|]; simpl;
            split; [now apply get_put|];
            repeat split; eexists; now rewrite <- app_assoc).
  all: match goal with
       | |- context [Sys.replace _ _ ?w2] => set (w2' := w2)
       end.
  all: assert (Hd2 : FS.get (fs w2') d
                     = Some (Dir (Dict.set (nm ++ ".tmp") (File (Doc data)) es)))
         by (apply get_put; exact Hd).
  all: rewrite (replace_file_at _ _ Hd2 (nm ++ ".tmp") nm (c := Doc data));
    [ | apply dict_get_set_same
      | intros es''; rewrite dict_get_set_other;
        [apply Hreg | intros H; symmetry in H; now apply tmp_neq_name in H] ].
  all: eexists; split; [reflexivity|]; simpl; split;
    [ apply get_put; apply get_del; apply get_put; exact Hd
    | repeat split; eexists; now rewrite <- !app_assoc ].
Qed.

Lemma allocate_locked_run c d nm w es :
  FS.get (fs w) d = Some (Dir es) ->
  let scanned :=
    if scan c
    then scan_tree (fs w) (root c ++ FS.parent (registry_relpath c))%list
    else Ok no_scan in
  let out := locked_outcome c (d ++ [nm])%list nm es scanned (now w)
                            (write_fault w) in
  exists w',
    allocate_locked c (d ++ [nm])%list w = (fst out, w')
    /\ FS.get (fs w') d = Some (Dir (snd out))
    /\ same_env w w'
    /\ (dry_run c = true -> fs w' = fs w)
    /\ exists evs, trace w' = (trace w ++ evs)%list
                   /\ (dry_run c = true ->
                       forallb (fun e => negb (is_write e)) evs = true).
Proof.
  intros Hd scanned out. subst out scanned.
  unfold allocate_locked, locked_outcome, plan, bind, ret, raise, lift.
  destruct (kind_in_choices (kind c)) eqn:Ek.
  2: { exists w. simpl. repeat split; try assumption.
       exists []. now rewrite app_nil_r. }
  destruct (subscript KIND_PREFIX (kind c)) as [prefix|e] eqn:Ep; simpl.
  2: { exists w. simpl. repeat split; try assumption.
       exists []. now rewrite app_nil_r. }
  destruct (read_registry_at _ _ nm Hd) as (w1 & Hr & Hfs1 & Henv1 & evs1 & Htr1 & Hnw1).
  rewrite Hr.
  destruct (registry_of_node (Dict.get nm es)) as [reg0|e] eqn:Ereg; simpl.
  2: { exists w1. simpl. rewrite Hfs1. repeat split; try apply Henv1; try assumption.
       exists evs1. auto. }
  set (sd := (root c ++ FS.parent (registry_relpath c))%list).
  set (sc := if scan c then scan_tree (fs w) sd else Ok no_scan).
  assert (Hscan : exists w2,
             (if scan c then scan_max_ids sd
              else fun w0 => (Ok {| s_chg := 0; s_spec := 0 |}, w0)) w1
             = (sc, w2)
             /\ fs w2 = fs w /\ same_env w w2
             /\ exists evs, trace w2 = (trace w ++ evs)%list
                            /\ forallb (fun e => negb (is_write e)) evs = true).
  { subst sc. destruct (scan c).
    - eexists. split; [unfold scan_max_ids; rewrite Hfs1; reflexivity|].
      simpl. repeat split; try apply Henv1; try assumption.
      exists (evs1 ++ [EvScan sd])%list. rewrite Htr1, <- app_assoc.
      split; [reflexivity|]. rewrite forallb_app, Hnw1. reflexivity.
    - exists w1. repeat split; try apply Henv1; try assumption.
      exists evs1. auto. }
  destruct Hscan as (w2 & Hsc & Hfs2 & Henv2 & evs2 & Htr2 & Hnw2).
  rewrite Hsc. clear Hsc.
  assert (Hnow : now w2 = now w) by apply Henv2.
  assert (Hfault : write_fault w2 = write_fault w) by apply Henv2.
  assert (Hstop : exists w', w2 = w'
             /\ FS.get (fs w') d = Some (Dir es) /\ same_env w w'
             /\ (dry_run c = true -> fs w' = fs w)
             /\ exists evs, trace w' = (trace w ++ evs)%list
                   /\ (dry_run c = true ->
                       forallb (fun e => negb (is_write e)) evs = true)).
  { exists w2. rewrite Hfs2. repeat split; try apply Henv2; try assumption.
    exists evs2. auto. }
  destruct sc as [scanned|e]; simpl.
  2: { destruct Hstop as (w' & -> & H). exists w'. auto. }
  rewrite Hnow.
  destruct (reconcile reg0 scanned (now w)) as [reg|e]; simpl.
  2: { destruct Hstop as (w' & -> & H). exists w'. auto. }
  destruct (subscript reg "counters") as [j|e]; simpl.
  2: { destruct Hstop as (w' & -> & H). exists w'. auto. }
  destruct (py_dict j) as [counters|e]; simpl.
  2: { destruct Hstop as (w' & -> & H). exists w'. auto. }
  destruct (py_int (Dict.get_default (kind c) (JInt 0) counters)) as [current|e];
    simpl.
  2: { destruct Hstop as (w' & -> & H). exists w'. auto. }
  destruct (dry_run c) eqn:Edry.
  { destruct Hstop as (w' & -> & H). exists w'. auto. }
  clear Hstop.
  assert (Hd2 : FS.get (fs w2) d = Some (Dir es)) by (now rewrite Hfs2).
  assert (Hreg : forall es', Dict.get nm es <> Some (Dir es')).
  { intros es' H. rewrite H in Ereg. discriminate. }
  match goal with
  | |- context [write_json_atomic _ ?data w2] =>
      destruct (write_json_atomic_at _ _ nm data Hd2 Hreg)
        as (w3 & Hw & Hd3 & Henv3 & evs3 & Htr3)
  end.
  rewrite Hw, Hfault, Hnow in *. 
  exists w3.
  destruct (write_outcome nm es _ (write_fault w)) as [[[]|e] es3]; simpl in *.
  all: split; [reflexivity|]; split; [assumption|];
    split; [eapply same_env_trans; eassumption|];
    split; [discriminate|];
    exists (evs2 ++ evs3)%list; rewrite Htr3, Htr2, <- app_assoc;
    split; [reflexivity | discriminate].
Qed.

Lemma py_int_err j e : py_int j = Err e -> foreign e = false.
Proof.
  destruct j as [| | |f|s| |]; cbn; try discriminate;
    try (now intros [= <-]).
  - destruct f; cbn; try discriminate; now intros [= <-].
  - unfold Py.int_of_str.
    destruct (Py.strip_with Py.is_int_space s) as [|c r];
      [cbn; now intros [= <-]|].
    destruct (Ascii.eqb c "-"); [|destruct (Ascii.eqb c "+")];
      destruct (Py.digits_value 0 false _); try discriminate;
      now intros [= <-].
Qed.

Lemma int_or_err m j e :
  int_or m j = Err e ->
  foreign (ValueError m) = false ->
  foreign e = false.
Proof.
  unfold int_or. destruct (py_int j) as [z|e0] eqn:E; [discriminate|].
  intros H Hm. apply py_int_err in E.
  destruct e0; injection H as <-; assumption.
Qed.

Lemma normalize_counters_err items : forall acc e,
  normalize_counters items acc = Err e -> foreign e = false.
Proof.
  induction items as [|[k v] rest IH]; intros acc e; cbn [normalize_counters];
    [discriminate|].
  destruct (int_or (MsgCounterNotInt k) v) as [z|e0] eqn:E; [apply IH|].
  intros [= <-]. now apply (int_or_err _ _ E).
Qed.

Lemma check_registry_err j e :
  check_registry j = Err e -> foreign e = false.
Proof.
  unfold check_registry. destruct j as [| | | | | |d]; try (now intros [= <-]).
  destruct (py_int _) as [v|e0] eqn:Ev; cbn [rbind];
    [|intros [= <-]; now apply py_int_err in Ev].
  destruct (v =? 1).
  - destruct (Dict.get "last_id" _) as [x|]; [|now intros [= <-]].
    destruct (int_or MsgLastIdNotInt x) as [L|e0] eqn:EL; cbn [rbind];
      [discriminate|]. intros [= <-]. now apply (int_or_err _ _ EL).
  - destruct (2 <=? v); [|now intros [= <-]].
    destruct (Dict.get "counters" _) as [[| | | | | |cs]|]; cbn [rbind];
      try (now intros [= <-]).
    all: match goal with
         | |- context [normalize_counters ?l []] =>
             destruct (normalize_counters l []) as [n|e0] eqn:En;
             cbn [rbind]; [discriminate|];
             intros [= <-]; now apply normalize_counters_err in En
         end.
Qed.

Lemma registry_of_node_err entry e :
  registry_of_node entry = Err e -> foreign e = false.
Proof.
  destruct entry as [[[j|s|]|es]|]; cbn; try discriminate;
    try (now intros [= <-]).
  destruct (check_registry j) as [r|e0] eqn:E; [discriminate|].
  intros [= <-]. now apply check_registry_err in E.
Qed.

Lemma mkdir_p_err d : forall n e,
  FS.mkdir_p n d = Err e -> foreign e = false.
Proof.
  induction d as [|x d IH]; intros [c|es] e; cbn [FS.mkdir_p];
    try discriminate; try (now intros [= <-]).
  destruct (FS.mkdir_p _ d) as [n'|e0] eqn:E; [discriminate|].
  intros [= <-]. now apply IH in E.
Qed.

Lemma bump_spec_err f m e :
  bump_spec f m = Err e -> foreign e = false.
Proof.
  unfold bump_spec.
  destruct f as [[j|s|]|es]; cbn [read_doc_id rbind];
    try (now intros [= <-]).
  all: destruct (STABLE_ID_RE_match _) as [[p ds]|]; try discriminate;
    destruct (negb _); try discriminate;
    destruct (Py.int_of_str ds); discriminate.
Qed.

Lemma bump_specs_err files : forall m e,
  bump_specs files m = Err e -> foreign e = false.
Proof.
  induction files as [|f rest IH]; intros m e; cbn [bump_specs];
    [discriminate|].
  destruct (bump_spec f m) as [m1|e0] eqn:E; [apply IH|].
  intros [= <-]. now apply bump_spec_err in E.
Qed.

Lemma scan_tree_err tree sd e :
  scan_tree tree sd = Err e -> foreign e = false.
Proof.
  unfold scan_tree.
  destruct (FS.get tree (sd ++ ["tasks"])%list) as [[c|tasks]|];
    cbn [iterdir rbind]; try (now intros [= <-]).
  all: destruct (FS.get tree (sd ++ [".sa"; "history"])%list)
         as [[c'|months]|]; cbn [iterdir rbind]; try (now intros [= <-]).
  all: destruct (FS.get tree (sd ++ ["specs"])%list) as [specs|];
    cbn [rbind]; try discriminate.
  all: destruct (bump_specs (glob_spec_md specs) 0) as [r|e0] eqn:E;
    cbn [rbind]; [discriminate|];
    intros [= <-]; now apply bump_specs_err in E.
Qed.

Lemma reconcile_err loaded sc ts e :
  reconcile loaded sc ts = Err e -> foreign e = false.
Proof.
  unfold reconcile. destruct loaded as [r|]; [|discriminate].
  destruct (py_int (Dict.get_default "schema_version" (JInt 1) r))
    as [v|e0] eqn:E0; cbn [rbind];
    [|intros [= <-]; now apply py_int_err in E0].
  clear E0. destruct (v =? 1).
  - destruct (py_int (Dict.get_default "last_id" (JInt 0) r))
      as [L|e0] eqn:E1; cbn [rbind]; [discriminate|].
    intros [= <-]. now apply py_int_err in E1.
  - destruct (py_dict _) as [cs|e0] eqn:E1; cbn [rbind].
    2: { intros [= <-]. unfold py_dict in E1.
         destruct (py_or _ _); try discriminate; now injection E1 as <-. }
    clear E1.
    destruct (py_int (Dict.get_default "chg" (JInt 0) cs))
      as [chg|e0] eqn:E2; cbn [rbind];
      [|intros [= <-]; now apply py_int_err in E2].
    clear E2.
    destruct (py_int (Dict.get_default "spec" (JInt 0) _))
      as [spec|e0] eqn:E3; cbn [rbind];
      [|intros [= <-]; now apply py_int_err in E3].
    clear E3.
    destruct (py_int _) as [v'|e0] eqn:E4; cbn [rbind]; [discriminate|].
    intros [= <-]. now apply py_int_err in E4.
Qed.

Lemma plan_err c rp entry scanned ts e :
  plan c rp entry scanned ts = Err e ->
  (forall e0, scanned = Err e0 -> foreign e0 = false) ->
  foreign e = false.
Proof.
  unfold plan. intros H Hsc.
  destruct (kind_in_choices (kind c)); [|now injection H as <-].
  unfold subscript in H.
  destruct (Dict.get (kind c) KIND_PREFIX) as [prefix|]; cbn [rbind] in H;
    [|now injection H as <-].
  destruct (registry_of_node entry) as [loaded|e0] eqn:E1; cbn [rbind] in H;
    [|injection H as <-; now apply registry_of_node_err in E1].
  destruct scanned as [sc|e0]; cbn [rbind] in H;
    [|injection H as <-; now apply Hsc].
  destruct (reconcile loaded sc ts) as [reconciled|e0] eqn:E2;
    cbn [rbind] in H; [|injection H as <-; now apply reconcile_err in E2].
  destruct (Dict.get "counters" reconciled) as [j|]; cbn [rbind] in H;
    [|now injection H as <-].
  destruct j; cbn [py_dict rbind] in H; try (now injection H as <-).
  destruct (py_int _) as [current|e0] eqn:E3; cbn [rbind] in H;
    [discriminate|]. injection H as <-. now apply py_int_err in E3.
Qed.

Lemma foreign_InvalidArgument e :
  foreign e = false -> is_InvalidArgument e = false.
Proof. unfold foreign. now intros [H _]%orb_false_iff. Qed.

Lemma foreign_NeverReturns e : foreign e = false -> e <> NeverReturns.
Proof. intros H ->. discriminate. Qed.

Lemma locked_outcome_err c rp nm es scanned ts fault e :
  fst (locked_outcome c rp nm es scanned ts fault) = Err e ->
  (forall e0, scanned = Err e0 -> foreign e0 = false) ->
  foreign e = false.
Proof.
  unfold locked_outcome. intros H Hsc.
  destruct (plan c rp (Dict.get nm es) scanned ts) as [[a reg]|e0] eqn:Ep.
  2: { cbn in H. injection H as <-.
       exact (@plan_err c rp _ scanned ts e0 Ep Hsc). }
  destruct (dry_run c); [discriminate|].
  unfold write_outcome in H.
  destruct (Dict.get (nm ++ ".tmp") es) as [[x|es']|];
    try destruct fault; cbn in H; try discriminate;
    now injection H as <-.
Qed.

(** [try]/[finally] around a body that returns or raises. *)
Lemma try_finally_returns A (body : M A) (cleanup : M unit) w r w1 :
  body w = (r, w1) -> r <> Err NeverReturns ->
  try_finally body cleanup w
  = match cleanup w1 with
    | (Ok _, w2) => (r, w2)
    | (Err e, w2) => (Err e, w2)
    end.
Proof.
  intros H Hr. unfold try_finally. rewrite H.
  destruct r as [a|[]]; try reflexivity. congruence.
Qed.

(** ** The wait for the lock *)

Lemma acquire_loop_eq fuel slept lp t w :
  acquire_loop fuel slept lp t w
  = match Sys.open_excl lp w with
    | (Ok fd, w') => (Ok {| fd := fd; lock_path := lp |}, w')
    | (Err (OSError FileExistsError), w') =>
        if time_is_up t slept then (Err TimeoutError, w')
        else
          match fuel with
          | S fuel' => acquire_loop fuel' (slept + 1) lp t w'
          | O => (Err NeverReturns, w')
          end
    | (Err e, w') => (Err e, w')
    end.
Proof. destruct fuel; reflexivity. Qed.

(** A lock file that is there is found there at every attempt. *)
Lemma acquire_loop_blocked lp t x fuel : forall slept w,
  FS.get (fs w) lp = Some x ->
  acquire_loop fuel slept lp t w
  = (Err (blocked_error fuel slept t),
     logs (repeat (EvOpenExcl lp) (blocked_attempts fuel slept t)) w).
Proof.
  induction fuel as [|fuel IH]; intros slept w Hx;
    rewrite acquire_loop_eq; unfold Sys.open_excl; rewrite Hx;
    cbn [blocked_error blocked_attempts];
    destruct (time_is_up t slept); try reflexivity.
  rewrite IH by exact Hx. f_equal.
  unfold logs, log. cbn [fs fds now write_fault trace stdout repeat].
  now rewrite <- app_assoc.
Qed.

Lemma blocked_attempts_pos fuel slept t :
  (1 <= blocked_attempts fuel slept t)%nat.
Proof.
  destruct fuel; cbn [blocked_attempts]; destruct (time_is_up t slept); lia.
Qed.


Lemma blocked_error_cases fuel t : forall slept,
  blocked_error fuel slept t = TimeoutError
  \/ blocked_error fuel slept t = NeverReturns.
Proof.
  induction fuel as [|fuel IH]; intros slept; cbn [blocked_error];
    destruct (time_is_up t slept); auto.
Qed.

(** A time-out that is not a number, or positive infinity, is never up:
    whatever the fuel, the loop uses it up. *)
Lemma blocked_error_never fuel t : forall slept,
  runs_out t = false -> blocked_error fuel slept t = NeverReturns.
Proof.
  intros slept Ht.
  assert (Hup : forall s, time_is_up t s = false)
    by (intros s; destruct t as [|[]|m e]; try discriminate; reflexivity).
  revert slept. induction fuel as [|fuel IH]; intros slept;
    cbn [blocked_error]; rewrite Hup; auto.
Qed.

Lemma time_is_up_late m e slept :
  0 <= slept ->
  (if 0 <=? e then 10 * (m * 2 ^ e) else 10 * m) <= slept ->
  time_is_up (Py.Finite m e) slept = true.
Proof.
  intros Hs Hb. unfold time_is_up.
  destruct (Z.leb_spec 0 e) as [He|He]; apply Z.leb_le; [exact Hb|].
  assert (Hp : 1 <= 2 ^ (- e)).
  { change 1 with (2 ^ 0). apply Z.pow_le_mono_r; lia. }
  nia.
Qed.

(** A time-out that is up sooner or later ends the wait with
    [TimeoutError], given fuel for the sleeps that it takes. *)
Lemma blocked_error_bounded t fuel : forall slept,
  runs_out t = true -> 0 <= slept ->
  Z.of_nat (patience t) <= slept + Z.of_nat fuel ->
  blocked_error fuel slept t = TimeoutError.
Proof.
  intros slept Ht. revert slept.
  induction fuel as [|fuel IH]; intros slept Hs Hb; cbn [blocked_error];
    destruct (time_is_up t slept) eqn:Hup; try reflexivity.
  - destruct t as [|[]|m e]; try discriminate.
    rewrite time_is_up_late in Hup; [discriminate|exact Hs|].
    unfold patience in Hb. lia.
  - apply IH; lia.
Qed.

Lemma blocked_error_runs_out t :
  runs_out t = true -> blocked_error (patience t) 0 t = TimeoutError.
Proof. intros Ht. apply blocked_error_bounded; [exact Ht|lia|lia]. Qed.

(** Fuel beyond what the time-out needs changes nothing. *)
Lemma blocked_attempts_fuel t fuel : forall fuel' slept,
  runs_out t = true -> 0 <= slept ->
  Z.of_nat (patience t) <= slept + Z.of_nat fuel ->
  Z.of_nat (patience t) <= slept + Z.of_nat fuel' ->
  blocked_attempts fuel slept t = blocked_attempts fuel' slept t.
Proof.
  induction fuel as [|fuel IH]; intros fuel' slept Ht Hs Hb Hb';
    destruct fuel' as [|fuel']; cbn [blocked_attempts];
    destruct (time_is_up t slept) eqn:Hup; try reflexivity.
  1,2: destruct t as [|[]|m e]; try discriminate;
       rewrite time_is_up_late in Hup;
       [discriminate|exact Hs|unfold patience in *; lia].
  f_equal. apply IH; try assumption; lia.
Qed.

Lemma acquire_loop_enough_fuel lp t x fuel w :
  FS.get (fs w) lp = Some x ->
  runs_out t = true -> (patience t <= fuel)%nat ->
  acquire_loop fuel 0 lp t w = acquire_loop (patience t) 0 lp t w
  /\ fst (acquire_loop fuel 0 lp t w) = Err TimeoutError.
Proof.
  intros Hx Ht Hf.
  rewrite !(@acquire_loop_blocked lp t x _ 0 w Hx).
  rewrite (@blocked_attempts_fuel t fuel (patience t) 0 Ht) by lia.
  rewrite (blocked_error_runs_out _ Ht).
  rewrite (@blocked_error_bounded t fuel 0 Ht) by lia.
  now split.
Qed.

(** With a time-out that is never up no fuel is enough: the wait for a
    lock file that stays has no end. *)
Lemma acquire_loop_never_returns lp t x fuel slept w :
  FS.get (fs w) lp = Some x ->
  runs_out t = false ->
  fst (acquire_loop fuel slept lp t w) = Err NeverReturns.
Proof.
  intros Hx Ht. rewrite (@acquire_loop_blocked lp t x fuel slept w Hx).
  cbn [fst]. f_equal. now apply blocked_error_never.
Qed.

Lemma acquire_lock_eq d x t w :
  acquire_lock (d ++ [x])%list t w
  = match FS.mkdir_p (fs w) d with
    | Err e => (Err e, log (EvMkdir d) w)
    | Ok n1 =>
        let w0 := log (EvMkdir d) (with_fs w n1) in
        let w1 := log (EvOpenExcl (d ++ [x])%list) w0 in
        match FS.get n1 (d ++ [x])%list with
        | Some _ =>
            (Err (blocked_error (patience t) 0 t),
             logs (repeat (EvOpenExcl (d ++ [x])%list)
                          (blocked_attempts (patience t) 0 t)) w0)
        | None =>
            (Ok {| fd := Sys.fresh_fd (fds w); lock_path := (d ++ [x])%list |},
             with_fds (with_fs w1 (FS.put n1 (d ++ [x])%list (File (Text ""))))
                      (Sys.fresh_fd (fds w) :: fds w))
        end
    end.
Proof.
  unfold acquire_lock. unfold bind at 1. unfold Sys.mkdir_parents.
  rewrite parent_snoc.
  destruct (FS.mkdir_p (fs w) d) as [n1|e] eqn:Hmk; [|reflexivity].
  cbv zeta.
  destruct (FS.get n1 (d ++ [x])%list) as [y|] eqn:Hl.
  - now apply acquire_loop_blocked with (x := y).
  - rewrite acquire_loop_eq. unfold Sys.open_excl. simpl fs. simpl fds.
    rewrite Hl.
    destruct (mkdir_p_dir _ _ Hmk) as (es & Hd & _).
    now rewrite (is_dir_parent _ _ x Hd).
Qed.

Lemma list_max_ge (l : list nat) (x : nat) : In x l -> (x <= list_max l)%nat.
Proof.
  induction l as [|y l IH]; simpl; [tauto|].
  intros [->|H]; [lia|]. specialize (IH H). lia.
Qed.

Lemma filter_fresh_fd (l : list nat) :
  filter (fun x => negb (Nat.eqb (Sys.fresh_fd l) x)) l = l.
Proof.
  assert (H : forall x, In x l -> negb (Nat.eqb (Sys.fresh_fd l) x) = true).
  { intros x Hx. apply list_max_ge in Hx. unfold Sys.fresh_fd.
    destruct (Nat.eqb_spec (S (list_max l)) x); [lia | reflexivity]. }
  revert H. generalize (Sys.fresh_fd l). intros fd.
  induction l as [|y l IH]; simpl; intros H; [reflexivity|].
  rewrite (H y (or_introl eq_refl)). f_equal. apply IH. intros x Hx. apply H. now right.
Qed.

Lemma close_fresh w l :
  fds w = Sys.fresh_fd l :: l ->
  Sys.close (Sys.fresh_fd l) w
  = (Ok tt, with_fds (log (EvClose (Sys.fresh_fd l)) w) l).
Proof.
  intros H. unfold Sys.close. rewrite H.
  cbn [existsb filter]. rewrite Nat.eqb_refl. cbn [orb negb].
  now rewrite filter_fresh_fd.
Qed.

Lemma release_lock_at w d x es l c :
  FS.get (fs w) d = Some (Dir es) ->
  Dict.get x es = Some (File c) ->
  fds w = Sys.fresh_fd l :: l ->
  release_lock {| fd := Sys.fresh_fd l; lock_path := (d ++ [x])%list |} w
  = (Ok tt,
     with_fs (log (EvUnlink (d ++ [x])%list)
                  (with_fds (log (EvClose (Sys.fresh_fd l)) w) l))
             (FS.del (fs w) (d ++ [x])%list)).
Proof.
  intros Hd Hx Hfds. unfold release_lock. cbn [fd lock_path].
  rewrite (close_fresh _ Hfds).
  match goal with
  | |- context [Sys.unlink _ ?w0] => set (w1 := w0)
  end.
  assert (Hd1 : FS.get (fs w1) d = Some (Dir es)) by exact Hd.
  now rewrite (unlink_file_at _ _ Hd1 _ Hx).
Qed.

Lemma lock_entry_kept c rp nm es scanned ts fault :
  Dict.get (nm ++ ".lock") (snd (locked_outcome c rp nm es scanned ts fault))
  = Dict.get (nm ++ ".lock") es.
Proof.
  assert (Hl1 : nm ++ ".lock" <> nm ++ ".tmp").
  { intros H. symmetry in H. now apply tmp_neq_lock in H. }
  assert (Hl2 : nm ++ ".lock" <> nm) by apply lock_neq_name.
  unfold locked_outcome, write_outcome.
  destruct (plan c rp (Dict.get nm es) scanned ts) as [[a reg]|e]; [|reflexivity].
  destruct (dry_run c); [reflexivity|].
  destruct (Dict.get (nm ++ ".tmp") es) as [[x|es']|]; try reflexivity;
    destruct fault; simpl;
    now rewrite ?dict_get_set_other, ?dict_get_remove_other, ?dict_get_set_other
      by assumption.
Qed.

Lemma allocate_next_id_run c w d nm n1 es :
  (root c ++ registry_relpath c)%list = (d ++ [nm])%list ->
  FS.mkdir_p (fs w) d = Ok n1 ->
  FS.get n1 d = Some (Dir es) ->
  Dict.get (nm ++ ".lock") es = None ->
  let lp := (d ++ [(nm ++ ".lock")%string])%list in
  let fd := Sys.fresh_fd (fds w) in
  let locked := FS.put n1 lp (File (Text "")) in
  let scanned :=
    if scan c
    then scan_tree locked (root c ++ FS.parent (registry_relpath c))%list
    else Ok no_scan in
  let out := locked_outcome c (d ++ [nm])%list nm
               (Dict.set (nm ++ ".lock") (File (Text "")) es)
               scanned (now w) (write_fault w) in
  exists w' evs,
    allocate_next_id c w = (fst out, w')
    /\ FS.get (fs w') d = Some (Dir (Dict.remove (nm ++ ".lock") (snd out)))
    /\ same_env w w'
    /\ (dry_run c = true -> fs w' = n1)
    /\ trace w' = (trace w ++ [EvMkdir d; EvOpenExcl lp] ++ evs
                           ++ [EvClose fd; EvUnlink lp])%list
    /\ (dry_run c = true -> forallb (fun e => negb (is_write e)) evs = true).
Proof.
  intros Hrp Hmk Hd Hlock lp fd locked scanned out.
  unfold allocate_next_id. rewrite Hrp, name_snoc, with_name_snoc.
  unfold bind at 1, lift.
  unfold bind at 1. rewrite acquire_lock_eq, Hmk. cbv zeta.
  rewrite (get_child _ _ _ Hd), Hlock.
  fold lp fd locked.
  match goal with
  | |- context [try_finally _ _ ?w0] => set (w1 := w0)
  end.
  assert (Hd1 : FS.get (fs w1) d
                = Some (Dir (Dict.set (nm ++ ".lock") (File (Text "")) es)))
    by (apply get_put; exact Hd).
  destruct (allocate_locked_run c _ nm _ Hd1)
    as (w2 & Hrun & Hd2 & Henv2 & Hdry2 & evs & Htr2 & Hnw2).
  change (fs w1) with locked in Hrun, Hd2, Hdry2.
  change (now w1) with (now w) in Hrun, Hd2.
  change (write_fault w1) with (write_fault w) in Hrun, Hd2.
  fold scanned in Hrun, Hd2. fold out in Hrun, Hd2.
  assert (Hret : fst out <> Err NeverReturns).
  { intros E. apply locked_outcome_err in E; [discriminate|].
    unfold scanned. destruct (scan c); [|discriminate].
    intros e0 H. now apply scan_tree_err in H. }
  rewrite (@try_finally_returns _ _ _ _ _ _ Hrun Hret).
  assert (Hfds2 : fds w2 = fd :: fds w) by apply Henv2.
  assert (Hl : Dict.get (nm ++ ".lock") (snd out) = Some (File (Text ""))).
  { unfold out. rewrite lock_entry_kept. apply dict_get_set_same. }
  unfold lp at 1, fd at 1. rewrite (release_lock_at _ _ _ Hd2 Hl Hfds2).
  fold lp fd.
  eexists. exists evs. split; [reflexivity|]. simpl.
  split; [apply get_del; exact Hd2|].
  split; [destruct Henv2 as (_ & ? & ? & ?); repeat split; assumption|].
  split.
  - intros Hdry. rewrite (Hdry2 Hdry). unfold locked, lp.
    now apply del_put_absent with (es := es).
  - split; [|assumption].
    rewrite Htr2. simpl. rewrite <- !app_assoc. reflexivity.
Qed.

Lemma alter_dir_not_dir f n d :
  (forall es, FS.get n d <> Some (Dir es)) -> FS.alter_dir f n d = n.
Proof.
  revert n. induction d as [|x d IH]; intros [c|es] H; simpl; try reflexivity.
  - now elim (H es).
  - destruct (Dict.get x es) as [c|] eqn:E; [|reflexivity].
    rewrite IH; [now rewrite dict_set_same|].
    intros es' Hc. apply (H es'). simpl. now rewrite E.
Qed.

Lemma get_put_sibling n d x v y q :
  x <> y ->
  FS.get (FS.put n (d ++ [x])%list v) (d ++ y :: q)%list
  = FS.get n (d ++ y :: q)%list.
Proof.
  intros Hxy. destruct (FS.get n d) as [[c|es]|] eqn:E.
  - unfold FS.put. rewrite parent_snoc, alter_dir_not_dir; [reflexivity|].
    intros es. rewrite E. discriminate.
  - rewrite !get_app, (get_put _ _ x v E), E. simpl.
    rewrite dict_get_set_other; [reflexivity | congruence].
  - unfold FS.put. rewrite parent_snoc, alter_dir_not_dir; [reflexivity|].
    intros es. rewrite E. discriminate.
Qed.

Lemma mkdir_p_below n d n1 y q :
  FS.mkdir_p n d = Ok n1 ->
  FS.get n1 (d ++ y :: q)%list = FS.get n (d ++ y :: q)%list.
Proof.
  intros H. destruct (mkdir_p_dir _ _ H) as (es & Hn1 & [Hn|[Hn ->]]);
    rewrite !get_app, Hn1, Hn; reflexivity.
Qed.

Lemma scan_tree_ext n n' sd :
  (forall y q, FS.get n' (sd ++ y :: q)%list = FS.get n (sd ++ y :: q)%list) ->
  scan_tree n' sd = scan_tree n sd.
Proof.
  intros H. unfold scan_tree.
  now rewrite (H "tasks" []), (H ".sa" ["history"]), (H "specs" []).
Qed.

(** The directory the scan starts from is the registry directory, or (for
    a registry path that is the root itself) the registry path. *)
Lemma scan_dir_cases (root rel d : path) (nm : string) :
  (root ++ rel)%list = (d ++ [nm])%list ->
  (root ++ FS.parent rel)%list = d
  \/ (root ++ FS.parent rel)%list = (d ++ [nm])%list.
Proof.
  intros H. destruct (list_eq_dec string_dec rel []) as [->|Hne].
  - right. simpl. now rewrite app_nil_r in *.
  - left. rewrite (path_snoc Hne) in H. rewrite app_assoc in H.
    apply app_inj_tail in H. apply H.
Qed.

Lemma lock_not_scanned (nm y : string) :
  In y ["tasks"; ".sa"; "specs"] -> nm ++ ".lock" <> y.
Proof.
  intros Hy H. destruct nm as [|a nm].
  - simpl in Hy, H. destruct Hy as [<-|[<-|[<-|[]]]]; discriminate.
  - apply (f_equal String.length) in H. simpl in H.
    rewrite append_length in H.
    simpl in Hy. destruct Hy as [<-|[<-|[<-|[]]]]; simpl in H; lia.
Qed.

Lemma scan_tree_frame (root rel d : path) (nm : string) n n' :
  (root ++ rel)%list = (d ++ [nm])%list ->
  (forall y q, y <> nm ++ ".lock" ->
               FS.get n' (d ++ y :: q)%list = FS.get n (d ++ y :: q)%list) ->
  scan_tree n' (root ++ FS.parent rel)%list
  = scan_tree n (root ++ FS.parent rel)%list.
Proof.
  intros Hrp H. destruct (scan_dir_cases _ _ _ _ Hrp) as [->| ->].
  - unfold scan_tree.
    rewrite (H "tasks" []), (H ".sa" ["history"]), (H "specs" []);
      try reflexivity;
      intros E; symmetry in E; revert E; apply lock_not_scanned; simpl; auto.
  - apply scan_tree_ext. intros y q. rewrite <- !app_assoc. simpl.
    apply H. intros E. symmetry in E. now apply lock_neq_name in E.
Qed.

Lemma allocate_next_id_spec c w d nm n1 :
  (root c ++ registry_relpath c)%list = (d ++ [nm])%list ->
  FS.mkdir_p (fs w) d = Ok n1 ->
  FS.get (fs w) (d ++ [(nm ++ ".lock")%string])%list = None ->
  let rp := (d ++ [nm])%list in
  let lp := (d ++ [(nm ++ ".lock")%string])%list in
  let tp := (d ++ [(nm ++ ".tmp")%string])%list in
  let scanned :=
    if scan c
    then scan_tree (fs w) (root c ++ FS.parent (registry_relpath c))%list
    else Ok no_scan in
  let out := call_outcome c rp (FS.get (fs w) rp) (FS.get (fs w) tp)
                          scanned (now w) (write_fault w) in
  exists w' evs,
    allocate_next_id c w = (returned out, w')
    /\ FS.get (fs w') rp = registry_after out
    /\ FS.get (fs w') tp = tmp_after out
    /\ FS.get (fs w') lp = None
    /\ same_env w w'
    /\ (dry_run c = true -> fs w' = n1)
    /\ trace w' = (trace w ++ [EvMkdir d; EvOpenExcl lp] ++ evs
                           ++ [EvClose (Sys.fresh_fd (fds w)); EvUnlink lp])%list
    /\ (dry_run c = true -> forallb (fun e => negb (is_write e)) evs = true)
    /\ FS.mkdir_p (fs w') d = Ok (fs w').
Proof.
  intros Hrp Hmk Hlock rp lp tp scanned out.
  destruct (mkdir_p_dir _ _ Hmk) as (es & Hd & _).
  assert (Hes : forall x, Dict.get x es = FS.get (fs w) (d ++ [x])%list).
  { intros x. rewrite <- (get_child _ _ x Hd). now apply mkdir_p_below. }
  assert (Hl : Dict.get (nm ++ ".lock") es = None) by (now rewrite Hes).
  destruct (@allocate_next_id_run c w d nm n1 es Hrp Hmk Hd Hl)
    as (w' & evs & Hrun & Hd' & Henv & Hdry & Htr & Hnw).
  assert (Hsc : (if scan c
                 then scan_tree (FS.put n1 (d ++ [(nm ++ ".lock")%string])%list
                                        (File (Text "")))
                                (root c ++ FS.parent (registry_relpath c))%list
                 else Ok no_scan) = scanned).
  { unfold scanned. destruct (scan c); [|reflexivity].
    apply (@scan_tree_frame (root c) (registry_relpath c) d nm _ _ Hrp). intros y q Hy.
    rewrite get_put_sibling by congruence. now apply mkdir_p_below. }
  rewrite Hsc in Hrun, Hd'. clear Hsc.
  assert (Hn1 : nm <> nm ++ ".lock").
  { intros E. symmetry in E. now apply lock_neq_name in E. }
  assert (Hn2 : nm ++ ".tmp" <> nm ++ ".lock") by apply tmp_neq_lock.
  assert (Hn3 : nm <> nm ++ ".tmp").
  { intros E. symmetry in E. now apply tmp_neq_name in E. }
  set (lo := locked_outcome c (d ++ [nm])%list nm
               (Dict.set (nm ++ ".lock") (File (Text "")) es) scanned
               (now w) (write_fault w)) in *.
  assert (Hout : fst lo = returned out
                 /\ Dict.get nm (snd lo) = registry_after out
                 /\ Dict.get (nm ++ ".tmp") (snd lo) = tmp_after out).
  { unfold lo, out, call_outcome, locked_outcome, write_outcome, rp, tp.
    rewrite !dict_get_set_other by assumption. rewrite <- !Hes.
    destruct (plan c (d ++ [nm])%list (Dict.get nm es) scanned (now w))
      as [[a reg]|e]; simpl.
    2: { now rewrite !dict_get_set_other by assumption. }
    destruct (dry_run c); simpl.
    { now rewrite !dict_get_set_other by assumption. }
    destruct (Dict.get (nm ++ ".tmp") es) as [[x|es']|] eqn:Et; simpl;
      try destruct (write_fault w); simpl;
      rewrite ?dict_get_set_same, ?dict_get_set_other, ?dict_get_remove_other,
        ?dict_get_remove_same, ?dict_get_set_other, ?dict_get_set_same
        by congruence; auto. }
  destruct Hout as (Ho1 & Ho2 & Ho3).
  assert (Hget : forall x, FS.get (fs w') (d ++ [x])%list
                           = Dict.get x (Dict.remove (nm ++ ".lock") (snd lo)))
    by (intros x; apply (get_child _ _ x Hd')).
  exists w', evs.
  unfold lp, tp, rp. rewrite Hrun, !Hget, dict_get_remove_same.
  rewrite !dict_get_remove_other by assumption.
  rewrite Ho1, Ho2, Ho3.
  repeat split; try apply Henv; try assumption.
  now apply mkdir_p_existing with (es := Dict.remove (nm ++ ".lock") (snd lo)).
Qed.

(** The ways a call ends before it holds the lock. *)
Lemma allocate_next_id_no_name c w :
  (root c ++ registry_relpath c)%list = [] ->
  allocate_next_id c w = (Err (ValueError MsgEmptyName), w).
Proof.
  intros H. unfold allocate_next_id. rewrite H. reflexivity.
Qed.

Lemma allocate_next_id_mkdir_fails c w d nm e :
  (root c ++ registry_relpath c)%list = (d ++ [nm])%list ->
  FS.mkdir_p (fs w) d = Err e ->
  allocate_next_id c w = (Err e, log (EvMkdir d) w).
Proof.
  intros Hrp Hmk. unfold allocate_next_id.
  rewrite Hrp, name_snoc, with_name_snoc.
  unfold bind at 1, lift. unfold bind at 1.
  now rewrite acquire_lock_eq, Hmk.
Qed.

Lemma allocate_next_id_blocked c w d nm n1 x :
  (root c ++ registry_relpath c)%list = (d ++ [nm])%list ->
  FS.mkdir_p (fs w) d = Ok n1 ->
  FS.get (fs w) (d ++ [(nm ++ ".lock")%string])%list = Some x ->
  allocate_next_id c w
  = (Err (blocked_error (patience (timeout_sec c)) 0 (timeout_sec c)),
     logs (EvMkdir d
           :: repeat (EvOpenExcl (d ++ [(nm ++ ".lock")%string])%list)
                     (blocked_attempts (patience (timeout_sec c)) 0
                                       (timeout_sec c)))
          (with_fs w n1)).
Proof.
  intros Hrp Hmk Hlock. unfold allocate_next_id.
  rewrite Hrp, name_snoc, with_name_snoc.
  unfold bind at 1, lift. unfold bind at 1.
  rewrite acquire_lock_eq, Hmk. cbv zeta.
  assert (Hx : FS.get n1 (d ++ [(nm ++ ".lock")%string])%list = Some x).
  { rewrite <- Hlock. now apply mkdir_p_below. }
  rewrite Hx. f_equal.
  unfold logs, log. cbn [fs fds now write_fault trace stdout with_fs].
  now rewrite <- app_assoc.
Qed.

Lemma allocate_next_id_ok_inv c w a w' :
  allocate_next_id c w = (Ok a, w') ->
  exists d nm n1,
    (root c ++ registry_relpath c)%list = (d ++ [nm])%list
    /\ FS.mkdir_p (fs w) d = Ok n1
    /\ FS.get (fs w) (d ++ [(nm ++ ".lock")%string])%list = None.
Proof.
  intros H.
  destruct (list_eq_dec string_dec (root c ++ registry_relpath c)%list [])
    as [E|E].
  - rewrite (@allocate_next_id_no_name c w E) in H. discriminate.
  - apply path_snoc in E.
    set (d := FS.parent (root c ++ registry_relpath c)%list) in *.
    set (nm := FS.name (root c ++ registry_relpath c)%list) in *.
    exists d, nm.
    destruct (FS.mkdir_p (fs w) d) as [n1|e] eqn:Hmk.
    2: { rewrite (@allocate_next_id_mkdir_fails c w d nm e E Hmk) in H. discriminate. }
    exists n1. split; [assumption|]. split; [reflexivity|].
    destruct (FS.get (fs w) (d ++ [(nm ++ ".lock")%string])%list) eqn:Hl;
      [|reflexivity].
    rewrite (@allocate_next_id_blocked c w d nm n1 _ E Hmk Hl) in H. discriminate.
Qed.

Lemma kind_cases (k : string) :
  kind_in_choices k = true -> k = "chg" \/ k = "spec".
Proof.
  unfold kind_in_choices. simpl. rewrite !orb_true_iff.
  intros [H|[H|H]]; [left | right | discriminate]; now apply String.eqb_eq.
Qed.

Lemma check_fresh_registry chg spec ts :
  check_registry (JObj (fresh_registry chg spec ts))
  = Ok (fresh_registry chg spec ts).
Proof. reflexivity. Qed.

Lemma plan_absent c rp sc ts :
  kind_in_choices (kind c) = true ->
  plan c rp None (Ok sc) ts
  = Ok (allocation_of c rp (counter_of (kind c) (s_chg sc) (s_spec sc) + 1),
        bumped (kind c) (s_chg sc) (s_spec sc) ts).
Proof.
  intros Hk. unfold plan, allocation_of, counter_of, bumped. rewrite Hk.
  destruct (kind_cases _ Hk) as [E|E]; rewrite E; reflexivity.
Qed.

Lemma plan_fresh c rp chg spec ts0 sc ts :
  kind_in_choices (kind c) = true ->
  plan c rp (Some (File (Doc (JObj (fresh_registry chg spec ts0))))) (Ok sc) ts
  = Ok (allocation_of c rp
          (counter_of (kind c) (Z.max chg (s_chg sc)) (Z.max spec (s_spec sc)) + 1),
        bumped (kind c) (Z.max chg (s_chg sc)) (Z.max spec (s_spec sc)) ts).
Proof.
  intros Hk. unfold plan, allocation_of, counter_of, bumped. rewrite Hk.
  destruct (kind_cases _ Hk) as [E|E]; rewrite E; reflexivity.
Qed.

Lemma counter_in_bumped kind chg spec ts :
  kind_in_choices kind = true ->
  counter_in (bumped kind chg spec ts) kind
  = Some (JInt (counter_of kind chg spec + 1)).
Proof.
  intros Hk. destruct (kind_cases _ Hk) as [-> | ->]; reflexivity.
Qed.

Lemma plan_ok_kind c rp entry sc ts x :
  plan c rp entry sc ts = Ok x -> kind_in_choices (kind c) = true.
Proof.
  unfold plan. destruct (kind_in_choices (kind c)); [reflexivity|discriminate].
Qed.

Lemma step_without_scan c w chg spec a w' :
  dry_run c = false -> scan c = false ->
  0 <= chg -> 0 <= spec ->
  holds_counters w (root c ++ registry_relpath c)%list chg spec ->
  allocate_next_id c w = (Ok a, w') ->
  kind_in_choices (kind c) = true
  /\ a = allocation_of c (root c ++ registry_relpath c)%list
                       (counter_of (kind c) chg spec + 1)
  /\ FS.get (fs w') (root c ++ registry_relpath c)%list
     = Some (File (Doc (JObj (bumped (kind c) chg spec (now w)))))
  /\ now w' = now w.
Proof.
  intros Hdry Hscan Hchg Hspec Hinv Hrun.
  destruct (allocate_next_id_ok_inv _ _ Hrun) as (d & nm & n1 & Hrp & Hmk & Hl).
  destruct (@allocate_next_id_spec c w d nm n1 Hrp Hmk Hl)
    as (w1 & evs & Hrun1 & Hreg & _ & _ & Henv & _).
  rewrite Hrun in Hrun1. injection Hrun1 as Hret <-.
  rewrite Hrp in *. rewrite Hscan in *.
  unfold call_outcome in Hret, Hreg.
  assert (Hplan : forall entry, FS.get (fs w) (d ++ [nm])%list = entry ->
            kind_in_choices (kind c) = true ->
            plan c (d ++ [nm])%list entry (Ok no_scan) (now w)
            = Ok (allocation_of c (d ++ [nm])%list (counter_of (kind c) chg spec + 1),
                  bumped (kind c) chg spec (now w))).
  { intros entry He Hk. destruct Hinv as [(Habs & -> & ->)|(ts0 & Hdoc)].
    - rewrite Habs in He. subst entry. now rewrite plan_absent.
    - rewrite Hdoc in He. subst entry. rewrite plan_fresh by assumption.
      simpl. now rewrite !Z.max_l by assumption. }
  destruct (plan c (d ++ [nm])%list (FS.get (fs w) (d ++ [nm])%list)
                 (Ok no_scan) (now w)) as [[a0 reg]|e] eqn:Ep;
    [|simpl in Hret; discriminate].
  pose proof (plan_ok_kind _ _ _ _ _ Ep) as Hk.
  rewrite (Hplan _ eq_refl Hk) in Ep. injection Ep as <- <-.
  rewrite Hdry in Hret, Hreg.
  destruct (FS.get (fs w) (d ++ [(nm ++ ".tmp")%string])%list) as [[x|es']|];
    try (simpl in Hret; discriminate);
    destruct (write_fault w); simpl in Hret, Hreg; try discriminate;
    injection Hret as <-; repeat split; try assumption; apply Henv.
Qed.

Lemma bumped_fresh kind chg spec ts :
  kind_in_choices kind = true ->
  exists chg' spec',
    bumped kind chg spec ts = fresh_registry chg' spec' ts
    /\ counter_of kind chg' spec' = counter_of kind chg spec + 1
    /\ (0 <= chg -> 0 <= chg') /\ (0 <= spec -> 0 <= spec').
Proof.
  intros Hk. destruct (kind_cases _ Hk) as [-> | ->].
  - exists (chg + 1), spec. cbn. repeat split; lia.
  - exists chg, (spec + 1). cbn. repeat split; lia.
Qed.

Lemma run_calls_from c N : forall w chg spec,
  dry_run c = false -> scan c = false ->
  0 <= chg -> 0 <= spec ->
  holds_counters w (root c ++ registry_relpath c)%list chg spec ->
  Forall succeeded (run_calls c N w) ->
  map returned_id (run_calls c N w)
  = map (fun k => Some (counter_of (kind c) chg spec + Z.of_nat k)) (seq 1 N)
  /\ map (fun rw => persisted_counter (snd rw)
                      (root c ++ registry_relpath c)%list (kind c))
         (run_calls c N w)
     = map (fun k => Some (JInt (counter_of (kind c) chg spec + Z.of_nat k)))
           (seq 1 N).
Proof.
  induction N as [|N IH]; intros w chg spec Hdry Hscan Hchg Hspec Hinv Hok.
  - split; reflexivity.
  - cbn [run_calls] in *. inversion Hok as [|rw rest [a Ha] Hrest]; subst.
    destruct (allocate_next_id c w) as [r w'] eqn:Hrun. simpl in Ha. subst r.
    destruct (step_without_scan _ Hdry Hscan Hchg Hspec Hinv Hrun)
      as (Hk & -> & Hreg & Hnow).
    destruct (bumped_fresh (kind c) chg spec (now w) Hk)
      as (chg' & spec' & Hb & Hc & Hchg' & Hspec').
    assert (Hinv' : holds_counters w' (root c ++ registry_relpath c)%list
                                   chg' spec').
    { right. exists (now w). now rewrite Hreg, Hb. }
    simpl snd in *.
    destruct (IH w' chg' spec' Hdry Hscan (Hchg' Hchg) (Hspec' Hspec) Hinv' Hrest)
      as (IH1 & IH2).
    cbn [map seq]. rewrite IH1, IH2, <- (seq_shift N 1), !map_map.
    unfold returned_id at 1, persisted_counter at 1, persisted_registry.
    cbn [fst snd]. rewrite Hreg, (counter_in_bumped _ _ _ _ Hk).
    cbn [allocation_of id]. rewrite Hc.
    split.
    + f_equal. apply map_ext. intros k. apply f_equal. lia.
    + f_equal. apply map_ext. intros k. do 2 apply f_equal. lia.
Qed.

(** Claim C1.  N successful real (non-dry-run) calls of [allocate_next_id]
    for one kind, run one after another with scanning off from a world
    that holds no registry, return the ids 1, 2, ..., N in this order, and
    the counter of that kind in the registry on disk after the k-th call is
    k. *)
Theorem sequential_allocations_are_contiguous c w N :
  dry_run c = false -> scan c = false ->
  FS.get (fs w) (root c ++ registry_relpath c)%list = None ->
  Forall succeeded (run_calls c N w) ->
  map returned_id (run_calls c N w) = map (fun k => Some (Z.of_nat k)) (seq 1 N)
  /\ map (fun rw => persisted_counter (snd rw)
                      (root c ++ registry_relpath c)%list (kind c))
         (run_calls c N w)
     = map (fun k => Some (JInt (Z.of_nat k))) (seq 1 N).
Proof.
  intros Hdry Hscan Habs Hok.
  destruct (@run_calls_from c N w 0 0 Hdry Hscan (Z.le_refl 0) (Z.le_refl 0))
    as (H1 & H2); [now left | assumption |].
  assert (E : counter_of (kind c) 0 0 = 0)
    by (unfold counter_of; now destruct (String.eqb (kind c) "chg")).
  rewrite E in H1, H2. split; [exact H1 | exact H2].
Qed.

Lemma fresh_fd_not_in (l : list nat) : ~ In (Sys.fresh_fd l) l.
Proof.
  intros H. apply list_max_ge in H. unfold Sys.fresh_fd in H. lia.
Qed.

(** Claim C2.  Whenever [allocate_next_id] gets the lock, the world it
    hands back (with its result or with its exception, whichever the exit)
    has the lock file gone and the descriptor closed, [os.close] and
    [os.unlink] being the last two calls made; and the lock can be taken
    again at once in that world. *)
Theorem lock_released_on_every_exit c w lp h w1 :
  FS.with_name (root c ++ registry_relpath c)%list
               (FS.name (root c ++ registry_relpath c)%list ++ ".lock") = Ok lp ->
  acquire_lock lp (timeout_sec c) w = (Ok h, w1) ->
  exists r w' evs,
    allocate_next_id c w = (r, w')
    /\ FS.get (fs w') lp = None
    /\ ~ In (fd h) (fds w')
    /\ fds w' = fds w
    /\ trace w' = (trace w1 ++ evs ++ [EvClose (fd h); EvUnlink lp])%list
    /\ exists h' w2, acquire_lock lp (timeout_sec c) w' = (Ok h', w2).
Proof.
  intros Hlp Hacq.
  destruct (list_eq_dec string_dec (root c ++ registry_relpath c)%list [])
    as [E|E]; [rewrite E in Hlp; discriminate|].
  apply path_snoc in E.
  set (d := FS.parent (root c ++ registry_relpath c)%list) in *.
  set (nm := FS.name (root c ++ registry_relpath c)%list) in *.
  rewrite E, with_name_snoc in Hlp. injection Hlp as <-.
  rewrite acquire_lock_eq in Hacq.
  destruct (FS.mkdir_p (fs w) d) as [n1|e] eqn:Hmk; [|discriminate].
  cbv zeta in Hacq.
  destruct (FS.get n1 (d ++ [(nm ++ ".lock")%string])%list) eqn:Hl1;
    [discriminate|].
  injection Hacq as <- <-.
  assert (Hl : FS.get (fs w) (d ++ [(nm ++ ".lock")%string])%list = None).
  { rewrite <- Hl1. symmetry. now apply mkdir_p_below. }
  destruct (@allocate_next_id_spec c w d nm n1 E Hmk Hl)
    as (w' & evs & Hrun & _ & _ & Hlock & Henv & _ & Htr & _ & Hmk').
  eexists; exists w', evs. split; [exact Hrun|].
  assert (Hfds : fds w' = fds w) by apply Henv.
  split; [assumption|]. split.
  { cbn [fd]. rewrite Hfds. apply fresh_fd_not_in. }
  split; [assumption|]. split.
  { rewrite Htr. cbn [trace log with_fs with_fds fd]. now rewrite <- !app_assoc. }
  rewrite acquire_lock_eq, Hmk', Hlock. cbv zeta. eauto.
Qed.

Lemma reconcile_version_1 registry L scanned ts :
  version_1 registry L ->
  reconcile (Some registry) scanned ts
  = Ok (fresh_registry (Z.max (s_chg scanned) L) (s_spec scanned) ts).
Proof.
  intros [Hv Hl]. unfold reconcile, Dict.get_default. now rewrite Hv, Hl.
Qed.


(** The call goes through when nothing stands in its way: the lock is
    free, the temporary path is not a directory, the device stores what it
    is given. *)
Lemma allocate_next_id_succeeds c w d nm entry scanned a registry :
  (root c ++ registry_relpath c)%list = (d ++ [nm])%list ->
  (exists n1, FS.mkdir_p (fs w) d = Ok n1) ->
  FS.get (fs w) (d ++ [(nm ++ ".lock")%string])%list = None ->
  FS.get (fs w) (d ++ [nm])%list = entry ->
  (if scan c
   then scan_tree (fs w) (root c ++ FS.parent (registry_relpath c))%list
   else Ok no_scan) = scanned ->
  plan c (d ++ [nm])%list entry scanned (now w) = Ok (a, registry) ->
  dry_run c = false ->
  (forall es, FS.get (fs w) (d ++ [(nm ++ ".tmp")%string])%list <> Some (Dir es)) ->
  write_fault w = false ->
  exists w',
    allocate_next_id c w = (Ok a, w')
    /\ FS.get (fs w') (d ++ [nm])%list = Some (File (Doc (JObj registry)))
    /\ FS.get (fs w') (d ++ [(nm ++ ".lock")%string])%list = None
    /\ same_env w w'.
Proof.
  intros Hrp [n1 Hmk] Hl He Hs Hp Hdry Htmp Hf.
  destruct (@allocate_next_id_spec c w d nm n1 Hrp Hmk Hl)
    as (w' & evs & Hrun & Hreg & _ & Hlock & Henv & _).
  exists w'. rewrite Hrun, Hreg. unfold call_outcome.
  rewrite He, Hs, Hp, Hdry, Hf.
  destruct (FS.get (fs w) (d ++ [(nm ++ ".tmp")%string])%list) as [[x|es]|];
    try (now elim (Htmp es)); auto.
Qed.

Lemma parent_is_dir n d x v :
  FS.get n (d ++ [x])%list = Some v -> exists es, FS.get n d = Some (Dir es).
Proof.
  rewrite get_app. destruct (FS.get n d) as [[c|es]|]; try discriminate.
  eauto.
Qed.









Lemma read_registry_doc p w j :
  FS.get (fs w) p = Some (File (Doc j)) ->
  fst (read_registry p w)
  = match check_registry j with
    | Ok r => Ok (Some r)
    | Err e => Err e
    end.
Proof.
  intros H. unfold read_registry, bind, Sys.path_exists, Sys.load_json, lift, ret.
  rewrite H. cbn [fs log]. rewrite H.
  destruct (check_registry j); reflexivity.
Qed.

(** Claim C6, amended.  For a registry document of schema version 1,
    [read_registry] raises [ValueError] (RegistryCorrupt) when [last_id] is
    missing and when [int(last_id)] raises [TypeError] or [ValueError];
    any other exception of [int] passes through; and every [last_id] that
    [int] converts, negative ones included, is accepted and stored as that
    integer. *)
Theorem version_1_needs_an_integer_last_id p w doc :
  FS.get (fs w) p = Some (File (Doc (JObj doc))) ->
  py_int (py_or (Dict.get_default "schema_version" (JInt 1) doc) (JInt 1)) = Ok 1 ->
  match Dict.get "last_id" doc with
  | None => fst (read_registry p w) = Err (ValueError MsgMissingLastId)
  | Some v =>
      match py_int v with
      | Ok z =>
          fst (read_registry p w)
          = Ok (Some (Dict.set "last_id" (JInt z)
                        (Dict.set "schema_version" (JInt 1) doc)))
      | Err TypeError | Err (ValueError _) =>
          fst (read_registry p w) = Err (ValueError MsgLastIdNotInt)
      | Err e => fst (read_registry p w) = Err e
      end
  end.
Proof.
  intros Hp Hv. rewrite (read_registry_doc _ _ Hp).
  unfold check_registry. rewrite Hv. cbn [rbind Z.eqb Pos.eqb].
  rewrite dict_get_set_other by discriminate.
  destruct (Dict.get "last_id" doc) as [v|]; [|reflexivity].
  unfold int_or. destruct (py_int v) as [z|[m| | | | | |]]; reflexivity.
Qed.

(** Claim C6 as stated fails: the version-1 registry
    [{"schema_version": 1, "last_id": -5}] is loaded, not rejected. *)
Lemma negative_last_id_is_accepted :
  fst (read_registry ["registry.json"] negative_world)
  = Ok (Some negative_last_id)
  /\ forall e, fst (read_registry ["registry.json"] negative_world) <> Err e.
Proof. split; [reflexivity | discriminate]. Qed.

Lemma version_1_needs_an_integer_last_id_witness :
  fst (read_registry ["registry.json"] negative_world)
  = Ok (Some negative_last_id).
Proof.
  exact (@version_1_needs_an_integer_last_id ["registry.json"] negative_world
           negative_last_id eq_refl eq_refl).
Defined.

Lemma allocate_locked_invalid_kind c rp w :
  kind_in_choices (kind c) = false ->
  allocate_locked c rp w = (Err (ValueError (MsgKindNotInEnum (kind c))), w).
Proof.
  intros H. unfold allocate_locked. unfold bind at 1. now rewrite H.
Qed.

(** Claim C7, amended.  A call of [allocate_next_id] with a kind outside
    [KIND_CHOICES] first takes the lock.  It fails with the error of
    [mkdir] when the lock directory cannot be made.  When the lock file is
    there it tries one or more times to create it and fails with
    [TimeoutError] (LockTimeout) if the time-out is up sooner or later,
    and never returns if the time-out is not a number or positive
    infinity.  Otherwise it fails with the [ValueError] for the kind
    (InvalidKind), having created the lock file and removed it again and
    made no call on the registry file. *)
Theorem invalid_kind_fails_under_the_lock c w d nm :
  kind_in_choices (kind c) = false ->
  (root c ++ registry_relpath c)%list = (d ++ [nm])%list ->
  let lp := (d ++ [(nm ++ ".lock")%string])%list in
  match FS.mkdir_p (fs w) d with
  | Err e => allocate_next_id c w = (Err e, log (EvMkdir d) w)
  | Ok n1 =>
      match FS.get (fs w) lp with
      | Some _ =>
          if runs_out (timeout_sec c) then
            exists attempts,
              (1 <= attempts)%nat
              /\ allocate_next_id c w
                 = (Err TimeoutError,
                    logs (EvMkdir d :: repeat (EvOpenExcl lp) attempts)
                         (with_fs w n1))
          else fst (allocate_next_id c w) = Err NeverReturns
      | None =>
          allocate_next_id c w
          = (Err (ValueError (MsgKindNotInEnum (kind c))),
             World n1 (fds w) (now w) (write_fault w)
                   (trace w ++ [EvMkdir d; EvOpenExcl lp;
                                EvClose (Sys.fresh_fd (fds w)); EvUnlink lp])%list
                   (stdout w))
      end
  end.
Proof.
  intros Hk Hrp lp.
  destruct (FS.mkdir_p (fs w) d) as [n1|e] eqn:Hmk.
  2: { now apply allocate_next_id_mkdir_fails with (nm := nm). }
  destruct (FS.get (fs w) lp) eqn:Hl.
  { rewrite (@allocate_next_id_blocked c w d nm n1 n Hrp Hmk Hl).
    destruct (runs_out (timeout_sec c)) eqn:Ht.
    - eexists. split; [apply blocked_attempts_pos|].
      now rewrite (blocked_error_runs_out _ Ht).
    - cbn [fst]. f_equal. now apply blocked_error_never. }
  destruct (mkdir_p_dir _ _ Hmk) as (es & Hd & _).
  assert (Hl1 : FS.get n1 lp = None).
  { rewrite <- Hl. now apply mkdir_p_below. }
  assert (Hes : Dict.get (nm ++ ".lock") es = None).
  { rewrite <- (get_child _ _ _ Hd). exact Hl1. }
  unfold allocate_next_id. rewrite Hrp, name_snoc, with_name_snoc.
  unfold bind at 1, lift. unfold bind at 1.
  rewrite acquire_lock_eq, Hmk. cbv zeta. fold lp. rewrite Hl1.
  unfold try_finally. rewrite allocate_locked_invalid_kind by assumption.
  cbv beta iota.
  match goal with
  | |- context [release_lock _ ?w0] => set (w1 := w0)
  end.
  assert (Hd1 : FS.get (fs w1) d
                = Some (Dir (Dict.set (nm ++ ".lock") (File (Text "")) es)))
    by (apply get_put; exact Hd).
  unfold lp at 1.
  rewrite (@release_lock_at w1 d (nm ++ ".lock") _ (fds w) (Text "") Hd1
             (dict_get_set_same _ _ _) eq_refl).
  f_equal. unfold with_fs, with_fds, log. cbn [fs fds now write_fault trace stdout w1
    with_fs with_fds log].
  f_equal.
  - fold lp. unfold lp. now apply del_put_absent with (es := es).
  - now rewrite <- !app_assoc.
Qed.

(** Claim C7 as stated fails: with the kind [feat] the call does raise
    InvalidKind, but only after it has made the lock directory and created
    the lock file. *)
Lemma invalid_kind_takes_the_lock_first :
  fst (allocate_next_id bad_kind_call empty_world)
  = Err (ValueError (MsgKindNotInEnum "feat"))
  /\ trace (snd (allocate_next_id bad_kind_call empty_world))
     = [EvMkdir []; EvOpenExcl ["registry.json.lock"];
        EvClose 1; EvUnlink ["registry.json.lock"]]
  /\ trace (snd (allocate_next_id bad_kind_call empty_world))
     <> trace empty_world.
Proof. repeat split. discriminate. Qed.

Lemma invalid_kind_fails_under_the_lock_witness :
  allocate_next_id bad_kind_call empty_world
  = (Err (ValueError (MsgKindNotInEnum "feat")),
     World (Dir []) [] "2026-01-01T00:00:00Z" false
           [EvMkdir []; EvOpenExcl ["registry.json.lock"];
            EvClose 1; EvUnlink ["registry.json.lock"]] []).
Proof.
  exact (@invalid_kind_fails_under_the_lock bad_kind_call empty_world []
           "registry.json" eq_refl eq_refl).
Defined.

(** What a successful call returns and persists comes from [plan]. *)
Lemma allocate_next_id_ok_plan c w a w' :
  allocate_next_id c w = (Ok a, w') ->
  exists registry,
    plan c (root c ++ registry_relpath c)%list
         (FS.get (fs w) (root c ++ registry_relpath c)%list)
         (if scan c
          then scan_tree (fs w) (root c ++ FS.parent (registry_relpath c))%list
          else Ok no_scan)
         (now w) = Ok (a, registry)
    /\ (dry_run c = false ->
        FS.get (fs w') (root c ++ registry_relpath c)%list
        = Some (File (Doc (JObj registry)))).
Proof.
  intros Hrun.
  destruct (@allocate_next_id_ok_inv c w a w' Hrun)
    as (d & nm & n1 & Hrp & Hmk & Hl).
  destruct (@allocate_next_id_spec c w d nm n1 Hrp Hmk Hl)
    as (w1 & evs & Hrun1 & Hreg & _).
  rewrite Hrun in Hrun1. injection Hrun1 as Hret <-.
  rewrite Hrp. unfold call_outcome in Hret, Hreg.
  destruct (plan c (d ++ [nm])%list _ _ (now w)) as [[a0 reg]|e];
    [|discriminate].
  exists reg.
  destruct (dry_run c).
  { cbn [returned] in Hret. injection Hret as ->. split; [reflexivity|discriminate]. }
  destruct (FS.get (fs w) (d ++ [(nm ++ ".tmp")%string])%list) as [[x|es]|];
    try discriminate; destruct (write_fault w); try discriminate;
    cbn [returned registry_after] in Hret, Hreg; injection Hret as ->; auto.
Qed.

Lemma plan_ok_inv c rp entry scanned ts a registry :
  plan c rp entry scanned ts = Ok (a, registry) ->
  exists prefix loaded sc reconciled counters current,
    kind_in_choices (kind c) = true
    /\ subscript KIND_PREFIX (kind c) = Ok prefix
    /\ registry_of_node entry = Ok loaded
    /\ scanned = Ok sc
    /\ reconcile loaded sc ts = Ok reconciled
    /\ Dict.get "counters" reconciled = Some (JObj counters)
    /\ py_int (Dict.get_default (kind c) (JInt 0) counters) = Ok current
    /\ a = {| id := current + 1;
              padded_id := Py.zfill (Py.str (current + 1)) (pad c);
              stable_id := prefix ++ "-" ++ Py.zfill (Py.str (current + 1)) (pad c);
              a_kind := kind c;
              a_registry_path := rp;
              a_dry_run := dry_run c |}
    /\ registry = Dict.set "updated_at" (JStr ts)
                    (Dict.set "counters"
                       (JObj (Dict.set (kind c) (JInt (current + 1)) counters))
                       reconciled).
Proof.
  unfold plan. intros H.
  destruct (kind_in_choices (kind c)) eqn:E1; [|discriminate].
  destruct (subscript KIND_PREFIX (kind c)) as [prefix|] eqn:E2; [|discriminate].
  destruct (registry_of_node entry) as [loaded|] eqn:E3; [|discriminate].
  destruct scanned as [sc|]; [|discriminate]. cbn [rbind] in H.
  destruct (reconcile loaded sc ts) as [reconciled|] eqn:E4; [|discriminate].
  cbn [rbind] in H. unfold subscript in H.
  destruct (Dict.get "counters" reconciled) as [j|] eqn:E5; [|discriminate].
  cbn [rbind] in H. destruct j; try discriminate. cbn [py_dict rbind] in H.
  destruct (py_int _) as [current|] eqn:E6; [|discriminate].
  injection H as <- <-.
  exists prefix, loaded, sc, reconciled, fields, current. repeat split; auto.
Qed.

(** No error of [allocate_next_id] is one of the argument errors of
    [main]. *)
Lemma allocate_next_id_err c w e w' :
  allocate_next_id c w = (Err e, w') -> is_InvalidArgument e = false.
Proof.
  intros Hrun.
  destruct (path_cases (root c ++ registry_relpath c)%list)
    as [Hrp|(d & nm & Hrp)].
  { rewrite (@allocate_next_id_no_name c w Hrp) in Hrun.
    now injection Hrun as <- _. }
  destruct (FS.mkdir_p (fs w) d) as [n1|e1] eqn:Hmk.
  2: { rewrite (@allocate_next_id_mkdir_fails c w d nm e1 Hrp Hmk) in Hrun.
       injection Hrun as <- _.
       now apply mkdir_p_err, foreign_InvalidArgument in Hmk. }
  destruct (FS.get (fs w) (d ++ [(nm ++ ".lock")%string])%list) as [x|] eqn:Hl.
  { rewrite (@allocate_next_id_blocked c w d nm n1 x Hrp Hmk Hl) in Hrun.
    injection Hrun as <- _.
    now destruct (blocked_error_cases (patience (timeout_sec c))
                                      (timeout_sec c) 0) as [-> | ->]. }
  destruct (@allocate_next_id_spec c w d nm n1 Hrp Hmk Hl)
    as (w1 & evs & Hrun1 & _).
  rewrite Hrun in Hrun1. injection Hrun1 as Hret _.
  unfold call_outcome in Hret.
  destruct (plan c _ _ _ _) as [[a reg]|e0] eqn:Hplan.
  - destruct (dry_run c); [discriminate|].
    destruct (FS.get (fs w) (d ++ [(nm ++ ".tmp")%string])%list) as [[y|es]|];
      try (now injection Hret as ->);
      destruct (write_fault w); try discriminate; now injection Hret as ->.
  - cbn [returned] in Hret. injection Hret as ->.
    apply foreign_InvalidArgument.
    refine (@plan_err _ _ _ _ _ _ Hplan _).
    intros e1 He1. destruct (scan c); [|discriminate].
    now apply scan_tree_err in He1.
Qed.








Lemma reconcile_version_2 loaded v sc ts reconciled :
  Dict.get "schema_version" loaded = Some (JInt v) -> 2 <= v ->
  reconcile (Some loaded) sc ts = Ok reconciled ->
  exists counters chg spec,
    py_dict (py_or (Dict.get_default "counters" JNull loaded) (JObj []))
    = Ok counters
    /\ reconciled
       = Dict.set "counters"
           (JObj (Dict.set "spec" (JInt spec)
                    (Dict.set "chg" (JInt chg) counters)))
           (Dict.set "schema_version" (JInt v) loaded)
    /\ s_chg sc <= chg /\ s_spec sc <= spec.
Proof.
  intros Hv Hle. unfold reconcile, Dict.get_default. rewrite Hv.
  cbn [py_int rbind].
  destruct (Z.eqb_spec v 1) as [->|_]; [lia|].
  destruct (py_dict _) as [counters|]; [|discriminate]. cbn [rbind].
  destruct (py_int _) as [chg|]; [|discriminate]. cbn [rbind].
  destruct (py_int _) as [spec|]; [|discriminate]. cbn [rbind].
  assert (Ht : py_or (JInt v) (JInt 2) = JInt v).
  { unfold py_or, truthy. destruct (Z.eqb_spec v 0); [lia|reflexivity]. }
  rewrite Ht. cbn [py_int rbind]. intros [= <-].
  exists counters, (Z.max chg (s_chg sc)), (Z.max spec (s_spec sc)).
  repeat split; lia.
Qed.

Lemma counters_or_empty loaded counters k :
  py_dict (py_or (Dict.get_default "counters" JNull loaded) (JObj []))
  = Ok counters ->
  Dict.get k counters = counter_in loaded k.
Proof.
  unfold counter_in, Dict.get_default, py_or.
  destruct (Dict.get "counters" loaded) as [j|]; [|now intros [= <-]].
  destruct (truthy j) eqn:Et.
  - destruct j; try discriminate. now intros [= <-].
  - intros [= <-]. destruct j; try reflexivity.
    destruct fields; [reflexivity|discriminate].
Qed.

(** Claim C9.  When a real allocation succeeds against a registry loaded
    with schema version 2 or more, the document it persists has every
    top-level field of the loaded registry other than [schema_version],
    [counters] and [updated_at] unchanged, every counter other than [chg]
    and [spec] unchanged, the same [schema_version], and the clock reading
    in [updated_at]. *)
Theorem loaded_fields_are_carried_over c w a w' doc loaded v :
  FS.get (fs w) (root c ++ registry_relpath c)%list
  = Some (File (Doc (JObj doc))) ->
  check_registry (JObj doc) = Ok loaded ->
  Dict.get "schema_version" loaded = Some (JInt v) -> 2 <= v ->
  dry_run c = false ->
  allocate_next_id c w = (Ok a, w') ->
  exists persisted,
    persisted_registry w' (root c ++ registry_relpath c)%list = Some persisted
    /\ (forall k, k <> "schema_version" -> k <> "counters" ->
                  k <> "updated_at" ->
                  Dict.get k persisted = Dict.get k loaded)
    /\ (forall k, k <> "chg" -> k <> "spec" ->
                  counter_in persisted k = counter_in loaded k)
    /\ Dict.get "schema_version" persisted = Some (JInt v)
    /\ Dict.get "updated_at" persisted = Some (JStr (now w)).
Proof.
  intros Hdoc Hchk Hv Hle Hdry Hrun.
  destruct (@allocate_next_id_ok_plan c w a w' Hrun) as (registry & Hplan & Hper).
  specialize (Hper Hdry). exists registry.
  unfold persisted_registry. rewrite Hper. split; [reflexivity|].
  destruct (@plan_ok_inv c _ _ _ _ a registry Hplan)
    as (prefix & l & sc & reconciled & counters & current
        & Hk & _ & Hl & _ & Hrec & Hc & _ & _ & ->).
  rewrite Hdoc in Hl. cbn [registry_of_node] in Hl. rewrite Hchk in Hl.
  injection Hl as <-.
  destruct (@reconcile_version_2 loaded v sc (now w) reconciled Hv Hle Hrec)
    as (cs0 & chg & spec & Hcs & -> & _).
  rewrite dict_get_set_same in Hc. injection Hc as <-.
  split; [|split; [|split]].
  - intros k H1 H2 H3. now rewrite !dict_get_set_other by assumption.
  - intros k H1 H2. unfold counter_in at 1.
    rewrite dict_get_set_other, dict_get_set_same by discriminate.
    rewrite <- (@counters_or_empty loaded cs0 k Hcs).
    destruct (kind_cases _ Hk) as [-> | ->];
      now rewrite !dict_get_set_other by assumption.
  - rewrite !dict_get_set_other by discriminate. apply dict_get_set_same.
  - apply dict_get_set_same.
Qed.

Lemma bump_chg_ge name m : m <= bump_chg name m.
Proof.
  unfold bump_chg. destruct (LEADING_ID_RE_match name); [|lia].
  destruct (Py.int_of_str s); [|lia].
  destruct (Z.ltb_spec m a); lia.
Qed.

Lemma bump_dirs_ge children : forall m, m <= bump_dirs children m.
Proof.
  induction children as [|[name [c|es]] rest IH]; intros m; simpl; [lia|apply IH|].
  pose proof (bump_chg_ge name m). specialize (IH (bump_chg name m)). lia.
Qed.

Lemma bump_months_ge months : forall m, m <= bump_months months m.
Proof.
  induction months as [|[name [c|es]] rest IH]; intros m; simpl; [lia|apply IH|].
  pose proof (bump_dirs_ge es m). specialize (IH (bump_dirs es m)). lia.
Qed.

Lemma bump_spec_ge f m m' : bump_spec f m = Ok m' -> m <= m'.
Proof.
  unfold bump_spec. destruct (read_doc_id f) as [doc_id|]; [|discriminate].
  cbn [rbind]. destruct (STABLE_ID_RE_match doc_id) as [[prefix id]|];
    [|intros [= <-]; lia].
  destruct (negb (String.eqb prefix "SPEC")); [intros [= <-]; lia|].
  destruct (Py.int_of_str id) as [value|]; [|intros [= <-]; lia].
  intros [= <-]. destruct (Z.ltb_spec m value); lia.
Qed.

Lemma bump_specs_ge files : forall m m', bump_specs files m = Ok m' -> m <= m'.
Proof.
  induction files as [|f rest IH]; intros m m'; simpl.
  - intros [= <-]. lia.
  - destruct (bump_spec f m) as [m1|] eqn:E; [|discriminate].
    intros H. apply bump_spec_ge in E. apply IH in H. lia.
Qed.

Lemma scan_tree_nonneg tree sd sc :
  scan_tree tree sd = Ok sc -> 0 <= s_chg sc /\ 0 <= s_spec sc.
Proof.
  unfold scan_tree.
  set (r1 := match FS.get tree (sd ++ ["tasks"])%list with
             | Some tasks_dir => _ | None => _ end).
  assert (H1 : forall m, r1 = Ok m -> 0 <= m).
  { subst r1. intros m. destruct (FS.get tree _) as [n|]; [|intros [= <-]; lia].
    destruct (iterdir n); [|discriminate]. cbn [rbind]. intros [= <-].
    apply bump_dirs_ge. }
  destruct r1 as [m1|]; [|discriminate]. cbn [rbind].
  specialize (H1 m1 eq_refl).
  set (r2 := match FS.get tree (sd ++ [".sa"; "history"])%list with
             | Some history_dir => _ | None => _ end).
  assert (H2 : forall m, r2 = Ok m -> 0 <= m).
  { subst r2. intros m. destruct (FS.get tree _) as [n|]; [|intros [= <-]; lia].
    destruct (iterdir n); [|discriminate]. cbn [rbind]. intros [= <-].
    pose proof (bump_months_ge a m1). lia. }
  destruct r2 as [m2|]; [|discriminate]. cbn [rbind].
  specialize (H2 m2 eq_refl).
  destruct (FS.get tree (sd ++ ["specs"])%list) as [n|].
  - destruct (bump_specs (glob_spec_md n) 0) as [m3|] eqn:E; [|discriminate].
    cbn [rbind]. intros [= <-]. apply bump_specs_ge in E. now split.
  - cbn [rbind]. intros [= <-]. cbn. lia.
Qed.

Lemma reconcile_counter_nonneg loaded sc ts reconciled counters kind current :
  0 <= s_chg sc -> 0 <= s_spec sc ->
  reconcile loaded sc ts = Ok reconciled ->
  Dict.get "counters" reconciled = Some (JObj counters) ->
  kind_in_choices kind = true ->
  py_int (Dict.get_default kind (JInt 0) counters) = Ok current ->
  0 <= current.
Proof.
  intros Hc Hs Hrec Hcs Hk Hcur. unfold reconcile in Hrec.
  assert (Hfresh : forall chg spec,
             0 <= chg -> 0 <= spec ->
             Ok (fresh_registry chg spec ts) = Ok reconciled -> 0 <= current).
  { intros chg spec H1 H2 [= <-]. cbn in Hcs. injection Hcs as <-.
    destruct (kind_cases _ Hk) as [-> | ->]; cbn in Hcur;
      injection Hcur as <-; assumption. }
  destruct loaded as [r|]; [|now apply (Hfresh _ _ Hc Hs)].
  destruct (py_int (Dict.get_default "schema_version" (JInt 1) r)) as [v|];
    [|discriminate]. cbn [rbind] in Hrec.
  destruct (v =? 1).
  - destruct (py_int (Dict.get_default "last_id" (JInt 0) r)) as [L|];
      [|discriminate]. cbn [rbind] in Hrec.
    apply (Hfresh _ _ (Z.le_trans _ _ _ Hc (Z.le_max_l _ _)) Hs Hrec).
  - destruct (py_dict _) as [cs|]; [|discriminate]. cbn [rbind] in Hrec.
    destruct (py_int _) as [chg|]; [|discriminate]. cbn [rbind] in Hrec.
    destruct (py_int _) as [spec|]; [|discriminate]. cbn [rbind] in Hrec.
    destruct (py_int _) as [v'|]; [|discriminate]. cbn [rbind] in Hrec.
    injection Hrec as <-. rewrite dict_get_set_same in Hcs. injection Hcs as <-.
    unfold Dict.get_default in Hcur.
    destruct (kind_cases _ Hk) as [-> | ->].
    + rewrite dict_get_set_other, dict_get_set_same in Hcur by discriminate.
      injection Hcur as <-. lia.
    + rewrite dict_get_set_same in Hcur. injection Hcur as <-. lia.
Qed.

Lemma str_positive n :
  0 < n -> exists c r, Py.str n = String c r /\ Py.is_sign c = false.
Proof.
  intros Hn. destruct n as [|p|p]; try lia.
  unfold Py.str. cbn [Z.to_int NilZero.string_of_int].
  pose proof (Unsigned.to_uint_nonnil p) as Hnil.
  unfold NilZero.string_of_uint.
  destruct (Pos.to_uint p) as [|u|u|u|u|u|u|u|u|u|u]; [congruence|..];
    cbn [NilEmpty.string_of_uint]; eexists; eexists; split; reflexivity.
Qed.

Lemma zeros_length n : String.length (Py.zeros n) = n.
Proof. induction n; simpl; congruence. Qed.

Lemma zfill_unsigned c r width :
  Py.is_sign c = false ->
  Py.zfill (String c r) width
  = Py.zeros (Z.to_nat (width - Py.len (String c r))) ++ String c r.
Proof.
  intros Hc. unfold Py.zfill. rewrite Hc.
  destruct (Z.leb_spec width (Py.len (String c r))) as [H|H]; [|reflexivity].
  replace (Z.to_nat (width - Py.len (String c r))) with O by lia. reflexivity.
Qed.

Lemma zfill_length c r width :
  Py.is_sign c = false ->
  Py.len (Py.zfill (String c r) width) = Z.max width (Py.len (String c r)).
Proof.
  intros Hc. rewrite zfill_unsigned by assumption. unfold Py.len.
  rewrite append_length, zeros_length. lia.
Qed.

(** Claim C10.  For every allocation returned, the id is at least 1, the
    padded id is [str(id)] with as many zeros in front as it takes to reach
    [pad] characters (none when [str(id)] is that long already, so its
    length is the larger of the two and no digit is lost), and the stable id
    is the prefix of the kind, a hyphen and that padded id. *)
Theorem padded_id_is_never_truncated c w a w' :
  allocate_next_id c w = (Ok a, w') ->
  1 <= id a
  /\ padded_id a
     = Py.zeros (Z.to_nat (pad c - Py.len (Py.str (id a)))) ++ Py.str (id a)
  /\ Py.len (padded_id a) = Z.max (pad c) (Py.len (Py.str (id a)))
  /\ (pad c <= Py.len (Py.str (id a)) -> padded_id a = Py.str (id a))
  /\ exists prefix,
       Dict.get (kind c) KIND_PREFIX = Some prefix
       /\ stable_id a = prefix ++ "-" ++ padded_id a.
Proof.
  intros Hrun.
  destruct (@allocate_next_id_ok_plan c w a w' Hrun) as (registry & Hplan & _).
  destruct (@plan_ok_inv c _ _ _ _ a registry Hplan)
    as (prefix & l & sc & reconciled & counters & current
        & Hk & Hp & _ & Hsc & Hrec & Hc & Hcur & -> & _).
  assert (Hnn : 0 <= s_chg sc /\ 0 <= s_spec sc).
  { destruct (scan c); [now apply scan_tree_nonneg in Hsc|].
    injection Hsc as <-. cbn. lia. }
  destruct Hnn as [H1 H2].
  pose proof (@reconcile_counter_nonneg l sc (now w) reconciled counters
                (kind c) current H1 H2 Hrec Hc Hk Hcur) as Hpos.
  cbn [id padded_id stable_id].
  destruct (@str_positive (current + 1)) as (ch & r & Hs & Hsign); [lia|].
  rewrite Hs.
  split; [lia|]. split; [now apply zfill_unsigned|].
  split; [now apply zfill_length|]. split.
  - intros Hle. unfold Py.zfill.
    destruct (Z.leb_spec (pad c) (Py.len (String ch r))); [reflexivity|lia].
  - exists prefix. split; [|reflexivity].
    unfold subscript in Hp. destruct (Dict.get (kind c) KIND_PREFIX); congruence.
Qed.

Lemma sequential_allocations_are_contiguous_witness :
  map returned_id (run_calls chg_call 3 empty_world)
  = [Some 1; Some 2; Some 3]
  /\ map (fun rw => persisted_counter (snd rw) ["registry.json"] "chg")
         (run_calls chg_call 3 empty_world)
     = [Some (JInt 1); Some (JInt 2); Some (JInt 3)].
Proof.
  apply (@sequential_allocations_are_contiguous chg_call empty_world 3);
    try reflexivity.
  repeat constructor; eexists; vm_compute; reflexivity.
Defined.

Lemma lock_released_on_every_exit_witness :
  exists r w' evs,
    allocate_next_id chg_call empty_world = (r, w')
    /\ FS.get (fs w') lock_of_chg_call = None
    /\ ~ In (fd handle_of_chg_call) (fds w')
    /\ fds w' = fds empty_world
    /\ trace w' = (trace world_under_lock ++ evs
                   ++ [EvClose (fd handle_of_chg_call);
                       EvUnlink lock_of_chg_call])%list
    /\ exists h' w2,
         acquire_lock lock_of_chg_call (timeout_sec chg_call) w' = (Ok h', w2).
Proof.
  apply (@lock_released_on_every_exit chg_call empty_world lock_of_chg_call
           handle_of_chg_call world_under_lock); reflexivity.
Defined.


Lemma loaded_fields_are_carried_over_witness :
  exists persisted,
    persisted_registry (snd (allocate_next_id chg_call extended_world))
                       ["registry.json"] = Some persisted
    /\ Dict.get "owner" persisted = Some (JStr "team")
    /\ counter_in persisted "doc" = Some (JInt 9).
Proof.
  assert (Hrun : allocate_next_id chg_call extended_world
                 = (Ok {| id := 5; padded_id := "000005";
                          stable_id := "CHG-000005"; a_kind := "chg";
                          a_registry_path := ["registry.json"];
                          a_dry_run := false |},
                    snd (allocate_next_id chg_call extended_world)))
    by (vm_compute; reflexivity).
  assert (Hchk : check_registry (JObj extended_registry) = Ok extended_registry)
    by (vm_compute; reflexivity).
  assert (Hle : 2 <= 2) by lia.
  destruct (@loaded_fields_are_carried_over chg_call extended_world _ _
              extended_registry extended_registry 2
              eq_refl Hchk eq_refl Hle eq_refl Hrun)
    as (persisted & Hp & Htop & Hcnt & _).
  exists persisted. split; [exact Hp|]. split.
  - rewrite Htop by discriminate. reflexivity.
  - rewrite Hcnt by discriminate. reflexivity.
Defined.

Lemma padded_id_is_never_truncated_witness :
  exists a,
    fst (allocate_next_id chg_call big_world) = Ok a
    /\ id a = 1234567
    /\ padded_id a = "1234567"
    /\ stable_id a = "CHG-1234567".
Proof.
  set (a := {| id := 1234567; padded_id := "1234567";
               stable_id := "CHG-1234567"; a_kind := "chg";
               a_registry_path := ["registry.json"]; a_dry_run := false |}).
  assert (Hrun : allocate_next_id chg_call big_world
                 = (Ok a, snd (allocate_next_id chg_call big_world)))
    by (vm_compute; reflexivity).
  destruct (@padded_id_is_never_truncated chg_call big_world a _ Hrun)
    as (_ & _ & _ & Hfull & _).
  exists a. split; [now rewrite Hrun|]. split; [reflexivity|].
  split; [|reflexivity].
  rewrite Hfull; [vm_compute; reflexivity | vm_compute; discriminate].
Defined.

(** Claim C4.  In a project laid out as the other scripts lay it out, with
    a task directory [000005_fix_login] and no registry, the scanner run on
    the [superagents] directory finds 5, but [allocate_next_id] runs it on
    the directory of the registry file, [superagents/.sa], finds nothing
    and returns id 1; it returns 6 only for tasks placed under
    [superagents/.sa/tasks]. *)
Theorem reconciliation_scans_the_registry_directory :
  scan_tree project_tree ["proj"; "superagents"]
  = Ok {| s_chg := 5; s_spec := 0 |}
  /\ scan_tree project_tree
       (root sa_new_call ++ FS.parent (registry_relpath sa_new_call))%list
     = Ok {| s_chg := 0; s_spec := 0 |}
  /\ fst (allocate_next_id sa_new_call project_world)
     = Ok {| id := 1; padded_id := "000001"; stable_id := "CHG-000001";
             a_kind := "chg";
             a_registry_path := ["proj"; "superagents"; ".sa"; "registry.json"];
             a_dry_run := false |}
  /\ fst (allocate_next_id sa_new_call misplaced_world)
     = Ok {| id := 6; padded_id := "000006"; stable_id := "CHG-000006";
             a_kind := "chg";
             a_registry_path := ["proj"; "superagents"; ".sa"; "registry.json"];
             a_dry_run := false |}.
Proof. repeat split; vm_compute; reflexivity. Qed.

(** What is carried over is the registry as loaded: [read_registry] has
    already turned every counter into an [int]. *)
Lemma counters_are_loaded_as_integers :
  check_registry (JObj string_counter_registry)
  = Ok [("schema_version", JInt 2);
        ("counters", JObj [("chg", JInt 1); ("doc", JInt 7)])].
Proof. vm_compute. reflexivity. Qed.

Lemma step_succeeds c w d nm chg spec :
  (root c ++ registry_relpath c)%list = (d ++ [nm])%list ->
  kind_in_choices (kind c) = true ->
  dry_run c = false -> scan c = false ->
  0 <= chg -> 0 <= spec ->
  holds_counters w (d ++ [nm])%list chg spec ->
  unobstructed w d nm ->
  exists a w',
    allocate_next_id c w = (Ok a, w') /\ unobstructed w' d nm.
Proof.
  intros Hrp Hk Hdry Hscan Hchg Hspec Hinv ([n1 Hmk] & Hl & Htmp & Hf).
  destruct (@allocate_next_id_spec c w d nm n1 Hrp Hmk Hl)
    as (w' & evs & Hrun & _ & Htmp' & Hlock & Henv & _ & _ & _ & Hmk').
  rewrite Hscan in Hrun, Htmp'. unfold call_outcome in Hrun, Htmp'.
  assert (Hplan : exists x,
             plan c (d ++ [nm])%list (FS.get (fs w) (d ++ [nm])%list)
                  (Ok no_scan) (now w) = Ok x).
  { destruct Hinv as [(-> & _)|(ts0 & ->)].
    - rewrite plan_absent by assumption. eauto.
    - rewrite plan_fresh by assumption. eauto. }
  destruct Hplan as ([a reg] & Hplan). rewrite Hplan, Hdry, Hf in Hrun, Htmp'.
  exists a, w'.
  assert (Hout : allocate_next_id c w = (Ok a, w')
                 /\ FS.get (fs w') (d ++ [(nm ++ ".tmp")%string])%list = None).
  { destruct (FS.get (fs w) (d ++ [(nm ++ ".tmp")%string])%list) as [[x|es]|];
      try (now elim (Htmp es)); now split. }
  destruct Hout as [Hok Hnone]. split; [exact Hok|].
  repeat split.
  - eauto.
  - exact Hlock.
  - intros es. rewrite Hnone. discriminate.
  - destruct Henv as (_ & _ & -> & _). exact Hf.
Qed.

(** From a world with no registry and nothing in the way, every one of N
    calls in a row succeeds. *)
Lemma sequential_calls_succeed c N : forall w d nm chg spec,
  (root c ++ registry_relpath c)%list = (d ++ [nm])%list ->
  kind_in_choices (kind c) = true ->
  dry_run c = false -> scan c = false ->
  0 <= chg -> 0 <= spec ->
  holds_counters w (d ++ [nm])%list chg spec ->
  unobstructed w d nm ->
  Forall succeeded (run_calls c N w).
Proof.
  induction N as [|N IH]; intros w d nm chg spec Hrp Hk Hdry Hscan Hchg Hspec
                                 Hinv Hun; [constructor|].
  cbn [run_calls].
  destruct (@step_succeeds c w d nm chg spec Hrp Hk Hdry Hscan Hchg Hspec Hinv Hun)
    as (a & w' & Hrun & Hun').
  rewrite Hrun. constructor; [now exists a|]. cbn [snd].
  assert (Hinv0 : holds_counters w (root c ++ registry_relpath c)%list chg spec)
    by (now rewrite Hrp).
  destruct (@step_without_scan c w chg spec a w' Hdry Hscan Hchg Hspec Hinv0 Hrun)
    as (_ & _ & Hreg & _).
  destruct (bumped_fresh (kind c) chg spec (now w) Hk)
    as (chg' & spec' & Hb & _ & Hchg' & Hspec').
  apply (IH w' d nm chg' spec'); auto.
  right. exists (now w). now rewrite <- Hrp, Hreg, Hb.
Qed.

(** With no registry, the id returned is one more than what the scanner
    finds from the directory of the registry file, for either kind. *)
Lemma absent_registry_starts_from_the_scan c w a w' :
  FS.get (fs w) (root c ++ registry_relpath c)%list = None ->
  scan c = true ->
  allocate_next_id c w = (Ok a, w') ->
  exists sc,
    scan_tree (fs w) (root c ++ FS.parent (registry_relpath c))%list = Ok sc
    /\ id a = counter_of (kind c) (s_chg sc) (s_spec sc) + 1.
Proof.
  intros Habs Hscan Hrun.
  destruct (@allocate_next_id_ok_plan c w a w' Hrun) as (registry & Hplan & _).
  rewrite Habs, Hscan in Hplan.
  pose proof (@plan_ok_kind c _ _ _ _ _ Hplan) as Hk.
  destruct (scan_tree (fs w) (root c ++ FS.parent (registry_relpath c))%list)
    as [sc|e] eqn:Hsc.
  - exists sc. split; [reflexivity|].
    rewrite plan_absent in Hplan by assumption. now injection Hplan as <- _.
  - unfold plan in Hplan. rewrite Hk in Hplan.
    destruct (subscript KIND_PREFIX (kind c)); discriminate.
Qed.

(* ===================================================================== *)
(** * Further properties of the scripts *)
(* ===================================================================== *)

Lemma all_chars_append p s t :
  all_chars p (s ++ t) = all_chars p s && all_chars p t.
Proof.
  induction s as [|c s IH]; simpl; [reflexivity|].
  now rewrite IH, andb_assoc.
Qed.

Lemma all_chars_weaken (p q : ascii -> bool) s :
  (forall c, p c = true -> q c = true) ->
  all_chars p s = true -> all_chars q s = true.
Proof.
  intros H. induction s as [|c s IH]; simpl; [reflexivity|].
  rewrite !andb_true_iff. intros [Hc Hs]. auto.
Qed.

Lemma rstrip_none p s :
  all_chars (fun c => negb (p c)) s = true -> Py.rstrip p s = s.
Proof.
  induction s as [|c s IH]; simpl; [reflexivity|].
  rewrite andb_true_iff, negb_true_iff. intros [Hc Hs].
  now rewrite (IH Hs), Hc, andb_false_r.
Qed.

Lemma strip_with_none p s :
  all_chars (fun c => negb (p c)) s = true -> Py.strip_with p s = s.
Proof.
  intros H. unfold Py.strip_with.
  assert (Hl : Py.lstrip p s = s).
  { destruct s as [|c s]; [reflexivity|]. simpl in *.
    apply andb_true_iff in H. destruct H as [Hc _].
    apply negb_true_iff in Hc. now rewrite Hc. }
  rewrite Hl. now apply rstrip_none.
Qed.

Lemma digit_not_space c :
  Py.isdigit c = true -> negb (Py.is_int_space c) = true.
Proof.
  destruct c as [[] [] [] [] [] [] [] []]; vm_compute; congruence.
Qed.

Lemma digit_not_sign c : Py.isdigit c = true -> Py.is_sign c = false.
Proof.
  destruct c as [[] [] [] [] [] [] [] []]; vm_compute; congruence.
Qed.

Lemma digit_not_underscore c : Py.isdigit c = true -> Ascii.eqb c "_" = false.
Proof.
  destruct c as [[] [] [] [] [] [] [] []]; vm_compute; congruence.
Qed.

(** ** Decimal digits and their value *)

Lemma string_of_uint_digits d :
  all_chars Py.isdigit (NilEmpty.string_of_uint d) = true.
Proof. induction d; simpl; auto. Qed.

Lemma digits_value_acc d : forall acc,
  Py.digits_value (Zpos acc) true (NilEmpty.string_of_uint d)
  = Some (Zpos (Pos.of_uint_acc d acc)).
Proof.
  induction d; intros acc; cbn [NilEmpty.string_of_uint Pos.of_uint_acc];
    [reflexivity|..];
    cbn [Py.digits_value];
    match goal with
    | |- context [Py.isdigit ?c] =>
        change (Py.isdigit c) with true; cbv iota;
        match goal with
        | |- context [Py.digit_value c] =>
            let v := eval vm_compute in (Py.digit_value c) in
            change (Py.digit_value c) with v
        end
    end;
    rewrite <- IHd; f_equal; lia.
Qed.

Lemma digits_value_uint d : forall prev,
  Py.digits_value 0 prev (NilEmpty.string_of_uint d)
  = match d with
    | Decimal.Nil => if prev then Some 0 else None
    | _ => Some (Z.of_N (Pos.of_uint d))
    end.
Proof.
  induction d; intros prev; cbn [NilEmpty.string_of_uint Pos.of_uint];
    [reflexivity|..];
    cbn [Py.digits_value];
    match goal with
    | |- context [Py.isdigit ?c] =>
        change (Py.isdigit c) with true; cbv iota;
        match goal with
        | |- context [Py.digit_value c] =>
            let v := eval vm_compute in (Py.digit_value c) in
            change (Py.digit_value c) with v
        end
    end;
    match goal with
    | |- context [Py.digits_value ?z] =>
        let v := eval vm_compute in z in change z with v
    end;
    try (rewrite digits_value_acc; reflexivity).
  rewrite IHd. destruct d; reflexivity.
Qed.

Lemma digits_value_str n :
  0 <= n -> Py.digits_value 0 false (Py.str n) = Some n.
Proof.
  intros Hn. destruct n as [|p|p]; [reflexivity| |lia].
  unfold Py.str. cbn [Z.to_int NilZero.string_of_int NilZero.string_of_uint].
  pose proof (Unsigned.to_uint_nonnil p) as Hnil.
  pose proof (Unsigned.of_to p) as Hof.
  change (Z.pos p) with (Z.of_N (N.pos p)). rewrite <- Hof.
  assert (Hs : NilZero.string_of_uint (Pos.to_uint p)
               = NilEmpty.string_of_uint (Pos.to_uint p))
    by (destruct (Pos.to_uint p); [congruence|reflexivity..]).
  rewrite Hs, digits_value_uint.
  destruct (Pos.to_uint p); [congruence|reflexivity..].
Qed.

Lemma str_digits n : 0 <= n -> all_chars Py.isdigit (Py.str n) = true.
Proof.
  intros Hn. destruct n as [|p|p]; [reflexivity| |lia].
  unfold Py.str. cbn [Z.to_int NilZero.string_of_int NilZero.string_of_uint].
  pose proof (Unsigned.to_uint_nonnil p) as Hnil.
  assert (Hs : NilZero.string_of_uint (Pos.to_uint p)
               = NilEmpty.string_of_uint (Pos.to_uint p))
    by (destruct (Pos.to_uint p); [congruence|reflexivity..]).
  rewrite Hs. apply string_of_uint_digits.
Qed.

Lemma zeros_digits k : all_chars Py.isdigit (Py.zeros k) = true.
Proof. induction k; simpl; auto. Qed.

Lemma digits_value_zeros k : forall prev s,
  Py.digits_value 0 prev (Py.zeros k ++ s)
  = Py.digits_value 0 (match k with O => prev | S _ => true end) s.
Proof.
  induction k as [|k IH]; intros prev s; [reflexivity|].
  cbn [Py.zeros append Py.digits_value].
  change (Py.isdigit "0") with true. cbv iota.
  change (10 * 0 + Py.digit_value "0") with 0.
  rewrite IH. destruct k; reflexivity.
Qed.

Lemma digits_value_str_any n prev :
  0 <= n -> Py.digits_value 0 prev (Py.str n) = Some n.
Proof.
  intros Hn. rewrite <- (digits_value_str Hn).
  pose proof (str_digits Hn) as Hd.
  destruct (Py.str n) as [|c r] eqn:E.
  - exfalso. destruct n as [|p|p]; [discriminate| |lia].
    unfold Py.str in E. cbn [Z.to_int NilZero.string_of_int] in E.
    pose proof (Unsigned.to_uint_nonnil p) as Hnil.
    unfold NilZero.string_of_uint in E.
    destruct (Pos.to_uint p); try congruence; discriminate.
  - cbn [all_chars] in Hd. apply andb_true_iff in Hd. destruct Hd as [Hc _].
    cbn [Py.digits_value]. now rewrite Hc.
Qed.

Lemma int_of_str_digits s v :
  all_chars Py.isdigit s = true ->
  Py.digits_value 0 false s = Some v ->
  Py.int_of_str s = Ok v.
Proof.
  intros Hd Hv. unfold Py.int_of_str.
  rewrite strip_with_none
    by (apply (all_chars_weaken _ _ _ digit_not_space Hd)).
  destruct s as [|c r]; [now rewrite Hv|].
  cbn [all_chars] in Hd. apply andb_true_iff in Hd. destruct Hd as [Hc _].
  pose proof (digit_not_sign _ Hc) as Hs. unfold Py.is_sign in Hs.
  apply orb_false_iff in Hs. destruct Hs as [Hp Hm].
  rewrite Hp, Hm, Hv. reflexivity.
Qed.

Lemma int_of_str_padded k n :
  0 <= n -> Py.int_of_str (Py.zeros k ++ Py.str n) = Ok n.
Proof.
  intros Hn. apply int_of_str_digits.
  - now rewrite all_chars_append, zeros_digits, str_digits.
  - rewrite digits_value_zeros. now apply digits_value_str_any.
Qed.

Lemma span_digits_all ds rest :
  all_chars Py.isdigit ds = true ->
  match rest with String c _ => Py.isdigit c = false | EmptyString => True end ->
  span_digits (ds ++ rest) = (ds, rest).
Proof.
  intros Hd Hr. induction ds as [|c ds IH]; cbn [append].
  - destruct rest as [|c r]; [reflexivity|]. cbn [span_digits]. now rewrite Hr.
  - cbn [all_chars] in Hd. apply andb_true_iff in Hd. destruct Hd as [Hc Hd].
    cbn [span_digits]. now rewrite Hc, (IH Hd).
Qed.

Lemma LEADING_ID_RE_match_digits ds rest :
  all_chars Py.isdigit ds = true -> ds <> "" ->
  LEADING_ID_RE_match (ds ++ "_" ++ rest) = Some ds.
Proof.
  intros Hd Hne. unfold LEADING_ID_RE_match.
  rewrite span_digits_all by (assumption || reflexivity).
  destruct ds; [congruence|reflexivity].
Qed.

Lemma STABLE_ID_RE_match_digits prefix ds :
  prefix = "CHG" \/ prefix = "SPEC" ->
  all_chars Py.isdigit ds = true -> ds <> "" ->
  STABLE_ID_RE_match (prefix ++ "-" ++ ds) = Some (prefix, ds).
Proof.
  intros Hp Hd Hne. unfold STABLE_ID_RE_match.
  assert (Hs : span_digits ds = (ds, "")).
  { rewrite <- (span_digits_all ds "" Hd I) at 1. f_equal.
    clear. induction ds; simpl; congruence. }
  destruct Hp as [-> | ->]; cbn -[span_digits]; rewrite Hs;
    destruct ds; [congruence|reflexivity|congruence|reflexivity].
Qed.

(** What a successful call returns: an id of 1 or more, its decimal
    digits behind some zeros, and the prefix of its kind in front. *)
Lemma allocation_shape c w a w' :
  allocate_next_id c w = (Ok a, w') ->
  exists k prefix,
    1 <= id a
    /\ padded_id a = Py.zeros k ++ Py.str (id a)
    /\ stable_id a = prefix ++ "-" ++ padded_id a
    /\ (kind c = "chg" /\ prefix = "CHG" \/ kind c = "spec" /\ prefix = "SPEC").
Proof.
  intros Hrun.
  destruct (@allocate_next_id_ok_plan c w a w' Hrun) as (registry & Hplan & _).
  destruct (@plan_ok_inv c _ _ _ _ a registry Hplan)
    as (prefix & l & sc & reconciled & counters & current
        & Hk & Hp & _ & Hsc & Hrec & Hc & Hcur & -> & _).
  assert (Hnn : 0 <= s_chg sc /\ 0 <= s_spec sc).
  { destruct (scan c); [now apply scan_tree_nonneg in Hsc|].
    injection Hsc as <-. cbn. lia. }
  destruct Hnn as [H1 H2].
  pose proof (@reconcile_counter_nonneg l sc (now w) reconciled counters
                (kind c) current H1 H2 Hrec Hc Hk Hcur) as Hpos.
  cbn [id padded_id stable_id].
  destruct (@str_positive (current + 1)) as (ch & r & Hs & Hsign); [lia|].
  exists (Z.to_nat (pad c - Py.len (Py.str (current + 1)))), prefix.
  split; [lia|]. split; [rewrite Hs; now apply zfill_unsigned|].
  split; [reflexivity|].
  destruct (kind_cases _ Hk) as [E|E]; rewrite E in Hp; cbn in Hp;
    injection Hp as <-; auto.
Qed.

Lemma padded_digits k n :
  0 <= n ->
  all_chars Py.isdigit (Py.zeros k ++ Py.str n) = true
  /\ Py.zeros k ++ Py.str n <> "".
Proof.
  intros Hn. split; [now rewrite all_chars_append, zeros_digits, str_digits|].
  intros E. pose proof (int_of_str_padded k Hn) as H. rewrite E in H.
  discriminate.
Qed.

Lemma ltb_max m v : (if m <? v then v else m) = Z.max m v.
Proof. destruct (Z.ltb_spec m v); lia. Qed.

(** Property X12.  The padded id reads back as the id: [int(padded_id) == id], the
    conversion the scanners apply to the digits they find. *)
Theorem padded_id_reads_back_as_the_id c w a w' :
  allocate_next_id c w = (Ok a, w') ->
  Py.int_of_str (padded_id a) = Ok (id a).
Proof.
  intros Hrun.
  destruct (@allocation_shape c w a w' Hrun) as (k & prefix & Hid & Hp & _).
  rewrite Hp. apply int_of_str_padded. lia.
Qed.

Lemma padded_id_reads_back_as_the_id_witness :
  exists a,
    fst (allocate_next_id chg_call big_world) = Ok a
    /\ Py.int_of_str (padded_id a) = Ok 1234567.
Proof.
  assert (Hrun : allocate_next_id chg_call big_world
                 = (Ok (allocation_of chg_call ["registry.json"] 1234567),
                    snd (allocate_next_id chg_call big_world)))
    by (vm_compute; reflexivity).
  exists (allocation_of chg_call ["registry.json"] 1234567).
  split; [now rewrite Hrun|].
  apply (@padded_id_reads_back_as_the_id chg_call big_world _ _ Hrun).
Defined.

(** Property X13.  A task directory named as [main] and [sa_new.py] name it, the padded
    id, an underscore, the type, an underscore and the slug, is counted
    by the scan with the id it was allocated. *)
Theorem allocated_name_is_found_by_the_scan c w a w' type slug max_chg :
  allocate_next_id c w = (Ok a, w') ->
  LEADING_ID_RE_match (padded_id a ++ "_" ++ type ++ "_" ++ slug)
  = Some (padded_id a)
  /\ bump_chg (padded_id a ++ "_" ++ type ++ "_" ++ slug) max_chg
     = Z.max max_chg (id a).
Proof.
  intros Hrun.
  destruct (@allocation_shape c w a w' Hrun) as (k & prefix & Hid & Hp & _).
  destruct (@padded_digits k (id a)) as [Hd Hne]; [lia|].
  rewrite <- Hp in Hd, Hne.
  assert (Hm : LEADING_ID_RE_match (padded_id a ++ "_" ++ type ++ "_" ++ slug)
               = Some (padded_id a))
    by now apply LEADING_ID_RE_match_digits.
  split; [exact Hm|].
  unfold bump_chg. rewrite Hm, Hp, int_of_str_padded by lia. apply ltb_max.
Qed.

Lemma allocated_name_is_found_by_the_scan_witness :
  bump_chg "000001_fix_login-page" 0 = 1.
Proof.
  assert (Hrun : allocate_next_id chg_call empty_world
                 = (Ok (allocation_of chg_call ["registry.json"] 1),
                    snd (allocate_next_id chg_call empty_world)))
    by (vm_compute; reflexivity).
  apply (proj2 (@allocated_name_is_found_by_the_scan
                  chg_call empty_world _ _ "fix" "login-page" 0 Hrun)).
Defined.

(** Property X14.  The stable id matches [STABLE_ID_RE] with the prefix of the kind and
    the padded id as its groups, and a [spec.md] whose front matter
    declares it raises the scan's maximum for [spec] to the id when the
    kind is [spec] and leaves it alone when the kind is [chg]. *)
Theorem stable_id_is_found_by_the_scan c w a w' text max_spec :
  allocate_next_id c w = (Ok a, w') ->
  sa_util.extract_frontmatter_value text "id" = Some (stable_id a) ->
  (exists prefix,
     Dict.get (kind c) KIND_PREFIX = Some prefix
     /\ STABLE_ID_RE_match (stable_id a) = Some (prefix, padded_id a))
  /\ bump_spec (File (Text text)) max_spec
     = Ok (if String.eqb (kind c) "spec" then Z.max max_spec (id a)
           else max_spec).
Proof.
  intros Hrun Hfm.
  destruct (@allocation_shape c w a w' Hrun) as (k & prefix & Hid & Hp & Hst & Hk).
  destruct (@padded_digits k (id a)) as [Hd Hne]; [lia|].
  rewrite <- Hp in Hd, Hne.
  assert (Hm : STABLE_ID_RE_match (stable_id a) = Some (prefix, padded_id a)).
  { rewrite Hst. apply STABLE_ID_RE_match_digits; tauto. }
  split.
  - exists prefix. split; [|exact Hm].
    destruct Hk as [[-> ->]|[-> ->]]; reflexivity.
  - unfold bump_spec. cbn [read_doc_id rbind]. rewrite Hfm, Hm.
    destruct Hk as [[-> ->]|[-> ->]]; cbn [String.eqb Ascii.eqb Bool.eqb negb];
      [reflexivity|].
    rewrite Hp, int_of_str_padded by lia. now rewrite ltb_max.
Qed.

Lemma stable_id_is_found_by_the_scan_witness :
  bump_spec (File (Text spec_md_text)) 0 = Ok 1.
Proof.
  assert (Hrun : allocate_next_id spec_call empty_world
                 = (Ok (allocation_of spec_call ["registry.json"] 1),
                    snd (allocate_next_id spec_call empty_world)))
    by (vm_compute; reflexivity).
  assert (Hfm : sa_util.extract_frontmatter_value spec_md_text "id"
                = Some (stable_id (allocation_of spec_call ["registry.json"] 1)))
    by (vm_compute; reflexivity).
  apply (proj2 (@stable_id_is_found_by_the_scan
                  spec_call empty_world _ _ spec_md_text 0 Hrun Hfm)).
Defined.

Section MoreDictFacts.
Variable V : Type.
Implicit Types (d : list (string * V)) (k : string) (v : V).

Lemma dict_get_none_notin k d : Dict.get k d = None <-> ~ In k (map fst d).
Proof.
  induction d as [|[k' v'] d IH]; simpl; [tauto|].
  destruct (String.eqb_spec k k') as [->|Hne].
  - split; [discriminate|]. intros H. exfalso. apply H. now left.
  - rewrite IH. split; [intros H [E|E]; [congruence|tauto]|tauto].
Qed.

Lemma dict_set_absent k v d :
  Dict.get k d = None -> Dict.set k v d = (d ++ [(k, v)])%list.
Proof.
  induction d as [|[k' v'] d IH]; simpl; [reflexivity|].
  destruct (String.eqb_spec k k'); [discriminate|].
  intros H. now rewrite IH.
Qed.

Lemma dict_set_keys k v d :
  Dict.get k d <> None -> map fst (Dict.set k v d) = map fst d.
Proof.
  induction d as [|[k' v'] d IH]; simpl; [congruence|].
  destruct (String.eqb_spec k k') as [->|Hne]; [reflexivity|].
  intros H. simpl. now rewrite IH.
Qed.

Lemma dict_get_in k v d : Dict.get k d = Some v -> In (k, v) d.
Proof.
  induction d as [|[k' v'] d IH]; simpl; [discriminate|].
  destruct (String.eqb_spec k k') as [->|Hne].
  - intros [= ->]. now left.
  - intros H. right. now apply IH.
Qed.

Lemma dict_set_in k v d kv :
  In kv (Dict.set k v d) -> kv = (k, v) \/ In kv d.
Proof.
  induction d as [|[k' v'] d IH]; simpl.
  - intros [<-|[]]. now left.
  - destruct (String.eqb_spec k k') as [->|Hne]; simpl.
    + intros [<-|H]; auto.
    + intros [<-|H]; auto. destruct (IH H); auto.
Qed.
End MoreDictFacts.

Lemma NoDup_snoc (A : Type) (l : list A) (x : A) :
  NoDup l -> ~ In x l -> NoDup (l ++ [x]).
Proof.
  induction 1 as [|y l Hy Hl IH]; simpl; intros Hx.
  - constructor; [tauto|constructor].
  - constructor.
    + rewrite in_app_iff. simpl. intros [H|[H|[]]]; [tauto|]. subst. tauto.
    + apply IH. tauto.
Qed.

Lemma int_dict_nil : int_dict [].
Proof. split; constructor. Qed.

Lemma int_dict_set k z d : int_dict d -> int_dict (Dict.set k (JInt z) d).
Proof.
  intros [Hnd Hint]. split.
  - destruct (Dict.get k d) as [x|] eqn:E.
    + rewrite dict_set_keys by congruence. exact Hnd.
    + rewrite dict_set_absent by assumption. rewrite map_app. simpl.
      apply dict_get_none_notin in E.
      apply NoDup_snoc; assumption.
  - apply Forall_forall. intros kv Hin.
    destruct (dict_set_in _ _ _ _ Hin) as [->|H]; [now exists z|].
    rewrite Forall_forall in Hint. now apply Hint.
Qed.

Lemma int_dict_get k d j :
  int_dict d -> Dict.get k d = Some j -> exists z, j = JInt z.
Proof.
  intros [_ Hint] H. apply dict_get_in in H.
  rewrite Forall_forall in Hint. apply (Hint _ H).
Qed.

Lemma normalize_counters_int_dict items : forall acc r,
  int_dict acc -> normalize_counters items acc = Ok r -> int_dict r.
Proof.
  induction items as [|[k v] rest IH]; intros acc r Hacc; simpl.
  - now intros [= <-].
  - destruct (int_or (MsgCounterNotInt k) v) as [z|]; [|discriminate].
    apply IH. now apply int_dict_set.
Qed.

Lemma normalize_counters_keeps items : forall acc,
  int_dict (acc ++ items)%list ->
  normalize_counters items acc = Ok (acc ++ items)%list.
Proof.
  induction items as [|[k v] rest IH]; intros acc Hd; simpl.
  - now rewrite app_nil_r.
  - destruct Hd as [Hnd Hint].
    assert (Hv : exists z, v = JInt z).
    { rewrite Forall_forall in Hint. apply (Hint (k, v)).
      rewrite in_app_iff. right. now left. }
    destruct Hv as [z ->]. cbn [int_or py_int].
    assert (Hk : Dict.get k acc = None).
    { apply dict_get_none_notin. intros Hin.
      rewrite map_app in Hnd. simpl in Hnd.
      apply NoDup_remove_2 in Hnd. apply Hnd.
      rewrite in_app_iff. now left. }
    rewrite dict_set_absent by assumption.
    rewrite (IH (acc ++ [(k, JInt z)])%list); rewrite <- app_assoc;
      [reflexivity|]. split; assumption.
Qed.

Lemma normalize_counters_fixed cs :
  int_dict cs -> normalize_counters cs [] = Ok cs.
Proof. intros H. now apply (normalize_counters_keeps cs []). Qed.

(** What [read_registry] hands over: a version of 1 with an integer
    [last_id], or a version of 2 or more with integer counters. *)
Lemma check_registry_shape j r :
  check_registry j = Ok r ->
  exists v,
    Dict.get "schema_version" r = Some (JInt v)
    /\ (v = 1 /\ (exists L, Dict.get "last_id" r = Some (JInt L))
        \/ 2 <= v /\ exists cs, Dict.get "counters" r = Some (JObj cs)
                                /\ int_dict cs).
Proof.
  unfold check_registry. destruct j as [| | | | | |d]; try discriminate.
  destruct (py_int _) as [v|]; [|discriminate]. cbn [rbind].
  destruct (Z.eqb_spec v 1) as [->|Hne].
  - destruct (Dict.get "last_id" _) as [x|]; [|discriminate].
    destruct (int_or MsgLastIdNotInt x) as [L|]; [|discriminate].
    cbn [rbind]. intros [= <-]. exists 1.
    rewrite dict_get_set_other, dict_get_set_same by discriminate.
    split; [reflexivity|]. left. split; [reflexivity|].
    exists L. apply dict_get_set_same.
  - destruct (Z.leb_spec 2 v) as [Hle|]; [|discriminate].
    set (cs0 := match Dict.get "counters" _ with
                | Some (JObj c) => Ok c | Some JNull | None => Ok []
                | Some _ => _ end).
    destruct cs0 as [c|]; [|discriminate]. cbn [rbind].
    destruct (normalize_counters c []) as [n|] eqn:En; [|discriminate].
    cbn [rbind]. intros [= <-]. exists v.
    rewrite dict_get_set_other, dict_get_set_same by discriminate.
    split; [reflexivity|]. right. split; [assumption|].
    exists n. split; [apply dict_get_set_same|].
    apply (normalize_counters_int_dict c int_dict_nil En).
Qed.

Lemma py_or_int v d : v <> 0 -> py_or (JInt v) d = JInt v.
Proof.
  intros H. unfold py_or, truthy. destruct (Z.eqb_spec v 0); [lia|reflexivity].
Qed.

(** A registry in the shape [read_registry] hands over is loaded as it
    is. *)
Lemma check_registry_of_shape r v :
  Dict.get "schema_version" r = Some (JInt v) ->
  (v = 1 /\ (exists L, Dict.get "last_id" r = Some (JInt L))
   \/ 2 <= v /\ exists cs, Dict.get "counters" r = Some (JObj cs)
                           /\ int_dict cs) ->
  check_registry (JObj r) = Ok r.
Proof.
  intros Hv Hshape. unfold check_registry, Dict.get_default. rewrite Hv.
  rewrite py_or_int by (destruct Hshape as [[-> _]|[H _]]; lia).
  cbn [py_int rbind]. rewrite (dict_set_same _ _ Hv).
  destruct Hshape as [[-> [L HL]]|[Hle (cs & Hcs & Hint)]].
  - cbn [Z.eqb Pos.eqb]. rewrite HL. cbn [int_or py_int rbind].
    now rewrite (dict_set_same _ _ HL).
  - destruct (Z.eqb_spec v 1); [lia|].
    destruct (Z.leb_spec 2 v); [|lia].
    rewrite Hcs. cbn [rbind]. rewrite (normalize_counters_fixed Hint).
    cbn [rbind]. now rewrite (dict_set_same _ _ Hcs).
Qed.

Lemma stored_counter_get loaded cs k :
  Dict.get "counters" loaded = Some (JObj cs) -> int_dict cs ->
  py_int (Dict.get_default k (JInt 0) cs) = Ok (stored_counter loaded k).
Proof.
  intros Hcs Hint. unfold stored_counter, counter_in, Dict.get_default.
  rewrite Hcs. destruct (Dict.get k cs) as [j|] eqn:E; [|reflexivity].
  destruct (int_dict_get _ Hint E) as [z ->]. reflexivity.
Qed.

(** The branch of [allocate_next_id] for a registry of version 2 or
    more: each of the two counters becomes the larger of what is stored
    and what the scan found. *)
Lemma reconcile_version_2_exact loaded v cs sc ts :
  Dict.get "schema_version" loaded = Some (JInt v) -> 2 <= v ->
  Dict.get "counters" loaded = Some (JObj cs) -> int_dict cs ->
  reconcile (Some loaded) sc ts
  = Ok (Dict.set "counters"
          (JObj (Dict.set "spec"
                   (JInt (Z.max (stored_counter loaded "spec") (s_spec sc)))
                   (Dict.set "chg"
                      (JInt (Z.max (stored_counter loaded "chg") (s_chg sc)))
                      cs)))
          (Dict.set "schema_version" (JInt v) loaded)).
Proof.
  intros Hv Hle Hcs Hint.
  pose proof (@stored_counter_get loaded cs "chg" Hcs Hint) as Hchg.
  pose proof (@stored_counter_get loaded cs "spec" Hcs Hint) as Hspec.
  unfold reconcile. unfold Dict.get_default at 1. rewrite Hv.
  cbn [py_int rbind]. destruct (Z.eqb_spec v 1); [lia|].
  assert (Hd : py_dict (py_or (Dict.get_default "counters" JNull loaded)
                              (JObj [])) = Ok cs).
  { unfold Dict.get_default. rewrite Hcs. unfold py_or, truthy.
    destruct cs; reflexivity. }
  rewrite Hd. cbn [rbind]. rewrite Hchg. cbn [rbind].
  assert (Hspec' : py_int (Dict.get_default "spec" (JInt 0)
                     (Dict.set "chg"
                        (JInt (Z.max (stored_counter loaded "chg") (s_chg sc)))
                        cs)) = Ok (stored_counter loaded "spec")).
  { unfold Dict.get_default in *.
    now rewrite dict_get_set_other by discriminate. }
  rewrite Hspec'. cbn [rbind].
  unfold Dict.get_default. rewrite Hv. rewrite py_or_int by lia.
  reflexivity.
Qed.

(** The registry a real call leaves at the registry path: the shape
    [read_registry] accepts as it is, a version of 2 or more, integer
    counters, and the id just returned as the counter of the kind. *)
Lemma persisted_shape c w a w' :
  dry_run c = false ->
  allocate_next_id c w = (Ok a, w') ->
  exists persisted v cs,
    FS.get (fs w') (root c ++ registry_relpath c)%list
    = Some (File (Doc (JObj persisted)))
    /\ Dict.get "schema_version" persisted = Some (JInt v) /\ 2 <= v
    /\ Dict.get "counters" persisted = Some (JObj cs) /\ int_dict cs
    /\ Dict.get (kind c) cs = Some (JInt (id a)).
Proof.
  intros Hdry Hrun.
  destruct (@allocate_next_id_ok_plan c w a w' Hrun) as (registry & Hplan & Hper).
  specialize (Hper Hdry).
  destruct (@plan_ok_inv c _ _ _ _ a registry Hplan)
    as (prefix & l & sc & reconciled & counters & current
        & Hk & _ & Hl & _ & Hrec & Hc & Hcur & -> & ->).
  cbn [id].
  assert (Hshape : exists v, Dict.get "schema_version" reconciled = Some (JInt v)
                             /\ 2 <= v /\ int_dict counters).
  { assert (Hfresh : forall chg spec,
               reconciled = fresh_registry chg spec (now w) ->
               exists v, Dict.get "schema_version" reconciled = Some (JInt v)
                         /\ 2 <= v /\ int_dict counters).
    { intros chg spec ->. cbn in Hc. injection Hc as <-. exists 2.
      split; [reflexivity|]. split; [lia|].
      apply (@int_dict_set "spec" spec [("chg", JInt chg)]).
      apply (@int_dict_set "chg" chg []). apply int_dict_nil. }
    destruct l as [loaded|];
      [|apply (Hfresh (s_chg sc) (s_spec sc)); unfold reconcile in Hrec;
        congruence].
    assert (Hchk : exists j, check_registry j = Ok loaded).
    { unfold registry_of_node in Hl.
      destruct (FS.get (fs w) _) as [[[j| |]|]|]; try discriminate.
      destruct (check_registry j) eqn:E; [|discriminate].
      injection Hl as <-. eauto. }
    destruct Hchk as [j Hchk].
    destruct (check_registry_shape _ Hchk)
      as (v & Hv & [[-> [L HL]]|[Hle (cs & Hcs & Hint)]]).
    - rewrite (@reconcile_version_1 loaded L sc (now w)) in Hrec
        by (split; assumption).
      apply (Hfresh (Z.max (s_chg sc) L) (s_spec sc)). congruence.
    - rewrite (@reconcile_version_2_exact loaded v cs sc (now w) Hv Hle Hcs Hint)
        in Hrec.
      injection Hrec as <-. exists v.
      rewrite dict_get_set_same in Hc. injection Hc as <-.
      rewrite dict_get_set_other, dict_get_set_same by discriminate.
      split; [reflexivity|]. split; [assumption|].
      now apply int_dict_set, int_dict_set. }
  destruct Hshape as (v & Hv & Hle & Hint).
  eexists _, v, _. split; [exact Hper|].
  rewrite !dict_get_set_other by discriminate.
  split; [exact Hv|]. split; [exact Hle|].
  rewrite dict_get_set_same.
  split; [reflexivity|]. split; [now apply int_dict_set|].
  apply dict_get_set_same.
Qed.

Lemma read_registry_ok_inv p w r w' :
  read_registry p w = (Ok (Some r), w') ->
  exists j, FS.get (fs w) p = Some (File (Doc j)) /\ check_registry j = Ok r.
Proof.
  unfold read_registry, bind, Sys.path_exists, Sys.load_json, lift, ret.
  cbn [fs log].
  destruct (FS.get (fs w) p) as [[[j| |]|]|] eqn:E0; cbn -[check_registry];
    rewrite ?E0; try discriminate.
  destruct (check_registry j) as [r0|] eqn:E; [|discriminate].
  intros [= <- _]. eauto.
Qed.

(** Property X8.  What [read_registry] returns is a registry of version 1 with an
    integer [last_id] or one of version 2 or more with a [counters]
    dictionary of integers, never a version below 1; and a file that
    holds what it returned is read as that very registry again. *)
Theorem read_registry_returns_a_normal_form p w r w' :
  read_registry p w = (Ok (Some r), w') ->
  (exists v,
     Dict.get "schema_version" r = Some (JInt v) /\ 1 <= v
     /\ (v = 1 -> exists L, Dict.get "last_id" r = Some (JInt L))
     /\ (2 <= v ->
         exists cs, Dict.get "counters" r = Some (JObj cs)
                    /\ forall k j, Dict.get k cs = Some j ->
                                   exists z, j = JInt z))
  /\ forall w2, FS.get (fs w2) p = Some (File (Doc (JObj r))) ->
                fst (read_registry p w2) = Ok (Some r).
Proof.
  intros Hrun. destruct (@read_registry_ok_inv p w r w' Hrun) as (j & _ & Hchk).
  destruct (@check_registry_shape j r Hchk) as (v & Hv & Hshape).
  split.
  - exists v. split; [exact Hv|].
    destruct Hshape as [[-> HL]|[Hle (cs & Hcs & Hint)]].
    + split; [lia|]. split; [auto|lia].
    + split; [lia|]. split; [lia|]. intros _. exists cs. split; [exact Hcs|].
      intros k x Hk. apply (@int_dict_get k cs x Hint Hk).
  - intros w2 Hw2. rewrite (@read_registry_doc p w2 _ Hw2).
    now rewrite (@check_registry_of_shape r v Hv Hshape).
Qed.

Lemma read_registry_returns_a_normal_form_witness :
  fst (read_registry ["registry.json"]
         (World (Dir [("registry.json",
                       File (Doc (JObj [("schema_version", JInt 2);
                                        ("counters",
                                         JObj [("chg", JInt 1);
                                               ("doc", JInt 7)])])))])
                [] "2026-01-01T00:00:00Z" false [] []))
  = Ok (Some [("schema_version", JInt 2);
              ("counters", JObj [("chg", JInt 1); ("doc", JInt 7)])]).
Proof.
  assert (Hrun : read_registry ["registry.json"]
                   (World (Dir [("registry.json",
                                 File (Doc (JObj string_counter_registry)))])
                          [] "2026-01-01T00:00:00Z" false [] [])
                 = (Ok (Some [("schema_version", JInt 2);
                              ("counters",
                               JObj [("chg", JInt 1); ("doc", JInt 7)])]),
                    snd (read_registry ["registry.json"]
                   (World (Dir [("registry.json",
                                 File (Doc (JObj string_counter_registry)))])
                          [] "2026-01-01T00:00:00Z" false [] []))))
    by (vm_compute; reflexivity).
  apply (proj2 (@read_registry_returns_a_normal_form _ _ _ _ Hrun)).
  reflexivity.
Defined.

(** Property X9.  The registry a real allocation has written is read back by
    [read_registry] as the very document written, with the id just
    returned as the counter of the kind. *)
Theorem persisted_registry_loads_back c w a w' :
  dry_run c = false ->
  allocate_next_id c w = (Ok a, w') ->
  exists persisted,
    persisted_registry w' (root c ++ registry_relpath c)%list = Some persisted
    /\ fst (read_registry (root c ++ registry_relpath c)%list w')
       = Ok (Some persisted)
    /\ counter_in persisted (kind c) = Some (JInt (id a)).
Proof.
  intros Hdry Hrun.
  destruct (@persisted_shape c w a w' Hdry Hrun)
    as (persisted & v & cs & Hper & Hv & Hle & Hcs & Hint & Hk).
  exists persisted. unfold persisted_registry. rewrite Hper.
  split; [reflexivity|]. split.
  - rewrite (@read_registry_doc _ w' _ Hper).
    rewrite (@check_registry_of_shape persisted v Hv); [reflexivity|].
    right. eauto.
  - unfold counter_in. now rewrite Hcs.
Qed.

Lemma persisted_registry_loads_back_witness :
  exists persisted,
    fst (read_registry ["registry.json"]
           (snd (allocate_next_id chg_call extended_world)))
    = Ok (Some persisted)
    /\ counter_in persisted "chg" = Some (JInt 5).
Proof.
  assert (Hrun : allocate_next_id chg_call extended_world
                 = (Ok (allocation_of chg_call ["registry.json"] 5),
                    snd (allocate_next_id chg_call extended_world)))
    by (vm_compute; reflexivity).
  destruct (@persisted_registry_loads_back chg_call extended_world _ _
              eq_refl Hrun) as (persisted & _ & Hread & Hctr).
  exists persisted. split; assumption.
Defined.

(** What a call against a loaded registry of version 2 or more returns
    and leaves, from the shape of that registry. *)
Lemma allocation_from_version_2 c w a w' loaded v cs :
  registry_of_node (FS.get (fs w) (root c ++ registry_relpath c)%list)
  = Ok (Some loaded) ->
  Dict.get "schema_version" loaded = Some (JInt v) -> 2 <= v ->
  Dict.get "counters" loaded = Some (JObj cs) -> int_dict cs ->
  allocate_next_id c w = (Ok a, w') ->
  exists sc,
    (if scan c
     then scan_tree (fs w) (root c ++ FS.parent (registry_relpath c))%list
     else Ok no_scan) = Ok sc
    /\ kind_in_choices (kind c) = true
    /\ id a = Z.max (stored_counter loaded (kind c))
                    (counter_of (kind c) (s_chg sc) (s_spec sc)) + 1
    /\ (dry_run c = false ->
        exists persisted,
          FS.get (fs w') (root c ++ registry_relpath c)%list
          = Some (File (Doc (JObj persisted)))
          /\ forall k,
               counter_in persisted k
               = Dict.get k
                   (Dict.set (kind c) (JInt (id a))
                      (Dict.set "spec"
                         (JInt (Z.max (stored_counter loaded "spec") (s_spec sc)))
                         (Dict.set "chg"
                            (JInt (Z.max (stored_counter loaded "chg") (s_chg sc)))
                            cs)))).
Proof.
  intros Hl Hv Hle Hcs Hint Hrun.
  destruct (@allocate_next_id_ok_plan c w a w' Hrun) as (registry & Hplan & Hper).
  destruct (@plan_ok_inv c _ _ _ _ a registry Hplan)
    as (prefix & l & sc & reconciled & counters & current
        & Hk & _ & Hl' & Hsc & Hrec & Hc & Hcur & -> & ->).
  rewrite Hl in Hl'. injection Hl' as <-.
  rewrite (@reconcile_version_2_exact loaded v cs sc (now w) Hv Hle Hcs Hint)
    in Hrec.
  injection Hrec as <-. rewrite dict_get_set_same in Hc. injection Hc as <-.
  exists sc. split; [exact Hsc|]. split; [exact Hk|]. cbn [id].
  assert (Hcurrent : current = Z.max (stored_counter loaded (kind c))
                                 (counter_of (kind c) (s_chg sc) (s_spec sc))).
  { unfold Dict.get_default, counter_of in *.
    destruct (kind_cases _ Hk) as [E|E]; rewrite E in *; cbn [String.eqb Ascii.eqb Bool.eqb].
    - rewrite dict_get_set_other, dict_get_set_same in Hcur by discriminate.
      now injection Hcur as <-.
    - rewrite dict_get_set_same in Hcur. now injection Hcur as <-. }
  split; [now rewrite Hcurrent|].
  intros Hdry. specialize (Hper Hdry). eexists. split; [exact Hper|].
  intros k. unfold counter_in.
  now rewrite dict_get_set_other, dict_get_set_same by discriminate.
Qed.

Lemma stored_counter_of_get loaded cs k :
  Dict.get "counters" loaded = Some (JObj cs) ->
  stored_counter loaded k
  = match Dict.get k cs with Some (JInt z) => z | _ => 0 end.
Proof. intros H. unfold stored_counter, counter_in. now rewrite H. Qed.

(** Property X10.  Against a registry loaded with schema version 2 or more, the id
    returned is one more than the larger of the stored counter of the
    kind and the maximum the scan found for it (0 with scanning off).  A
    real call persists that id as the counter of the kind, brings the
    counter of the other kind up to the scan's maximum for it, and
    lowers no counter. *)
Theorem version_2_counters_only_rise c w a w' doc loaded v :
  FS.get (fs w) (root c ++ registry_relpath c)%list
  = Some (File (Doc (JObj doc))) ->
  check_registry (JObj doc) = Ok loaded ->
  Dict.get "schema_version" loaded = Some (JInt v) -> 2 <= v ->
  allocate_next_id c w = (Ok a, w') ->
  exists sc,
    (if scan c
     then scan_tree (fs w) (root c ++ FS.parent (registry_relpath c))%list
     else Ok no_scan) = Ok sc
    /\ id a = Z.max (stored_counter loaded (kind c))
                    (counter_of (kind c) (s_chg sc) (s_spec sc)) + 1
    /\ (dry_run c = false ->
        exists persisted,
          persisted_registry w' (root c ++ registry_relpath c)%list
          = Some persisted
          /\ stored_counter persisted (kind c) = id a
          /\ (forall k, kind_in_choices k = true -> k <> kind c ->
                        stored_counter persisted k
                        = Z.max (stored_counter loaded k)
                                (counter_of k (s_chg sc) (s_spec sc)))
          /\ forall k, stored_counter loaded k <= stored_counter persisted k).
Proof.
  intros Hdoc Hchk Hv Hle Hrun.
  destruct (@check_registry_shape _ _ Hchk) as (v' & Hv' & Hshape).
  rewrite Hv in Hv'. injection Hv' as <-.
  destruct Hshape as [[-> _]|[_ (cs & Hcs & Hint)]]; [lia|].
  assert (Hl : registry_of_node
                 (FS.get (fs w) (root c ++ registry_relpath c)%list)
               = Ok (Some loaded)).
  { rewrite Hdoc. cbn [registry_of_node]. now rewrite Hchk. }
  destruct (@allocation_from_version_2 c w a w' loaded v cs
              Hl Hv Hle Hcs Hint Hrun)
    as (sc & Hsc & Hk & Hid & Hper).
  exists sc. split; [exact Hsc|]. split; [exact Hid|].
  intros Hdry. destruct (Hper Hdry) as (persisted & Hp & Hctr).
  exists persisted. unfold persisted_registry. rewrite Hp.
  split; [reflexivity|].
  assert (Hst : forall k,
             stored_counter persisted k
             = match counter_in persisted k with
               | Some (JInt z) => z | _ => 0 end) by reflexivity.
  split; [now rewrite Hst, Hctr, dict_get_set_same|].
  split.
  - intros k Hkc Hne. rewrite Hst, Hctr.
    rewrite dict_get_set_other by assumption.
    destruct (kind_cases _ Hkc) as [-> | ->].
    + destruct (kind_cases _ Hk) as [E|E]; [congruence|].
      now rewrite dict_get_set_other, dict_get_set_same by discriminate.
    + now rewrite dict_get_set_same.
  - intros k. rewrite Hst, Hctr.
    rewrite (@stored_counter_of_get loaded cs k Hcs).
    destruct (String.eqb_spec k (kind c)) as [->|Hne1].
    + rewrite dict_get_set_same, Hid,
        (@stored_counter_of_get loaded cs (kind c) Hcs). lia.
    + rewrite dict_get_set_other by assumption.
      destruct (String.eqb_spec k "spec") as [->|Hne2].
      * rewrite dict_get_set_same,
          (@stored_counter_of_get loaded cs "spec" Hcs). lia.
      * rewrite dict_get_set_other by assumption.
        destruct (String.eqb_spec k "chg") as [->|Hne3].
        -- rewrite dict_get_set_same,
             (@stored_counter_of_get loaded cs "chg" Hcs). lia.
        -- rewrite dict_get_set_other by assumption. lia.
Qed.

Lemma version_2_counters_only_rise_witness :
  exists a,
    fst (allocate_next_id chg_call extended_world) = Ok a
    /\ id a = Z.max 4 0 + 1.
Proof.
  assert (Hrun : allocate_next_id chg_call extended_world
                 = (Ok (allocation_of chg_call ["registry.json"] 5),
                    snd (allocate_next_id chg_call extended_world)))
    by (vm_compute; reflexivity).
  assert (Hchk : check_registry (JObj extended_registry) = Ok extended_registry)
    by (vm_compute; reflexivity).
  assert (Hle : 2 <= 2) by lia.
  destruct (@version_2_counters_only_rise chg_call extended_world _ _
              extended_registry extended_registry 2
              eq_refl Hchk eq_refl Hle Hrun) as (sc & Hsc & Hid & _).
  exists (allocation_of chg_call ["registry.json"] 5).
  split; [now rewrite Hrun|].
  cbn in Hsc. injection Hsc as <-. exact Hid.
Defined.

(** Property X11.  Once a real call has returned an id, every later call for the same
    registry file and the same kind that finds the registry as that call
    left it returns a larger id, whatever its padding, its scanning and
    the rest of the tree. *)
Theorem later_allocations_return_larger_ids c1 w a1 w1 c2 w2 a2 w3 :
  dry_run c1 = false ->
  allocate_next_id c1 w = (Ok a1, w1) ->
  (root c2 ++ registry_relpath c2)%list = (root c1 ++ registry_relpath c1)%list ->
  kind c2 = kind c1 ->
  FS.get (fs w2) (root c1 ++ registry_relpath c1)%list
  = FS.get (fs w1) (root c1 ++ registry_relpath c1)%list ->
  allocate_next_id c2 w2 = (Ok a2, w3) ->
  id a1 < id a2.
Proof.
  intros Hdry Hrun1 Hrp Hkind Hsame Hrun2.
  destruct (@persisted_shape c1 w a1 w1 Hdry Hrun1)
    as (persisted & v & cs & Hper & Hv & Hle & Hcs & Hint & Hk).
  assert (Hl : registry_of_node
                 (FS.get (fs w2) (root c2 ++ registry_relpath c2)%list)
               = Ok (Some persisted)).
  { rewrite Hrp, Hsame, Hper. cbn [registry_of_node].
    rewrite (@check_registry_of_shape persisted v Hv); [reflexivity|].
    right. eauto. }
  destruct (@allocation_from_version_2 c2 w2 a2 w3 persisted v cs
              Hl Hv Hle Hcs Hint Hrun2)
    as (sc & _ & _ & Hid & _).
  rewrite Hid, Hkind, (@stored_counter_of_get persisted cs (kind c1) Hcs), Hk.
  lia.
Qed.

Lemma later_allocations_return_larger_ids_witness :
  exists a1 a2,
    fst (allocate_next_id chg_call extended_world) = Ok a1
    /\ fst (allocate_next_id preview_call
              (snd (allocate_next_id chg_call extended_world))) = Ok a2
    /\ id a1 < id a2.
Proof.
  assert (Hrun1 : allocate_next_id chg_call extended_world
                  = (Ok (allocation_of chg_call ["registry.json"] 5),
                     snd (allocate_next_id chg_call extended_world)))
    by (vm_compute; reflexivity).
  assert (Hrun2 : allocate_next_id preview_call
                    (snd (allocate_next_id chg_call extended_world))
                  = (Ok (allocation_of preview_call ["registry.json"] 6),
                     snd (allocate_next_id preview_call
                            (snd (allocate_next_id chg_call extended_world)))))
    by (vm_compute; reflexivity).
  exists (allocation_of chg_call ["registry.json"] 5),
         (allocation_of preview_call ["registry.json"] 6).
  split; [now rewrite Hrun1|]. split; [now rewrite Hrun2|].
  apply (@later_allocations_return_larger_ids
           chg_call extended_world _ _ preview_call _ _ _
           eq_refl Hrun1 eq_refl eq_refl eq_refl Hrun2).
Defined.

Lemma mkdir_p_twice n d n1 : FS.mkdir_p n d = Ok n1 -> FS.mkdir_p n1 d = Ok n1.
Proof.
  intros H. destruct (@mkdir_p_dir n d n1 H) as (es & Hes & _).
  apply (@mkdir_p_existing n1 d es Hes).
Qed.

Lemma write_json_atomic_mkdir p data w n1 :
  FS.mkdir_p (fs w) (FS.parent p) = Ok n1 ->
  write_json_atomic p data w = write_json_atomic p data (with_fs w n1).
Proof.
  intros H. unfold write_json_atomic. unfold bind at 1 4.
  unfold Sys.mkdir_parents. cbn [fs with_fs].
  now rewrite H, (mkdir_p_twice _ _ H).
Qed.

Lemma write_json_atomic_mkdir_fails p data w e :
  FS.mkdir_p (fs w) (FS.parent p) = Err e ->
  write_json_atomic p data w = (Err e, log (EvMkdir (FS.parent p)) w).
Proof.
  intros H. unfold write_json_atomic. unfold bind at 1.
  unfold Sys.mkdir_parents. now rewrite H.
Qed.

Lemma write_json_atomic_onto_dir w d es nm es' data :
  FS.get (fs w) d = Some (Dir es) ->
  Dict.get nm es = Some (Dir es') ->
  exists e w',
    write_json_atomic (d ++ [nm])%list data w = (Err e, w')
    /\ FS.get (fs w') (d ++ [nm])%list = Some (Dir es')
    /\ same_env w w'.
Proof.
  intros Hd Hnm. unfold write_json_atomic, bind, tmp_path_of.
  rewrite (mkdir_parents_at _ _ Hd nm).
  rewrite with_name_snoc, name_snoc. unfold lift.
  set (w1 := log (EvMkdir d) w).
  assert (Hd1 : FS.get (fs w1) d = Some (Dir es)) by exact Hd.
  rewrite (dump_json_at _ _ Hd1).
  change (write_fault w1) with (write_fault w).
  assert (Hne : nm <> nm ++ ".tmp")
    by (intros H; symmetry in H; now apply tmp_neq_name in H).
  assert (Hkeep : forall v,
             FS.get (FS.put (fs w) (d ++ [(nm ++ ".tmp")%string])%list v)
                    (d ++ [nm])%list = Some (Dir es')).
  { intros v. rewrite (@get_child _ d nm _ (@get_put _ d _ v es Hd)).
    now rewrite dict_get_set_other. }
  assert (Hsame : FS.get (fs w) (d ++ [nm])%list = Some (Dir es'))
    by now rewrite (@get_child _ d nm es Hd).
  destruct (Dict.get (nm ++ ".tmp") es) as [[c|es2]|] eqn:Et.
  2: { eexists _, _. split; [reflexivity|]. split; [exact Hsame|].
       now repeat split. }
  all: destruct (write_fault w) eqn:Ef.
  all: try (eexists _, _; split; [reflexivity|]; split; [apply Hkeep|];
            now repeat split).
  all: unfold Sys.replace; cbn [fs with_fs log];
    rewrite (@get_child _ d (nm ++ ".tmp") _ (@get_put _ d _ _ es Hd)),
            dict_get_set_same, Hkeep;
    eexists _, _; (split; [reflexivity|]); (split; [apply Hkeep|]);
    now repeat split.
Qed.

Lemma write_json_atomic_ok_inv p data w w' :
  write_json_atomic p data w = (Ok tt, w') ->
  fst (Sys.load_json p w') = Ok data
  /\ (exists tp, tmp_path_of p = Ok tp /\ FS.get (fs w') tp = None)
  /\ FS.is_dir (fs w') (FS.parent p) = true
  /\ same_env w w'.
Proof.
  intros Hrun.
  destruct (path_cases p) as [->|(d & nm & ->)].
  { exfalso. unfold write_json_atomic, bind, Sys.mkdir_parents in Hrun.
    cbn in Hrun. destruct (fs w); cbn in Hrun; discriminate. }
  destruct (FS.mkdir_p (fs w) (FS.parent (d ++ [nm])%list)) as [n1|e] eqn:Hmk.
  2: { rewrite (write_json_atomic_mkdir_fails _ _ _ Hmk) in Hrun. discriminate. }
  rewrite (write_json_atomic_mkdir _ _ _ Hmk) in Hrun.
  rewrite parent_snoc in Hmk.
  destruct (@mkdir_p_dir _ _ _ Hmk) as (es & Hes & _).
  assert (Hd : FS.get (fs (with_fs w n1)) d = Some (Dir es)) by exact Hes.
  destruct (Dict.get nm es) as [[c|es']|] eqn:Enm.
  2: { destruct (@write_json_atomic_onto_dir _ d es nm es' data Hd Enm)
         as (e & w2 & H & _). rewrite H in Hrun. discriminate. }
  all: assert (Hreg : forall es', Dict.get nm es <> Some (Dir es'))
         by (intros es'; rewrite Enm; discriminate).
  all: destruct (@write_json_atomic_at _ d es nm data Hd Hreg)
         as (w2 & H & Hd2 & Henv & _).
  all: rewrite H in Hrun; injection Hrun as Hok <-.
  all: unfold write_outcome in Hok, Hd2; cbn [write_fault with_fs] in Hok, Hd2.
  all: destruct (Dict.get (nm ++ ".tmp") es) as [[c'|es2]|];
         try discriminate; destruct (write_fault w); try discriminate;
         cbn [snd] in Hd2.
  all: split;
    [ rewrite (@load_json_at _ d _ Hd2 nm), dict_get_set_same; reflexivity | ].
  all: split;
    [ exists (d ++ [(nm ++ ".tmp")%string])%list; split;
      [ unfold tmp_path_of; now rewrite with_name_snoc, name_snoc
      | rewrite (@get_child _ d (nm ++ ".tmp") _ Hd2),
          dict_get_set_other by apply tmp_neq_name;
        apply dict_get_remove_same ] | ].
  all: split; [apply (@is_dir_parent _ d nm _ Hd2)|exact Henv].
Qed.

(** Property X1.  When [write_json_atomic] returns, the file at [path] holds the
    document given, so [json.load] reads it back; the temporary file is
    gone, the parent directory exists, and nothing else of the
    environment has changed. *)
Theorem write_json_atomic_round_trip p data w w' :
  write_json_atomic p data w = (Ok tt, w') ->
  fst (Sys.load_json p w') = Ok data
  /\ (exists tp, tmp_path_of p = Ok tp /\ FS.get (fs w') tp = None)
  /\ FS.is_dir (fs w') (FS.parent p) = true
  /\ same_env w w'.
Proof. apply write_json_atomic_ok_inv. Qed.

Lemma write_json_atomic_round_trip_witness :
  fst (Sys.load_json ["superagents"; ".sa"; "registry.json"]
         (snd (write_json_atomic ["superagents"; ".sa"; "registry.json"]
                 (JObj (fresh_registry 5 0 "2026-01-01T00:00:00Z"))
                 empty_world)))
  = Ok (JObj (fresh_registry 5 0 "2026-01-01T00:00:00Z")).
Proof.
  assert (Hrun : write_json_atomic ["superagents"; ".sa"; "registry.json"]
                   (JObj (fresh_registry 5 0 "2026-01-01T00:00:00Z"))
                   empty_world
                 = (Ok tt,
                    snd (write_json_atomic
                           ["superagents"; ".sa"; "registry.json"]
                           (JObj (fresh_registry 5 0 "2026-01-01T00:00:00Z"))
                           empty_world)))
    by (vm_compute; reflexivity).
  apply (proj1 (@write_json_atomic_round_trip _ _ _ _ Hrun)).
Defined.

Lemma write_json_atomic_err_inv p data w e w' :
  write_json_atomic p data w = (Err e, w') ->
  FS.get (fs w') p = FS.get (fs w) p /\ same_env w w'.
Proof.
  intros Hrun.
  destruct (path_cases p) as [->|(d & nm & ->)].
  { unfold write_json_atomic, bind, Sys.mkdir_parents in Hrun.
    cbn in Hrun. destruct (fs w) eqn:E; cbn in Hrun;
      injection Hrun as _ <-; cbn; rewrite ?E; now repeat split. }
  destruct (FS.mkdir_p (fs w) (FS.parent (d ++ [nm])%list)) as [n1|e1] eqn:Hmk.
  2: { rewrite (write_json_atomic_mkdir_fails _ _ _ Hmk) in Hrun.
       injection Hrun as _ <-. now repeat split. }
  rewrite (write_json_atomic_mkdir _ _ _ Hmk) in Hrun.
  rewrite parent_snoc in Hmk.
  rewrite <- (@mkdir_p_below (fs w) d n1 nm [] Hmk).
  destruct (@mkdir_p_dir _ _ _ Hmk) as (es & Hes & _).
  assert (Hd : FS.get (fs (with_fs w n1)) d = Some (Dir es)) by exact Hes.
  rewrite (@get_child n1 d nm es Hes).
  destruct (Dict.get nm es) as [[c|es']|] eqn:Enm.
  2: { destruct (@write_json_atomic_onto_dir _ d es nm es' data Hd Enm)
         as (e2 & w2 & H & Hget & Henv). rewrite H in Hrun.
       injection Hrun as _ <-. split; [exact Hget|exact Henv]. }
  all: assert (Hreg : forall es', Dict.get nm es <> Some (Dir es'))
         by (intros es'; rewrite Enm; discriminate).
  all: destruct (@write_json_atomic_at _ d es nm data Hd Hreg)
         as (w2 & H & Hd2 & Henv & _).
  all: rewrite H in Hrun; injection Hrun as Hok <-.
  all: split; [|exact Henv].
  all: rewrite (@get_child _ d nm _ Hd2).
  all: unfold write_outcome in Hok |- *; cbn [write_fault with_fs] in Hok |- *.
  all: destruct (Dict.get (nm ++ ".tmp") es) as [[c'|es2]|];
         try discriminate; destruct (write_fault w); try discriminate;
         cbn [snd]; rewrite ?dict_get_set_other
           by (intros E; symmetry in E; now apply tmp_neq_name in E);
         assumption.
Qed.

(** Property X2.  When [write_json_atomic] raises, whatever the reason, the entry at
    [path] is what it was before the call: the old document is never
    left half written. *)
Theorem write_json_atomic_failure_keeps_the_target p data w e w' :
  write_json_atomic p data w = (Err e, w') ->
  FS.get (fs w') p = FS.get (fs w) p /\ same_env w w'.
Proof. apply write_json_atomic_err_inv. Qed.

Lemma write_json_atomic_failure_keeps_the_target_witness :
  FS.get (fs (snd (write_json_atomic ["registry.json"] (JObj [])
                     full_disk_world))) ["registry.json"]
  = Some (File (Doc (JObj extended_registry))).
Proof.
  assert (Hrun : write_json_atomic ["registry.json"] (JObj []) full_disk_world
                 = (Err (OSError NoSpaceError),
                    snd (write_json_atomic ["registry.json"] (JObj [])
                           full_disk_world)))
    by (vm_compute; reflexivity).
  apply (proj1 (@write_json_atomic_failure_keeps_the_target _ _ _ _ _ Hrun)).
Defined.

Lemma call_outcome_err c rp entry tmp scanned ts fault e :
  returned (call_outcome c rp entry tmp scanned ts fault) = Err e ->
  registry_after (call_outcome c rp entry tmp scanned ts fault) = entry.
Proof.
  unfold call_outcome.
  destruct (plan c rp entry scanned ts) as [[a reg]|e0]; [|reflexivity].
  destruct (dry_run c); [reflexivity|].
  destruct tmp as [[x|es]|]; try reflexivity; destruct fault;
    try reflexivity; discriminate.
Qed.

(** Every exit of a call leaves the descriptors, the clock, the device
    and the standard output as they were. *)
Lemma allocate_next_id_same_env c w r w' :
  allocate_next_id c w = (r, w') -> same_env w w'.
Proof.
  intros Hrun.
  destruct (path_cases (root c ++ registry_relpath c)%list)
    as [Hrp|(d & nm & Hrp)].
  { rewrite (@allocate_next_id_no_name c w Hrp) in Hrun.
    injection Hrun as _ <-. apply same_env_refl. }
  destruct (FS.mkdir_p (fs w) d) as [n1|e1] eqn:Hmk.
  2: { rewrite (@allocate_next_id_mkdir_fails c w d nm e1 Hrp Hmk) in Hrun.
       injection Hrun as _ <-. now repeat split. }
  destruct (FS.get (fs w) (d ++ [(nm ++ ".lock")%string])%list) as [x|] eqn:Hl.
  { rewrite (@allocate_next_id_blocked c w d nm n1 x Hrp Hmk Hl) in Hrun.
    injection Hrun as _ <-. now repeat split. }
  destruct (@allocate_next_id_spec c w d nm n1 Hrp Hmk Hl)
    as (w1 & evs & Hrun1 & _ & _ & _ & Henv & _).
  rewrite Hrun in Hrun1. now injection Hrun1 as _ ->.
Qed.

(** Property X7.  A call that raises, whatever the reason, leaves the entry at the
    registry path and the entry at the lock path as it found them, and
    no descriptor open that was not open before. *)
Theorem failed_call_keeps_the_registry c w e w' lp :
  allocate_next_id c w = (Err e, w') ->
  FS.with_name (root c ++ registry_relpath c)%list
               (FS.name (root c ++ registry_relpath c)%list ++ ".lock") = Ok lp ->
  FS.get (fs w') (root c ++ registry_relpath c)%list
  = FS.get (fs w) (root c ++ registry_relpath c)%list
  /\ FS.get (fs w') lp = FS.get (fs w) lp
  /\ fds w' = fds w.
Proof.
  intros Hrun Hlp.
  split; [|split; [|apply (@allocate_next_id_same_env c w _ _ Hrun)]].
  all: destruct (path_cases (root c ++ registry_relpath c)%list)
         as [Hrp|(d & nm & Hrp)];
    [ rewrite (@allocate_next_id_no_name c w Hrp) in Hrun;
      now injection Hrun as _ <- | ].
  all: rewrite Hrp in *; rewrite name_snoc, with_name_snoc in Hlp;
    injection Hlp as <-.
  all: destruct (FS.mkdir_p (fs w) d) as [n1|e1] eqn:Hmk;
    [ | rewrite (@allocate_next_id_mkdir_fails c w d nm e1 Hrp Hmk) in Hrun;
        now injection Hrun as _ <- ].
  all: destruct (FS.get (fs w) (d ++ [(nm ++ ".lock")%string])%list)
         as [x|] eqn:Hl;
    [ rewrite (@allocate_next_id_blocked c w d nm n1 x Hrp Hmk Hl) in Hrun;
      injection Hrun as _ <-; cbn [fs logs with_fs];
      first [ apply (@mkdir_p_below (fs w) d n1 _ [] Hmk)
            | rewrite (@mkdir_p_below (fs w) d n1 _ [] Hmk); exact Hl ] | ].
  all: destruct (@allocate_next_id_spec c w d nm n1 Hrp Hmk Hl)
         as (w1 & evs & Hrun1 & Hreg & _ & Hlock & _).
  all: rewrite Hrun in Hrun1; injection Hrun1 as Hret <-.
  - rewrite Hreg. symmetry in Hret. apply (call_outcome_err _ _ _ _ _ _ _ Hret).
  - rewrite Hlock. reflexivity.
Qed.

Lemma failed_call_keeps_the_registry_witness :
  FS.get (fs (snd (allocate_next_id chg_call full_disk_world))) ["registry.json"]
  = Some (File (Doc (JObj extended_registry))).
Proof.
  assert (Hrun : allocate_next_id chg_call full_disk_world
                 = (Err (OSError NoSpaceError),
                    snd (allocate_next_id chg_call full_disk_world)))
    by (vm_compute; reflexivity).
  apply (proj1 (@failed_call_keeps_the_registry chg_call full_disk_world
                  _ _ ["registry.json.lock"] Hrun eq_refl)).
Defined.

(** Property X6.  A lock file that is there when a call starts is never
    removed or taken over.  After making the lock directory the call
    tries one or more times to create the file and nothing else; with a
    time-out that is up sooner or later it then raises [TimeoutError],
    and the world is what it was but for the record of these system
    calls; with a time-out that is not a number or positive infinity it
    never returns. *)
Theorem held_lock_is_never_broken c w lp x :
  FS.with_name (root c ++ registry_relpath c)%list
               (FS.name (root c ++ registry_relpath c)%list ++ ".lock") = Ok lp ->
  FS.get (fs w) lp = Some x ->
  if runs_out (timeout_sec c) then
    exists attempts,
      (1 <= attempts)%nat
      /\ allocate_next_id c w
         = (Err TimeoutError,
            logs (EvMkdir (FS.parent lp) :: repeat (EvOpenExcl lp) attempts)
                 w)
  else fst (allocate_next_id c w) = Err NeverReturns.
Proof.
  intros Hlp Hx.
  destruct (path_cases (root c ++ registry_relpath c)%list)
    as [Hrp|(d & nm & Hrp)].
  { rewrite Hrp in Hlp. discriminate. }
  rewrite Hrp, name_snoc, with_name_snoc in Hlp. injection Hlp as <-.
  destruct (@parent_is_dir _ _ _ _ Hx) as [es Hd].
  rewrite (@allocate_next_id_blocked c w d nm (fs w) x Hrp
             (@mkdir_p_existing _ _ _ Hd) Hx).
  rewrite parent_snoc.
  destruct (runs_out (timeout_sec c)) eqn:Ht.
  - eexists. split; [apply blocked_attempts_pos|].
    now rewrite (blocked_error_runs_out _ Ht).
  - cbn [fst]. f_equal. now apply blocked_error_never.
Qed.

Lemma held_lock_is_never_broken_witness :
  exists attempts,
    (1 <= attempts)%nat
    /\ allocate_next_id chg_call stale_lock_world
       = (Err TimeoutError,
          logs (EvMkdir [] :: repeat (EvOpenExcl ["registry.json.lock"])
                                     attempts)
               stale_lock_world).
Proof.
  exact (@held_lock_is_never_broken chg_call stale_lock_world
           ["registry.json.lock"] (File (Text "")) eq_refl eq_refl).
Defined.

Lemma acquire_lock_ok_inv lp t w h w1 :
  acquire_lock lp t w = (Ok h, w1) ->
  exists d x n1,
    lp = (d ++ [x])%list
    /\ FS.mkdir_p (fs w) d = Ok n1
    /\ FS.get n1 lp = None
    /\ h = {| fd := Sys.fresh_fd (fds w); lock_path := lp |}
    /\ w1 = with_fds (with_fs (log (EvOpenExcl lp) (log (EvMkdir d) (with_fs w n1)))
                              (FS.put n1 lp (File (Text ""))))
                     (Sys.fresh_fd (fds w) :: fds w).
Proof.
  intros Hrun.
  destruct (path_cases lp) as [->|(d & x & ->)].
  { exfalso. unfold acquire_lock, bind, Sys.mkdir_parents in Hrun.
    destruct (FS.mkdir_p (fs w) (FS.parent [])) as [n1|e]; [|discriminate].
    rewrite (@acquire_loop_blocked [] t n1 (patience t) 0
               (log (EvMkdir (FS.parent [])) (with_fs w n1)) eq_refl) in Hrun.
    discriminate. }
  rewrite acquire_lock_eq in Hrun.
  destruct (FS.mkdir_p (fs w) d) as [n1|e] eqn:Hmk; [|discriminate].
  cbv zeta in Hrun.
  destruct (FS.get n1 (d ++ [x])%list) eqn:Hg; [discriminate|].
  injection Hrun as <- <-. exists d, x, n1. repeat split; assumption.
Qed.

(** Property X3.  While the lock is held nobody else gets it: [acquire_lock] leaves an
    empty lock file and a descriptor that was not open before, and a
    second [acquire_lock] for the same path, with any finite time-out,
    raises [TimeoutError] and changes neither the tree nor the
    descriptors. *)
Theorem acquire_lock_excludes_a_second_holder lp t w h w1 t2 :
  acquire_lock lp t w = (Ok h, w1) ->
  is_finite t2 = true ->
  lock_path h = lp
  /\ FS.get (fs w1) lp = Some (File (Text ""))
  /\ In (fd h) (fds w1) /\ ~ In (fd h) (fds w)
  /\ exists w2,
       acquire_lock lp t2 w1 = (Err TimeoutError, w2)
       /\ fs w2 = fs w1 /\ fds w2 = fds w1.
Proof.
  intros Hrun Hfin.
  assert (Ht2 : runs_out t2 = true) by (now destruct t2).
  destruct (@acquire_lock_ok_inv lp t w h w1 Hrun)
    as (d & x & n1 & -> & Hmk & Hfree & -> & ->).
  destruct (@mkdir_p_dir _ _ _ Hmk) as (es & Hes & _).
  cbn [lock_path fd fs fds with_fs with_fds log].
  assert (Hput : FS.get (FS.put n1 (d ++ [x])%list (File (Text ""))) d
                 = Some (Dir (Dict.set x (File (Text "")) es)))
    by now apply get_put.
  assert (Hlock : FS.get (FS.put n1 (d ++ [x])%list (File (Text "")))
                         (d ++ [x])%list = Some (File (Text "")))
    by (rewrite (@get_child _ d x _ Hput); apply dict_get_set_same).
  split; [reflexivity|]. split; [exact Hlock|].
  split; [now left|]. split; [apply fresh_fd_not_in|].
  rewrite acquire_lock_eq. cbn [fs fds with_fs with_fds log].
  rewrite (@mkdir_p_existing _ _ _ Hput). cbv zeta. rewrite Hlock.
  rewrite (blocked_error_runs_out _ Ht2).
  eexists. split; [reflexivity|]. split; reflexivity.
Qed.

Lemma acquire_lock_excludes_a_second_holder_witness :
  exists w2,
    acquire_lock lock_of_chg_call (Py.Finite 10 0) world_under_lock
    = (Err TimeoutError, w2).
Proof.
  assert (Hrun : acquire_lock lock_of_chg_call (Py.Finite 10 0) empty_world
                 = (Ok handle_of_chg_call, world_under_lock))
    by (vm_compute; reflexivity).
  destruct (@acquire_lock_excludes_a_second_holder
              lock_of_chg_call (Py.Finite 10 0) empty_world _ _
              (Py.Finite 10 0) Hrun eq_refl)
    as (_ & _ & _ & _ & w2 & H & _).
  exists w2. exact H.
Defined.

(** Property X4.  [release_lock] undoes [acquire_lock]: it returns normally, the
    descriptors are those open before the lock was taken, the lock file
    is gone, and when the directory of the lock was there already the
    tree is what it was. *)
Theorem release_lock_undoes_acquire_lock lp t w h w1 :
  acquire_lock lp t w = (Ok h, w1) ->
  exists w2,
    release_lock h w1 = (Ok tt, w2)
    /\ fds w2 = fds w
    /\ FS.get (fs w2) lp = None
    /\ (FS.is_dir (fs w) (FS.parent lp) = true -> fs w2 = fs w)
    /\ trace w2 = (trace w1 ++ [EvClose (fd h); EvUnlink lp])%list.
Proof.
  intros Hrun.
  destruct (@acquire_lock_ok_inv lp t w h w1 Hrun)
    as (d & x & n1 & -> & Hmk & Hfree & -> & ->).
  destruct (@mkdir_p_dir _ _ _ Hmk) as (es & Hes & Hwas).
  set (w1 := with_fds _ _).
  assert (Hd1 : FS.get (fs w1) d = Some (Dir (Dict.set x (File (Text "")) es)))
    by (apply get_put; exact Hes).
  rewrite (@release_lock_at w1 d x _ (fds w) (Text "") Hd1
             (dict_get_set_same _ _ _) eq_refl).
  eexists. split; [reflexivity|]. cbn [fds fs with_fs with_fds log w1 trace].
  assert (Habs : Dict.get x es = None)
    by (now rewrite <- (@get_child n1 d x es Hes)).
  assert (Hdel : FS.del (FS.put n1 (d ++ [x])%list (File (Text "")))
                        (d ++ [x])%list = n1)
    by (now apply del_put_absent with (es := es)).
  rewrite Hdel. split; [reflexivity|]. split; [exact Hfree|]. split.
  - rewrite parent_snoc. unfold FS.is_dir. intros Hdir.
    destruct (FS.get (fs w) d) as [[c|es0]|] eqn:E; try discriminate.
    rewrite (@mkdir_p_existing _ _ _ E) in Hmk. now injection Hmk as <-.
  - now rewrite <- app_assoc.
Qed.

Lemma release_lock_undoes_acquire_lock_witness :
  exists w2,
    release_lock handle_of_chg_call world_under_lock = (Ok tt, w2)
    /\ fs w2 = fs empty_world.
Proof.
  assert (Hrun : acquire_lock lock_of_chg_call (Py.Finite 10 0) empty_world
                 = (Ok handle_of_chg_call, world_under_lock))
    by (vm_compute; reflexivity).
  destruct (@release_lock_undoes_acquire_lock
              lock_of_chg_call (Py.Finite 10 0) empty_world _ _ Hrun)
    as (w2 & H & _ & _ & Hfs & _).
  exists w2. split; [exact H|]. apply Hfs. reflexivity.
Defined.

(** Property X5.  When the lock file is not there any more and
    [os.unlink] says so with [FileNotFoundError], [release_lock] returns
    normally all the same, also when closing the descriptor failed: the
    [return] in the handler of [FileNotFoundError] drops that error.
    When a regular file stands where the path of the lock needs a
    directory, [os.unlink] raises [NotADirectoryError], which the handler
    does not catch, and [release_lock] raises it.  Either way the tree is
    left alone and the descriptor is not open afterwards. *)
Theorem release_lock_tolerates_a_missing_file h w :
  FS.get (fs w) (lock_path h) = None ->
  (FS.lookup_error (fs w) (lock_path h) = FileNotFoundError ->
   exists w',
     release_lock h w = (Ok tt, w')
     /\ fs w' = fs w
     /\ ~ In (fd h) (fds w')
     /\ trace w' = (trace w ++ [EvClose (fd h); EvUnlink (lock_path h)])%list)
  /\ (FS.lookup_error (fs w) (lock_path h) = NotADirectoryError ->
      exists w',
        release_lock h w = (Err (OSError NotADirectoryError), w')
        /\ fs w' = fs w
        /\ ~ In (fd h) (fds w')
        /\ trace w'
           = (trace w ++ [EvClose (fd h); EvUnlink (lock_path h)])%list).
Proof.
  intros Hfree.
  assert (Hclosed : forall l, existsb (Nat.eqb (fd h)) l = false ->
                              ~ In (fd h) l).
  { intros l E Hin.
    assert (Ht : existsb (Nat.eqb (fd h)) l = true)
      by (apply existsb_exists; exists (fd h);
          split; [exact Hin|apply Nat.eqb_refl]).
    congruence. }
  assert (Hfilter : ~ In (fd h) (filter (fun x => negb (Nat.eqb (fd h) x))
                                        (fds w))).
  { rewrite filter_In. intros [_ H]. now rewrite Nat.eqb_refl in H. }
  split; intros He; unfold release_lock, Sys.close, Sys.unlink;
    destruct (existsb (Nat.eqb (fd h)) (fds w)) eqn:E;
    cbn [fs fds with_fds log trace]; rewrite Hfree, He;
    eexists; (split; [reflexivity|]); cbn [fs fds with_fds log trace];
    (split; [reflexivity|]); (split; [|now rewrite <- app_assoc]);
    auto.
Qed.

Lemma release_lock_tolerates_a_missing_file_witness :
  fst (release_lock lost_handle empty_world) = Ok tt
  /\ fst (release_lock stranded_handle extended_world)
     = Err (OSError NotADirectoryError).
Proof.
  split.
  - destruct (proj1 (@release_lock_tolerates_a_missing_file
                       lost_handle empty_world eq_refl) eq_refl)
      as (w' & H & _).
    now rewrite H.
  - destruct (proj2 (@release_lock_tolerates_a_missing_file
                       stranded_handle extended_world eq_refl) eq_refl)
      as (w' & H & _).
    now rewrite H.
Defined.

Lemma kebab_not_space c : is_kebab_char c = true -> negb (Py.isspace c) = true.
Proof.
  destruct c as [[] [] [] [] [] [] [] []]; vm_compute; congruence.
Qed.

Lemma slug_groups_chars s : forall prev,
  slug_groups prev s = true -> all_chars is_kebab_char s = true.
Proof.
  induction s as [|c s IH]; intros prev; [reflexivity|].
  cbn [slug_groups all_chars]. unfold is_kebab_char at 1.
  destruct (is_slug_char c); cbn [orb andb]; [apply IH|].
  destruct (Ascii.eqb c "-"); cbn [andb]; [|discriminate].
  destruct prev; [apply IH|discriminate].
Qed.

Lemma slug_groups_trailing_hyphen u : forall prev,
  slug_groups prev (u ++ "-") = false.
Proof.
  induction u as [|c u IH]; intros prev.
  - cbn. now destruct prev.
  - cbn [append slug_groups]. rewrite !IH.
    now destruct (is_slug_char c), (Ascii.eqb c "-" && prev).
Qed.

Lemma slug_groups_double_hyphen u v : forall prev,
  slug_groups prev (u ++ "--" ++ v) = false.
Proof.
  induction u as [|c u IH]; intros prev.
  - cbn. now destruct prev.
  - cbn [append slug_groups]. rewrite !IH.
    now destruct (is_slug_char c), (Ascii.eqb c "-" && prev).
Qed.

(** Property X17.  What [normalize_slug] lets through is the argument stripped of
    surrounding white space, and it is kebab-case: not empty, made of
    lower-case letters, digits and hyphens, with no hyphen in front, at
    the end or next to another one.  Normalising it again changes
    nothing. *)
Theorem normalize_slug_returns_kebab_case slug s :
  normalize_slug slug = Ok s ->
  s = Py.strip slug
  /\ normalize_slug s = Ok s
  /\ s <> ""
  /\ all_chars is_kebab_char s = true
  /\ (forall u, s <> "-" ++ u)
  /\ (forall u, s <> u ++ "-")
  /\ (forall u v, s <> u ++ "--" ++ v).
Proof.
  unfold normalize_slug.
  destruct (SLUG_RE_fullmatch (Py.strip slug)) eqn:E; [|discriminate].
  intros [= <-]. set (s := Py.strip slug) in *.
  unfold SLUG_RE_fullmatch in E.
  pose proof (slug_groups_chars _ _ E) as Hchars.
  assert (Hstrip : Py.strip s = s).
  { apply strip_with_none.
    apply (all_chars_weaken _ _ _ kebab_not_space Hchars). }
  split; [reflexivity|]. split.
  { rewrite Hstrip. unfold SLUG_RE_fullmatch. now rewrite E. }
  split; [intros H; rewrite H in E; discriminate|].
  split; [exact Hchars|].
  split; [intros u H; rewrite H in E; discriminate|].
  split.
  - intros u H. rewrite H, slug_groups_trailing_hyphen in E. discriminate.
  - intros u v H. rewrite H, slug_groups_double_hyphen in E. discriminate.
Qed.

Lemma normalize_slug_returns_kebab_case_witness :
  normalize_slug "login-page" = Ok "login-page".
Proof.
  assert (H : normalize_slug "  login-page " = Ok "login-page")
    by reflexivity.
  apply (proj1 (proj2 (@normalize_slug_returns_kebab_case _ _ H))).
Defined.

Lemma span_digits_fst s : all_chars Py.isdigit (fst (span_digits s)) = true.
Proof.
  induction s as [|c s IH]; [reflexivity|]. cbn [span_digits].
  destruct (Py.isdigit c) eqn:E; [|reflexivity].
  destruct (span_digits s) as [ds rest]. cbn [fst all_chars] in *.
  now rewrite E, IH.
Qed.

Lemma LEADING_ID_RE_match_inv name ds :
  LEADING_ID_RE_match name = Some ds ->
  all_chars Py.isdigit ds = true /\ ds <> "".
Proof.
  unfold LEADING_ID_RE_match. pose proof (span_digits_fst name) as H.
  destruct (span_digits name) as [[|c r] rest]; [discriminate|].
  destruct rest as [|c' rest]; [discriminate|].
  destruct (Ascii.eqb c' "_"); [|discriminate].
  intros [= <-]. split; [exact H|discriminate].
Qed.

Lemma digit_value_nonneg c : Py.isdigit c = true -> 0 <= Py.digit_value c.
Proof.
  unfold Py.isdigit, Py.digit_value. rewrite andb_true_iff, N.leb_le.
  intros [H _]. lia.
Qed.

Lemma digits_value_nonneg s : forall acc prev,
  all_chars Py.isdigit s = true -> 0 <= acc ->
  (s <> "" \/ prev = true) ->
  exists v, Py.digits_value acc prev s = Some v /\ 0 <= v.
Proof.
  induction s as [|c s IH]; intros acc prev Hd Hacc Hne.
  - destruct Hne as [H| ->]; [congruence|]. exists acc. now split.
  - cbn [all_chars] in Hd. apply andb_true_iff in Hd. destruct Hd as [Hc Hd].
    cbn [Py.digits_value]. rewrite Hc. apply IH; [exact Hd| |now right].
    pose proof (digit_value_nonneg _ Hc). lia.
Qed.

Lemma numeric_id_nonneg name : 0 <= sa_compile.numeric_id name.
Proof.
  unfold sa_compile.numeric_id.
  destruct (LEADING_ID_RE_match name) as [ds|] eqn:E; [|lia].
  destruct (LEADING_ID_RE_match_inv _ E) as [Hd Hne].
  destruct (@digits_value_nonneg ds 0 false Hd) as (v & Hv & Hpos);
    [lia|now left|].
  now rewrite (int_of_str_digits _ Hd Hv).
Qed.

Lemma bump_chg_numeric_id name m :
  0 <= m -> bump_chg name m = Z.max m (sa_compile.numeric_id name).
Proof.
  intros Hm. pose proof (numeric_id_nonneg name) as Hn.
  unfold bump_chg, sa_compile.numeric_id in *.
  destruct (LEADING_ID_RE_match name) as [ds|]; [|lia].
  destruct (Py.int_of_str ds) as [v|]; [apply ltb_max|lia].
Qed.

Lemma bump_dirs_max children : forall m,
  0 <= m ->
  m <= bump_dirs children m
  /\ (forall name es, In (name, Dir es) children ->
                      sa_compile.numeric_id name <= bump_dirs children m)
  /\ (bump_dirs children m = m
      \/ exists name es, In (name, Dir es) children
                         /\ sa_compile.numeric_id name = bump_dirs children m).
Proof.
  induction children as [|[name [c|es]] rest IH]; intros m Hm;
    cbn [bump_dirs].
  - split; [lia|]. split; [intros ? ? []|now left].
  - destruct (IH m Hm) as (H1 & H2 & H3). split; [exact H1|]. split.
    + intros n e [H|H]; [discriminate|]. now apply (H2 n e).
    + destruct H3 as [H3|(n & e & Hin & H3)]; [now left|].
      right. exists n, e. split; [now right|exact H3].
  - rewrite (bump_chg_numeric_id name Hm).
    pose proof (numeric_id_nonneg name) as Hn.
    destruct (IH (Z.max m (sa_compile.numeric_id name))) as (H1 & H2 & H3);
      [lia|].
    split; [lia|]. split.
    + intros n e [H|H]; [injection H as <- <-; lia|]. now apply (H2 n e).
    + destruct H3 as [H3|(n & e & Hin & H3)].
      * destruct (Z.max_spec m (sa_compile.numeric_id name)) as [[_ E]|[_ E]].
        -- right. exists name, es. split; [now left|]. congruence.
        -- left. congruence.
      * right. exists n, e. split; [now right|exact H3].
Qed.

Lemma bump_months_max months : forall m,
  0 <= m ->
  m <= bump_months months m
  /\ (forall month archived name es,
        In (month, Dir archived) months -> In (name, Dir es) archived ->
        sa_compile.numeric_id name <= bump_months months m)
  /\ (bump_months months m = m
      \/ exists month archived name es,
           In (month, Dir archived) months /\ In (name, Dir es) archived
           /\ sa_compile.numeric_id name = bump_months months m).
Proof.
  induction months as [|[month [c|archived]] rest IH]; intros m Hm;
    cbn [bump_months].
  - split; [lia|]. split; [intros ? ? ? ? []|now left].
  - destruct (IH m Hm) as (H1 & H2 & H3). split; [exact H1|]. split.
    + intros mo ar n e [H|H]; [discriminate|]. now apply (H2 mo ar n e).
    + destruct H3 as [H3|(mo & ar & n & e & Hin & Hin' & H3)]; [now left|].
      right. exists mo, ar, n, e. split; [now right|]. now split.
  - destruct (bump_dirs_max archived Hm) as (D1 & D2 & D3).
    destruct (IH (bump_dirs archived m)) as (H1 & H2 & H3); [lia|].
    split; [lia|]. split.
    + intros mo ar n e [H|H] Hin.
      * injection H as <- <-. specialize (D2 n e Hin). lia.
      * now apply (H2 mo ar n e).
    + destruct H3 as [H3|(mo & ar & n & e & Hin & Hin' & H3)].
      * destruct D3 as [D3|(n & e & Hin & D3)]; [left; congruence|].
        right. exists month, archived, n, e. split; [now left|].
        split; [exact Hin|congruence].
      * right. exists mo, ar, n, e. split; [now right|]. now split.
Qed.

(** Property X15.  The maximum [scan_max_ids] returns for [chg] is the largest numeric
    prefix among the task directories, those in [tasks] and those in the
    month directories of [.sa/history] alike: it bounds the numeric
    prefix of each of them, and it is that of one of them unless it is
    0.  Plain files are not counted. *)
Theorem scan_finds_the_largest_task_id tree superagents_dir scanned :
  scan_tree tree superagents_dir = Ok scanned ->
  (forall name, is_task_dir tree superagents_dir name ->
                sa_compile.numeric_id name <= s_chg scanned)
  /\ (s_chg scanned = 0
      \/ exists name, is_task_dir tree superagents_dir name
                      /\ sa_compile.numeric_id name = s_chg scanned).
Proof.
  unfold scan_tree, is_task_dir.
  destruct (FS.get tree (superagents_dir ++ ["tasks"])%list)
    as [[c|tasks]|] eqn:Et; cbn [iterdir rbind]; try discriminate.
  all: destruct (FS.get tree (superagents_dir ++ [".sa"; "history"])%list)
         as [[c'|months]|] eqn:Eh; cbn [iterdir rbind]; try discriminate.
  all: destruct (match FS.get tree (superagents_dir ++ ["specs"])%list with
                 | Some specs_dir => bump_specs (glob_spec_md specs_dir) 0
                 | None => Ok 0
                 end) as [max_spec|]; cbn [rbind]; [|discriminate].
  all: intros [= <-]; cbn [s_chg].
  - destruct (@bump_dirs_max tasks 0) as (D1 & D2 & D3); [lia|].
    destruct (@bump_months_max months (bump_dirs tasks 0)) as (H1 & H2 & H3);
      [lia|].
    split.
    + intros name [(ts & es & [= <-] & Hin)
                  |(ms & mo & ar & es & [= <-] & Hin & Hin')].
      * specialize (D2 name es Hin). lia.
      * apply (H2 mo ar name es Hin Hin').
    + destruct H3 as [H3|(mo & ar & n & e & Hin & Hin' & H3)].
      * destruct D3 as [D3|(n & e & Hin & D3)]; [left; congruence|].
        right. exists n. split; [|congruence]. left. eauto.
      * right. exists n. split; [|exact H3]. right. eauto 8.
  - destruct (@bump_dirs_max tasks 0) as (D1 & D2 & D3); [lia|].
    split.
    + intros name [(ts & es & [= <-] & Hin)
                  |(ms & mo & ar & es & [=] & _)].
      apply (D2 name es Hin).
    + destruct D3 as [D3|(n & e & Hin & D3)]; [now left|].
      right. exists n. split; [|exact D3]. left. eauto.
  - destruct (@bump_months_max months 0) as (H1 & H2 & H3); [lia|].
    split.
    + intros name [(ts & es & [=] & _)
                  |(ms & mo & ar & es & [= <-] & Hin & Hin')].
      apply (H2 mo ar name es Hin Hin').
    + destruct H3 as [H3|(mo & ar & n & e & Hin & Hin' & H3)]; [now left|].
      right. exists n. split; [|exact H3]. right. eauto 8.
  - split; [|now left].
    intros name [(ts & es & [=] & _)|(ms & mo & ar & es & [=] & _)].
Qed.

Lemma scan_finds_the_largest_task_id_witness :
  sa_compile.numeric_id "000005_fix_login" <= 12
  /\ sa_compile.numeric_id "000012_feat_search" <= 12.
Proof.
  assert (Hscan : scan_tree busy_tree ["superagents"]
                  = Ok {| s_chg := 12; s_spec := 3 |})
    by (vm_compute; reflexivity).
  destruct (@scan_finds_the_largest_task_id busy_tree ["superagents"] _ Hscan)
    as [Hmax _].
  split; apply Hmax.
  - left. exists [("000005_fix_login", Dir []);
                  ("notes.txt", File (Text "000099_"));
                  ("draft", Dir [])], [].
    split; [reflexivity|]. now left.
  - right. exists [("2025-12", Dir [("000012_feat_search", Dir [])]);
                   ("index.md", File (Text ""))],
                  "2025-12", [("000012_feat_search", Dir [])], [].
    split; [reflexivity|]. split; now left.
Defined.








Lemma is_empty_append p c r : Py.is_empty (p ++ String c r) = false.
Proof. now destruct p. Qed.

Lemma main_scan_flags a :
  (if arg_scan a then true else if arg_no_scan a then false else true)
  = arg_scan a || negb (arg_no_scan a).
Proof. now destruct (arg_scan a), (arg_no_scan a). Qed.

(** Property X18.  [main] prints once, and only when the allocation has succeeded: on
    an error the standard output is what it was; on success the exit
    code is 0 and one item has been printed for the allocation that
    [allocate_next_id] returned for the call [call_of_args] describes,
    the padded id (followed by the type and the stripped slug when they
    are given) or, with [--json], an object with the id, the padded id
    and the stable id. *)
Theorem main_prints_the_allocation_once a w r w' :
  main a w = (r, w') ->
  match r with
  | Err _ => stdout w' = stdout w
  | Ok code =>
      code = 0
      /\ exists alloc w1 o,
           allocate_next_id (call_of_args a) w = (Ok alloc, w1)
           /\ w' = emit o w1
           /\ stdout w' = (stdout w ++ [o])%list
           /\ if arg_json a then
                exists fields,
                  o = OutJson (JObj fields)
                  /\ Dict.get "id" fields = Some (JInt (id alloc))
                  /\ Dict.get "padded_id" fields
                     = Some (JStr (padded_id alloc))
                  /\ Dict.get "stable_id" fields
                     = Some (JStr (stable_id alloc))
              else
                o = OutLine
                      match arg_type a, arg_slug a with
                      | Some t, Some s =>
                          padded_id alloc ++ "_" ++ t ++ "_" ++ Py.strip s
                      | _, _ => padded_id alloc
                      end
  end.
Proof.
  unfold main, bind, raise, ret, lift. cbv zeta. rewrite main_scan_flags.
  fold (call_of_args a).
  destruct (arg_pad a <=? 0); [now intros [= <- <-]|].
  destruct (negb (Bool.eqb (is_none (arg_type a)) (is_none (arg_slug a))))
    eqn:Eboth; [now intros [= <- <-]|].
  destruct (negb (String.eqb (arg_kind a) "chg") && _);
    [now intros [= <- <-]|].
  destruct (arg_slug a) as [s|] eqn:Es.
  1: unfold normalize_slug;
     destruct (SLUG_RE_fullmatch (Py.strip s)); [|now intros [= <- <-]].
  all: destruct (allocate_next_id (call_of_args a) w) as [[alloc|e] w1]
         eqn:Hrun;
    [ | intros [= <- <-];
        apply (@allocate_next_id_same_env _ _ _ _ Hrun) ].
  all: assert (Hout : stdout w1 = stdout w)
         by apply (@allocate_next_id_same_env _ _ _ _ Hrun).
  all: destruct (arg_json a); intros [= <- <-]; (split; [reflexivity|]);
    exists alloc, w1; eexists; (split; [reflexivity|]);
    (split; [reflexivity|]); cbn [stdout emit]; rewrite Hout;
    (split; [reflexivity|]).
  all: try (eexists; split; [reflexivity|]; now repeat split).
  all: f_equal; destruct (arg_type a) as [t|]; try reflexivity.
  now rewrite is_empty_append.
Qed.

Lemma main_prints_the_allocation_once_witness :
  stdout (snd (main named_args empty_world))
  = [OutLine "000001_fix_login-page"].
Proof.
  assert (Hrun : main named_args empty_world
                 = (Ok 0, snd (main named_args empty_world)))
    by (vm_compute; reflexivity).
  destruct (@main_prints_the_allocation_once named_args empty_world _ _ Hrun)
    as (_ & alloc & w1 & o & Hall & _ & Hout & Ho).
  assert (Hfst : fst (allocate_next_id (call_of_args named_args) empty_world)
                 = Ok (allocation_of (call_of_args named_args)
                         ["superagents"; ".sa"; "registry.json"] 1))
    by (vm_compute; reflexivity).
  rewrite Hall in Hfst. cbn [fst] in Hfst. injection Hfst as ->.
  rewrite Hout. cbn [arg_json named_args] in Ho. now rewrite Ho.
Defined.

Lemma main_cases a w :
  let bad :=
    arg_pad a <= 0
    \/ is_none (arg_type a) <> is_none (arg_slug a)
    \/ (arg_kind a <> "chg" /\ (arg_type a <> None \/ arg_slug a <> None))
    \/ (exists s, arg_slug a = Some s
                  /\ SLUG_RE_fullmatch (Py.strip s) = false) in
  (bad /\ exists e, main a w = (Err e, w) /\ is_InvalidArgument e = true)
  \/ (~ bad /\ forall e w', main a w = (Err e, w') ->
                            is_InvalidArgument e = false).
Proof.
  intros bad. subst bad.
  unfold main, bind, raise, ret, lift. cbv zeta. rewrite main_scan_flags.
  fold (call_of_args a).
  destruct (Z.leb_spec (arg_pad a) 0) as [Hpad|Hpad];
    [left; split; [now left|eexists; now split]|].
  destruct (Bool.eqb (is_none (arg_type a)) (is_none (arg_slug a))) eqn:Eboth;
    cbn [negb].
  2: { left. split; [|eexists; now split]. right. left.
       intros H. rewrite H, Bool.eqb_reflx in Eboth. discriminate. }
  apply Bool.eqb_prop in Eboth.
  destruct (String.eqb_spec (arg_kind a) "chg") as [Hk|Hk]; cbn [negb andb].
  2: { destruct (negb (is_none (arg_type a)) || negb (is_none (arg_slug a)))
         eqn:Eany.
       - left. split; [|eexists; now split]. right. right. left.
         split; [exact Hk|].
         destruct (arg_type a), (arg_slug a); try discriminate;
           try (left; discriminate); right; discriminate.
       - destruct (arg_type a), (arg_slug a); try discriminate.
         right. split.
         + intros [H|[H|[[_ [H|H]]|(s & H & _)]]];
             try lia; try congruence; now apply H.
         + destruct (allocate_next_id (call_of_args a) w)
             as [[alloc|e0] w1] eqn:Hrun.
           * destruct (arg_json a); discriminate.
           * intros e w' [= <- <-].
             apply (@allocate_next_id_err _ _ _ _ Hrun). }
  destruct (arg_slug a) as [s|] eqn:Es.
  1: unfold normalize_slug;
     destruct (SLUG_RE_fullmatch (Py.strip s)) eqn:Em.
  2: { left. split; [|eexists; now split]. right. right. right.
       exists s. now split. }
  all: right; split;
    [ intros [H|[H|[[H _]|(s' & H & Hm)]]];
      try lia; try congruence; now apply H
    | destruct (allocate_next_id (call_of_args a) w)
        as [[alloc|e0] w1] eqn:Hrun;
      [ destruct (arg_json a); discriminate
      | intros e w' [= <- <-];
        apply (@allocate_next_id_err _ _ _ _ Hrun) ] ].
Qed.

(** Property X19.  [main] raises one of its argument errors exactly when the pad is
    not positive, when one of [--type] and [--slug] is given without
    the other, when they are given for a kind other than [chg], or when
    the slug is not kebab-case; it does so before anything else: the
    world is then untouched, no lock taken and no registry read.  No
    error that comes later is an argument error. *)
Theorem main_checks_its_arguments_first a w :
  ((arg_pad a <= 0
    \/ is_none (arg_type a) <> is_none (arg_slug a)
    \/ (arg_kind a <> "chg" /\ (arg_type a <> None \/ arg_slug a <> None))
    \/ (exists s, arg_slug a = Some s
                  /\ SLUG_RE_fullmatch (Py.strip s) = false))
   <-> exists e w', main a w = (Err e, w') /\ is_InvalidArgument e = true)
  /\ forall e w', main a w = (Err e, w') -> is_InvalidArgument e = true ->
                  w' = w.
Proof.
  destruct (main_cases a w) as [[Hbad (e & Hrun & He)]|[Hgood Hno]].
  - split.
    + split; [intros _; eauto|intros _; exact Hbad].
    + intros e' w' Hrun' _. rewrite Hrun in Hrun'. now injection Hrun' as _ <-.
  - split.
    + split; [intros H; now elim Hgood|].
      intros (e & w' & Hrun & He). rewrite (Hno _ _ Hrun) in He. discriminate.
    + intros e w' Hrun He. rewrite (Hno _ _ Hrun) in He. discriminate.
Qed.

Lemma main_checks_its_arguments_first_witness :
  main bad_slug_args empty_world
  = (Err (ValueError (MsgBadSlug "Login_Page")), empty_world).
Proof.
  assert (Hrun : main bad_slug_args empty_world
                 = (Err (ValueError (MsgBadSlug "Login_Page")),
                    snd (main bad_slug_args empty_world)))
    by (vm_compute; reflexivity).
  rewrite Hrun.
  now rewrite (proj2 (main_checks_its_arguments_first bad_slug_args empty_world)
                     _ _ Hrun eq_refl).
Defined.

Ltac split_run H :=
  let H1 := fresh in
  let H2 := fresh in
  pose proof (f_equal fst H) as H1; pose proof (f_equal snd H) as H2;
  cbn [fst snd] in H1, H2; subst.

Lemma load_json_ok_inv p w j :
  fst (Sys.load_json p w) = Ok j -> FS.get (fs w) p = Some (File (Doc j)).
Proof.
  unfold Sys.load_json.
  destruct (FS.get (fs w) p) as [[[j0| |]|]|]; cbn; try discriminate.
  now intros [= ->].
Qed.

Lemma ensure_registry_run
        superagents_dir root dry_run w r w' :
  sa_init.ensure_registry superagents_dir root dry_run w = (r, w') ->
  let registry_path := sa_util.sa_registry_path superagents_dir in
  same_env w w'
  /\ (FS.get (fs w) registry_path <> None ->
      r = Ok tt /\ fs w' = fs w
      /\ trace w' = (trace w ++ [EvExists registry_path])%list)
  /\ (dry_run = true -> fs w' = fs w)
  /\ (FS.get (fs w) registry_path = None -> dry_run = false -> r = Ok tt ->
      exists scanned,
        scan_tree (fs w) superagents_dir = Ok scanned
        /\ FS.get (fs w') registry_path
           = Some (File (Doc (JObj (fresh_registry (s_chg scanned)
                                      (s_spec scanned) (now w)))))
        /\ fst (read_registry registry_path w')
           = Ok (Some (fresh_registry (s_chg scanned) (s_spec scanned)
                         (now w)))).
Proof.
  intros Hrun registry_path.
  unfold sa_init.ensure_registry, bind, ret, Sys.path_exists, scan_max_ids,
    utc_now_iso in Hrun.
  fold registry_path in Hrun. cbn [fs log now] in Hrun.
  destruct (FS.get (fs w) registry_path) as [x|] eqn:Hreg;
    cbv beta iota in Hrun; cbn [fs log now] in Hrun.
  { split_run Hrun. split; [now repeat split|].
    split; [intros _; now repeat split|].
    split; [reflexivity|discriminate]. }
  destruct (scan_tree (fs w) superagents_dir) as [scanned|e] eqn:Hscan;
    cbv beta iota in Hrun.
  2: { split_run Hrun. split; [now repeat split|].
       split; [congruence|]. split; [reflexivity|discriminate]. }
  destruct dry_run; cbv beta iota in Hrun.
  { split_run Hrun. split; [now repeat split|].
    split; [congruence|]. split; [reflexivity|discriminate]. }
  set (w0 := log (EvScan superagents_dir) (log (EvExists registry_path) w))
    in Hrun.
  assert (Henv0 : same_env w w0) by now repeat split.
  destruct r as [[]|e].
  - destruct (@write_json_atomic_ok_inv _ _ _ _ Hrun)
      as (Hload & _ & _ & Henv).
    split; [apply (same_env_trans Henv0 Henv)|].
    split; [congruence|]. split; [discriminate|].
    intros _ _ _. exists scanned. split; [reflexivity|].
    apply load_json_ok_inv in Hload. split; [exact Hload|].
    now rewrite (@read_registry_doc _ w' _ Hload), check_fresh_registry.
  - destruct (@write_json_atomic_err_inv _ _ _ _ _ Hrun)
      as (_ & Henv).
    split; [apply (same_env_trans Henv0 Henv)|].
    split; [congruence|]. split; discriminate.
Qed.

(** Property X20.  [ensure_registry] creates a registry only where there is none: an
    entry found at the registry path is left alone, without a scan; a
    dry run writes nothing; otherwise the registry written holds, for
    each kind, the maximum the scan of [superagents_dir] found, and
    [read_registry] reads it back as it is.  On every exit, descriptors,
    clock and standard output are what they were. *)
Theorem ensure_registry_creates_only_a_missing_registry
        superagents_dir root dry_run w r w' :
  sa_init.ensure_registry superagents_dir root dry_run w = (r, w') ->
  let registry_path := sa_util.sa_registry_path superagents_dir in
  same_env w w'
  /\ (FS.get (fs w) registry_path <> None ->
      r = Ok tt /\ fs w' = fs w
      /\ trace w' = (trace w ++ [EvExists registry_path])%list)
  /\ (dry_run = true -> fs w' = fs w)
  /\ (FS.get (fs w) registry_path = None -> dry_run = false -> r = Ok tt ->
      exists scanned,
        scan_tree (fs w) superagents_dir = Ok scanned
        /\ FS.get (fs w') registry_path
           = Some (File (Doc (JObj (fresh_registry (s_chg scanned)
                                      (s_spec scanned) (now w)))))
        /\ fst (read_registry registry_path w')
           = Ok (Some (fresh_registry (s_chg scanned) (s_spec scanned)
                         (now w)))).
Proof. apply ensure_registry_run. Qed.

Lemma ensure_registry_creates_only_a_missing_registry_witness :
  FS.get (fs (snd (sa_init.ensure_registry ["proj"; "superagents"] ["proj"]
                     false project_world)))
         ["proj"; "superagents"; ".sa"; "registry.json"]
  = Some (File (Doc (JObj (fresh_registry 5 0 "2026-01-01T00:00:00Z")))).
Proof.
  assert (Hrun : sa_init.ensure_registry ["proj"; "superagents"] ["proj"]
                   false project_world
                 = (Ok tt,
                    snd (sa_init.ensure_registry ["proj"; "superagents"]
                           ["proj"] false project_world)))
    by (vm_compute; reflexivity).
  destruct (@ensure_registry_creates_only_a_missing_registry
              ["proj"; "superagents"] ["proj"] false project_world _ _ Hrun)
    as (_ & _ & _ & Hnew).
  destruct (Hnew eq_refl eq_refl eq_refl) as (scanned & Hscan & Hget & _).
  vm_compute in Hscan. injection Hscan as <-. exact Hget.
Defined.

(** Property X21.  After [ensure_registry] has created the registry of a project, every
    allocation for that registry returns an id above the maximum that
    the scan of the [superagents] directory itself had found for the
    kind, the directory in which the tasks and the specs are; with
    scanning off the id is that maximum plus one. *)
Theorem first_allocation_after_ensure_registry
        project dir w w1 c a w2 :
  FS.get (fs w) (sa_util.sa_registry_path (project ++ [dir])%list) = None ->
  sa_init.ensure_registry (project ++ [dir])%list project false w
  = (Ok tt, w1) ->
  (root c ++ registry_relpath c)%list
  = sa_util.sa_registry_path (project ++ [dir])%list ->
  allocate_next_id c w1 = (Ok a, w2) ->
  exists scanned,
    scan_tree (fs w) (project ++ [dir])%list = Ok scanned
    /\ counter_of (kind c) (s_chg scanned) (s_spec scanned) < id a
    /\ (scan c = false ->
        id a = counter_of (kind c) (s_chg scanned) (s_spec scanned) + 1).
Proof.
  intros Hnone Hinit Hrp Hrun.
  destruct (@ensure_registry_run _ _ _ _ _ _ Hinit) as (_ & _ & _ & Hnew).
  destruct (Hnew Hnone eq_refl eq_refl) as (scanned & Hscan & Hget & _).
  exists scanned. split; [exact Hscan|].
  set (fresh := fresh_registry (s_chg scanned) (s_spec scanned) (now w)) in *.
  assert (Hl : registry_of_node
                 (FS.get (fs w1) (root c ++ registry_relpath c)%list)
               = Ok (Some fresh)).
  { rewrite Hrp, Hget. cbn [registry_of_node]. unfold fresh.
    now rewrite check_fresh_registry. }
  assert (Hint : int_dict [("chg", JInt (s_chg scanned));
                           ("spec", JInt (s_spec scanned))]).
  { apply (@int_dict_set "spec" (s_spec scanned) [("chg", JInt (s_chg scanned))]).
    apply (@int_dict_set "chg" (s_chg scanned) []). apply int_dict_nil. }
  assert (Hle : 2 <= 2) by lia.
  destruct (@allocation_from_version_2 c w1 a w2 fresh 2 _
              Hl eq_refl Hle eq_refl Hint Hrun)
    as (sc & Hsc & Hk & Hid & _).
  destruct (scan_tree_nonneg _ _ Hscan) as [Hc Hs].
  assert (Hst : stored_counter fresh (kind c)
                = counter_of (kind c) (s_chg scanned) (s_spec scanned)).
  { destruct (kind_cases _ Hk) as [-> | ->]; reflexivity. }
  rewrite Hst in Hid. split; [lia|].
  intros Hoff. rewrite Hoff in Hsc. injection Hsc as <-.
  rewrite Hid. destruct (kind_cases _ Hk) as [-> | ->]; cbn; lia.
Qed.

Lemma first_allocation_after_ensure_registry_witness :
  exists a,
    fst (allocate_next_id (sa_new_call_for ["proj"] "superagents" false)
           (snd (sa_init.ensure_registry ["proj"; "superagents"] ["proj"]
                   false project_world))) = Ok a
    /\ 5 < id a.
Proof.
  assert (Hinit : sa_init.ensure_registry (["proj"] ++ ["superagents"])%list
                    ["proj"] false project_world
                  = (Ok tt,
                     snd (sa_init.ensure_registry ["proj"; "superagents"]
                            ["proj"] false project_world)))
    by (vm_compute; reflexivity).
  assert (Hrun : allocate_next_id (sa_new_call_for ["proj"] "superagents" false)
                   (snd (sa_init.ensure_registry ["proj"; "superagents"]
                           ["proj"] false project_world))
                 = (Ok (allocation_of
                          (sa_new_call_for ["proj"] "superagents" false)
                          ["proj"; "superagents"; ".sa"; "registry.json"] 6),
                    snd (allocate_next_id
                           (sa_new_call_for ["proj"] "superagents" false)
                           (snd (sa_init.ensure_registry
                                   ["proj"; "superagents"] ["proj"] false
                                   project_world)))))
    by (vm_compute; reflexivity).
  destruct (@first_allocation_after_ensure_registry
              ["proj"] "superagents" project_world _
              (sa_new_call_for ["proj"] "superagents" false) _ _
              eq_refl Hinit eq_refl Hrun)
    as (scanned & Hscan & Hlt & _).
  eexists. split; [now rewrite Hrun|].
  vm_compute in Hscan. injection Hscan as <-. exact Hlt.
Defined.

Lemma kept_refl x : kept x x.
Proof. destruct x; cbn; eauto. Qed.

Lemma kept_trans x y z : kept x y -> kept y z -> kept x z.
Proof.
  destruct x; cbn; [intros ->; now cbn|].
  intros [es' ->]. now cbn.
Qed.

Lemma mkdir_p_keeps d : forall n n1 p x,
  FS.mkdir_p n d = Ok n1 ->
  FS.get n p = Some x ->
  exists x', FS.get n1 p = Some x' /\ kept x x'.
Proof.
  induction d as [|x0 d IH]; intros [c|es] n1 p x; cbn [FS.mkdir_p];
    try discriminate.
  - intros [= <-] H. exists x. split; [exact H|apply kept_refl].
  - destruct (FS.mkdir_p _ d) as [c'|] eqn:Hc; [|discriminate].
    intros [= <-]. destruct p as [|y p]; cbn [FS.get].
    + intros [= <-]. eexists. split; [reflexivity|]. cbn. eauto.
    + destruct (String.eqb_spec y x0) as [->|Hne].
      * rewrite dict_get_set_same.
        destruct (Dict.get x0 es) as [c0|]; [|discriminate].
        intros H. apply (IH _ _ _ _ Hc H).
      * rewrite dict_get_set_other by assumption.
        destruct (Dict.get y es) as [c0|]; [|discriminate].
        intros H. exists x. split; [exact H|apply kept_refl].
Qed.

Lemma make_dirs_run superagents_dir names : forall w r w',
  sa_init.make_dirs superagents_dir names false w = (r, w') ->
  same_env w w'
  /\ (forall p x, FS.get (fs w) p = Some x ->
                  exists x', FS.get (fs w') p = Some x' /\ kept x x')
  /\ (r = Ok tt ->
      forall name, In name names ->
                   FS.is_dir (fs w') (superagents_dir ++ name)%list = true).
Proof.
  induction names as [|name rest IH]; intros w r w';
    cbn [sa_init.make_dirs]; unfold bind, ret.
  - intros H. split_run H. split; [apply same_env_refl|].
    split; [|intros _ ? []].
    intros p x Hx. exists x. split; [exact Hx|apply kept_refl].
  - unfold Sys.mkdir_parents.
    destruct (FS.mkdir_p (fs w) (superagents_dir ++ name)%list)
      as [n1|e] eqn:Hmk.
    + intros H. apply IH in H. destruct H as (Henv & Hkeep & Hdirs).
      cbn [fs log with_fs] in Hkeep.
      assert (Hkeep1 : forall p x,
                 FS.get (fs w) p = Some x ->
                 exists x', FS.get (fs w') p = Some x' /\ kept x x').
      { intros p x Hx.
        destruct (mkdir_p_keeps _ _ _ Hmk Hx) as (x1 & Hx1 & K1).
        destruct (Hkeep _ _ Hx1) as (x2 & Hx2 & K2).
        exists x2. split; [exact Hx2|apply (kept_trans _ _ _ K1 K2)]. }
      split; [exact Henv|]. split; [exact Hkeep1|].
      intros Hr nm [<-|Hin]; [|now apply Hdirs].
      destruct (@mkdir_p_dir _ _ _ Hmk) as (es & Hes & _).
      destruct (Hkeep _ _ Hes) as (x2 & Hx2 & [es' ->]).
      unfold FS.is_dir. now rewrite Hx2.
    + intros H. split_run H. split; [now repeat split|].
      split; [|discriminate].
      intros p x Hx. exists x. split; [exact Hx|apply kept_refl].
Qed.

Lemma make_dirs_dry_run superagents_dir names w :
  sa_init.make_dirs superagents_dir names true w = (Ok tt, w).
Proof.
  induction names as [|name rest IH]; cbn [sa_init.make_dirs];
    unfold bind, ret; [reflexivity|exact IH].
Qed.

(** Property X22.  [ensure_dirs] only ever adds directories: on every exit each file
    has kept its contents and each directory is still a directory; a
    dry run does nothing at all; and when a real run returns, [specs],
    [tasks], [.sa/wiki], [.sa/templates] and [.sa/history] are
    directories of [superagents_dir]. *)
Theorem ensure_dirs_only_adds_directories superagents_dir dry_run w r w' :
  sa_init.ensure_dirs superagents_dir dry_run w = (r, w') ->
  same_env w w'
  /\ (forall p c, FS.get (fs w) p = Some (File c) ->
                  FS.get (fs w') p = Some (File c))
  /\ (forall p, FS.is_dir (fs w) p = true -> FS.is_dir (fs w') p = true)
  /\ (dry_run = true -> r = Ok tt /\ w' = w)
  /\ (dry_run = false -> r = Ok tt ->
      forall name, In name sa_init.LAYOUT ->
                   FS.is_dir (fs w') (superagents_dir ++ name)%list = true).
Proof.
  unfold sa_init.ensure_dirs. destruct dry_run.
  - rewrite make_dirs_dry_run. intros H. split_run H.
    split; [apply same_env_refl|]. split; [auto|]. split; [auto|].
    split; [auto|discriminate].
  - intros H. apply make_dirs_run in H. destruct H as (Henv & Hkeep & Hdirs).
    split; [exact Henv|]. split.
    { intros p c Hp. destruct (Hkeep _ _ Hp) as (x' & Hx' & K).
      cbn in K. now subst x'. }
    split.
    { intros p. unfold FS.is_dir.
      destruct (FS.get (fs w) p) as [[c|es]|] eqn:Hp; try discriminate.
      destruct (Hkeep _ _ Hp) as (x' & Hx' & [es' ->]). now rewrite Hx'. }
    split; [discriminate|]. intros _. exact Hdirs.
Qed.

Lemma ensure_dirs_only_adds_directories_witness :
  FS.is_dir (fs (snd (sa_init.ensure_dirs ["proj"; "superagents"] false
                        empty_world)))
            ["proj"; "superagents"; ".sa"; "history"] = true.
Proof.
  assert (Hrun : sa_init.ensure_dirs ["proj"; "superagents"] false empty_world
                 = (Ok tt,
                    snd (sa_init.ensure_dirs ["proj"; "superagents"] false
                           empty_world)))
    by (vm_compute; reflexivity).
  destruct (@ensure_dirs_only_adds_directories
              ["proj"; "superagents"] false empty_world _ _ Hrun)
    as (_ & _ & _ & _ & Hdirs).
  apply (Hdirs eq_refl eq_refl [".sa"; "history"]).
  cbn. tauto.
Defined.

Lemma scan_tree_of tree sd :
  scan_tree tree sd
  = scan_of (FS.get tree (sd ++ ["tasks"])%list)
            (FS.get tree (sd ++ [".sa"; "history"])%list)
            (FS.get tree (sd ++ ["specs"])%list).
Proof. reflexivity. Qed.

Lemma scan_of_specs_no_dir t h s s' :
  no_dir s -> no_dir s' -> scan_of t h s = scan_of t h s'.
Proof.
  unfold scan_of.
  destruct s as [[c|es]|], s' as [[c'|es']|]; cbn [no_dir]; try tauto;
    reflexivity.
Qed.

Lemma tmp_not_scanned (nm y : string) :
  In y ["tasks"; ".sa"; "specs"] -> nm ++ ".tmp" <> y.
Proof.
  intros Hy H. destruct nm as [|a [|b nm]].
  - simpl in Hy, H. destruct Hy as [<-|[<-|[<-|[]]]]; discriminate.
  - simpl in Hy, H. destruct Hy as [<-|[<-|[<-|[]]]]; discriminate.
  - apply (f_equal String.length) in H. simpl in H.
    rewrite append_length in H.
    simpl in Hy. destruct Hy as [<-|[<-|[<-|[]]]]; simpl in H; lia.
Qed.

Lemma locked_outcome_listing c rp nm es0 scanned ts fault :
  (forall y, y <> nm -> y <> nm ++ ".tmp" ->
             Dict.get y (snd (locked_outcome c rp nm es0 scanned ts fault))
             = Dict.get y es0)
  /\ (forall x, Dict.get nm es0 = Some (Dir x) ->
                Dict.get nm (snd (locked_outcome c rp nm es0 scanned ts fault))
                = Some (Dir x))
  /\ (forall x, Dict.get (nm ++ ".tmp") es0 = Some (Dir x) ->
                Dict.get (nm ++ ".tmp")
                         (snd (locked_outcome c rp nm es0 scanned ts fault))
                = Some (Dir x)).
Proof.
  unfold locked_outcome, write_outcome.
  destruct (plan c rp (Dict.get nm es0) scanned ts) as [[a reg]|e] eqn:Hplan;
    [|now repeat split].
  destruct (dry_run c); [now repeat split|].
  assert (Hnm : forall x, Dict.get nm es0 <> Some (Dir x)).
  { intros x Hx.
    destruct (@plan_ok_inv c rp _ scanned ts a reg Hplan)
      as (prefix & l & sc & reconciled & counters & current
          & _ & _ & Hl & _).
    rewrite Hx in Hl. discriminate. }
  assert (Hne : nm <> nm ++ ".tmp")
    by (intros E; symmetry in E; now apply tmp_neq_name in E).
  destruct (Dict.get (nm ++ ".tmp") es0) as [[x|es']|] eqn:Et.
  2: { cbn [snd]. split; [reflexivity|]. split; [auto|].
       intros x Hx. now rewrite Et. }
  all: destruct fault; cbn [snd];
    (split;
     [ intros y H1 H2;
       now rewrite ?dict_get_set_other, ?dict_get_remove_other,
         ?dict_get_set_other by assumption
     | split; [intros x0 Hx; now elim (Hnm x0)|discriminate] ]).
Qed.

(** The entries of the registry directory after a call that took the
    lock: all but the registry and its temporary file are what they
    were, and so are these two when they are directories. *)
Lemma allocate_next_id_listing c w d nm n1 es r w' :
  (root c ++ registry_relpath c)%list = (d ++ [nm])%list ->
  FS.mkdir_p (fs w) d = Ok n1 ->
  FS.get n1 d = Some (Dir es) ->
  Dict.get (nm ++ ".lock") es = None ->
  allocate_next_id c w = (r, w') ->
  exists es',
    FS.get (fs w') d = Some (Dir es')
    /\ (forall y, y <> nm -> y <> nm ++ ".tmp" ->
                  Dict.get y es' = Dict.get y es)
    /\ (forall x, Dict.get nm es = Some (Dir x) ->
                  Dict.get nm es' = Some (Dir x))
    /\ (forall x, Dict.get (nm ++ ".tmp") es = Some (Dir x) ->
                  Dict.get (nm ++ ".tmp") es' = Some (Dir x)).
Proof.
  intros Hrp Hmk Hd Hl Hrun.
  destruct (@allocate_next_id_run c w d nm n1 es Hrp Hmk Hd Hl)
    as (w1 & evs & Hrun1 & Hd1 & _).
  rewrite Hrun in Hrun1. injection Hrun1 as _ <-.
  eexists. split; [exact Hd1|].
  match type of Hd1 with
  | context [locked_outcome ?c0 ?rp0 ?nm0 ?es0 ?sc0 ?ts0 ?f0] =>
      destruct (@locked_outcome_listing c0 rp0 nm0 es0 sc0 ts0 f0)
        as (H1 & H2 & H3)
  end.
  assert (Hn1 : nm <> nm ++ ".lock")
    by (intros E; symmetry in E; now apply lock_neq_name in E).
  assert (Hn2 : nm ++ ".tmp" <> nm ++ ".lock") by apply tmp_neq_lock.
  split; [|split].
  - intros y Hy1 Hy2. destruct (string_dec y (nm ++ ".lock")) as [->|Hy3].
    + now rewrite dict_get_remove_same, Hl.
    + rewrite dict_get_remove_other by assumption.
      rewrite (H1 y Hy1 Hy2). now rewrite dict_get_set_other.
  - intros x Hx. rewrite dict_get_remove_other by assumption.
    apply H2. now rewrite dict_get_set_other.
  - intros x Hx. rewrite dict_get_remove_other by assumption.
    apply H3. now rewrite dict_get_set_other.
Qed.

(** In each branch of [allocate_next_id] the counter the id is taken
    from is at least what the scan found. *)
Lemma reconcile_counter_ge_scan loaded sc ts reconciled counters kind current :
  reconcile loaded sc ts = Ok reconciled ->
  Dict.get "counters" reconciled = Some (JObj counters) ->
  kind_in_choices kind = true ->
  py_int (Dict.get_default kind (JInt 0) counters) = Ok current ->
  counter_of kind (s_chg sc) (s_spec sc) <= current.
Proof.
  intros Hrec Hcs Hk Hcur. unfold reconcile in Hrec.
  assert (Hfresh : forall chg spec,
             s_chg sc <= chg -> s_spec sc <= spec ->
             Ok (fresh_registry chg spec ts) = Ok reconciled ->
             counter_of kind (s_chg sc) (s_spec sc) <= current).
  { intros chg spec H1 H2 [= <-]. cbn in Hcs. injection Hcs as <-.
    destruct (kind_cases _ Hk) as [-> | ->]; cbn in Hcur;
      injection Hcur as <-; assumption. }
  destruct loaded as [r|]; [|apply (Hfresh _ _ (Z.le_refl _) (Z.le_refl _) Hrec)].
  destruct (py_int (Dict.get_default "schema_version" (JInt 1) r)) as [v|];
    [|discriminate]. cbn [rbind] in Hrec.
  destruct (v =? 1).
  - destruct (py_int (Dict.get_default "last_id" (JInt 0) r)) as [L|];
      [|discriminate]. cbn [rbind] in Hrec.
    apply (Hfresh _ _ (Z.le_max_l _ _) (Z.le_refl _) Hrec).
  - destruct (py_dict _) as [cs|]; [|discriminate]. cbn [rbind] in Hrec.
    destruct (py_int (Dict.get_default "chg" (JInt 0) cs)) as [chg|];
      [|discriminate]. cbn [rbind] in Hrec.
    destruct (py_int (Dict.get_default "spec" (JInt 0) _)) as [spec|];
      [|discriminate]. cbn [rbind] in Hrec.
    destruct (py_int (py_or _ _)) as [v'|]; [|discriminate].
    cbn [rbind] in Hrec.
    injection Hrec as <-. rewrite dict_get_set_same in Hcs. injection Hcs as <-.
    unfold Dict.get_default in Hcur.
    destruct (kind_cases _ Hk) as [-> | ->]; cbn [counter_of String.eqb Ascii.eqb Bool.eqb].
    + rewrite dict_get_set_other, dict_get_set_same in Hcur by discriminate.
      injection Hcur as <-. lia.
    + rewrite dict_get_set_same in Hcur. injection Hcur as <-. lia.
Qed.

(** The scan a call makes finds the same after a real call has
    succeeded, as long as the later call succeeds too: the registry file
    is the only entry that call has changed, and a file is nothing the
    scan counts. *)
Lemma scan_after_call c w a1 w1 sc2 :
  dry_run c = false ->
  allocate_next_id c w = (Ok a1, w1) ->
  scan_tree (fs w1) (root c ++ FS.parent (registry_relpath c))%list = Ok sc2 ->
  scan_tree (fs w) (root c ++ FS.parent (registry_relpath c))%list = Ok sc2.
Proof.
  intros Hdry Hrun Hsc2.
  destruct (@allocate_next_id_ok_inv c w a1 w1 Hrun)
    as (d & nm & n1 & Hrp & Hmk & Hl).
  destruct (@mkdir_p_dir _ _ _ Hmk) as (es & Hd & _).
  assert (Hes : forall y q,
             FS.get (fs w) (d ++ y :: q)%list
             = match Dict.get y es with
               | Some c0 => FS.get c0 q
               | None => None
               end).
  { intros y q. rewrite <- (@mkdir_p_below _ _ _ y q Hmk).
    now rewrite get_app, Hd. }
  assert (Hlock : Dict.get (nm ++ ".lock") es = None).
  { specialize (Hes (nm ++ ".lock") []). rewrite Hl in Hes.
    destruct (Dict.get (nm ++ ".lock") es); [discriminate|reflexivity]. }
  destruct (@allocate_next_id_listing c w d nm n1 es _ _ Hrp Hmk Hd Hlock Hrun)
    as (es1 & Hd1 & Hother & _).
  assert (Hes1 : forall y q,
             FS.get (fs w1) (d ++ y :: q)%list
             = match Dict.get y es1 with
               | Some c0 => FS.get c0 q
               | None => None
               end).
  { intros y q. now rewrite get_app, Hd1. }
  destruct (@allocate_next_id_ok_plan c w a1 w1 Hrun) as (reg & Hplan & Hper).
  specialize (Hper Hdry). rewrite Hrp in Hper, Hplan.
  assert (Hnew : Dict.get nm es1 = Some (File (Doc (JObj reg)))).
  { specialize (Hes1 nm []). rewrite Hper in Hes1.
    destruct (Dict.get nm es1); [now injection Hes1 as <-|discriminate]. }
  assert (Hold : no_dir (Dict.get nm es)).
  { destruct (@plan_ok_inv c _ _ _ _ a1 reg Hplan)
      as (prefix & l & sc & reconciled & counters & current
          & _ & _ & Hload & _).
    specialize (Hes nm []). rewrite Hes in Hload.
    destruct (Dict.get nm es) as [[c0|x]|]; cbn; auto. discriminate. }
  assert (Hsame : forall y q,
             In y ["tasks"; ".sa"; "specs"] -> y <> nm ->
             FS.get (fs w1) (d ++ y :: q)%list
             = FS.get (fs w) (d ++ y :: q)%list).
  { intros y q Hy Hne. rewrite Hes, Hes1, Hother; [reflexivity|exact Hne|].
    intros E. symmetry in E. revert E. now apply tmp_not_scanned. }
  assert (Hfile : forall q, q <> [] ->
             FS.get (fs w1) (d ++ nm :: q)%list = None
             /\ FS.get (fs w) (d ++ nm :: q)%list = None).
  { intros q Hq. rewrite Hes, Hes1, Hnew.
    destruct q as [|z q]; [congruence|].
    split; [reflexivity|].
    destruct (Dict.get nm es) as [[c0|x]|]; cbn in Hold; tauto || reflexivity. }
  destruct (scan_dir_cases _ _ _ _ Hrp) as [Hsd|Hsd]; rewrite Hsd in *.
  - rewrite scan_tree_of in *.
    change (d ++ [".sa"; "history"])%list with (d ++ ".sa" :: ["history"])%list
      in *.
    destruct (string_dec "tasks" nm) as [<-|Ht].
    { exfalso. specialize (Hes1 "tasks" []). rewrite Hnew in Hes1.
      cbn [FS.get] in Hes1. rewrite Hes1 in Hsc2. discriminate. }
    rewrite (Hsame "tasks" []) in Hsc2 by (cbn; auto).
    destruct (string_dec ".sa" nm) as [<-|Hs].
    { destruct (Hfile ["history"]) as [H1 H2]; [discriminate|].
      rewrite H1 in Hsc2. rewrite H2.
      destruct (string_dec "specs" ".sa"); [discriminate|].
      now rewrite (Hsame "specs" []) in Hsc2 by (cbn; auto). }
    rewrite (Hsame ".sa" ["history"]) in Hsc2 by (cbn; auto).
    destruct (string_dec "specs" nm) as [<-|Hp].
    { rewrite <- Hsc2. apply scan_of_specs_no_dir.
      - rewrite (Hes "specs" []).
        destruct (Dict.get "specs" es) as [[c0|x]|]; cbn in *; tauto.
      - rewrite (Hes1 "specs" []), Hnew. exact I. }
    now rewrite (Hsame "specs" []) in Hsc2 by (cbn; auto).
  - rewrite scan_tree_of in *. rewrite <- !app_assoc in *.
    cbn [app] in *.
    destruct (Hfile ["tasks"]) as [A1 A2]; [discriminate|].
    destruct (Hfile [".sa"; "history"]) as [B1 B2]; [discriminate|].
    destruct (Hfile ["specs"]) as [C1 C2]; [discriminate|].
    rewrite A1, B1, C1 in Hsc2. now rewrite A2, B2, C2.
Qed.

Lemma next_call_adds_one c w a1 w1 a2 w2 :
  dry_run c = false ->
  allocate_next_id c w = (Ok a1, w1) ->
  allocate_next_id c w1 = (Ok a2, w2) ->
  id a2 = id a1 + 1.
Proof.
  intros Hdry Hrun1 Hrun2.
  destruct (@persisted_shape c w a1 w1 Hdry Hrun1)
    as (persisted & v & cs & Hper & Hv & Hle & Hcs & Hint & Hk).
  assert (Hl : registry_of_node
                 (FS.get (fs w1) (root c ++ registry_relpath c)%list)
               = Ok (Some persisted)).
  { rewrite Hper. cbn [registry_of_node].
    rewrite (@check_registry_of_shape persisted v Hv); [reflexivity|].
    right. eauto. }
  destruct (@allocation_from_version_2 c w1 a2 w2 persisted v cs
              Hl Hv Hle Hcs Hint Hrun2)
    as (sc2 & Hsc2 & Hkind & Hid & _).
  rewrite (@stored_counter_of_get persisted cs (kind c) Hcs), Hk in Hid.
  destruct (@allocate_next_id_ok_plan c w a1 w1 Hrun1) as (reg & Hplan & _).
  destruct (@plan_ok_inv c _ _ _ _ a1 reg Hplan)
    as (prefix & l & sc1 & reconciled & counters & current
        & _ & _ & _ & Hsc1 & Hrec & Hc & Hcur & -> & _).
  pose proof (@reconcile_counter_ge_scan l sc1 (now w) reconciled counters
                (kind c) current Hrec Hc Hkind Hcur) as Hge.
  cbn [id] in Hid |- *.
  assert (Hsame : sc2 = sc1).
  { destruct (scan c).
    - apply (@scan_after_call c w _ w1 sc2 Hdry Hrun1) in Hsc2. congruence.
    - congruence. }
  subst sc2. lia.
Qed.

Lemma run_calls_consecutive c N : forall w a w1,
  dry_run c = false ->
  allocate_next_id c w = (Ok a, w1) ->
  Forall succeeded (run_calls c N w1) ->
  map returned_id (run_calls c N w1)
  = map (fun k => Some (id a + Z.of_nat k)) (seq 1 N).
Proof.
  induction N as [|N IH]; intros w a w1 Hdry Hrun Hall; [reflexivity|].
  cbn [run_calls] in *. inversion Hall as [|rw rest [a2 Ha2] Hrest]; subst.
  destruct (allocate_next_id c w1) as [r2 w2] eqn:Hrun2.
  cbn [fst snd] in *. subst r2.
  cbn [map seq]. unfold returned_id at 1. cbn [fst].
  rewrite (@next_call_adds_one c w a w1 a2 w2 Hdry Hrun Hrun2).
  apply f_equal2; [f_equal; lia|].
  rewrite (IH w1 a2 w2 Hdry Hrun2 Hrest).
  rewrite <- (seq_shift N 1), map_map.
  apply map_ext. intros k. f_equal.
  rewrite (@next_call_adds_one c w a w1 a2 w2 Hdry Hrun Hrun2). lia.
Qed.

(** Property X23.  With nothing else touching the tree, the real calls that follow a
    successful real call return the next ids one by one, whatever the
    registry was at the start (absent, of version 1, of version 2 or
    more) and with scanning on as well as off. *)
Theorem consecutive_calls_return_consecutive_ids c w a w1 N :
  dry_run c = false ->
  allocate_next_id c w = (Ok a, w1) ->
  Forall succeeded (run_calls c N w1) ->
  map returned_id (run_calls c N w1)
  = map (fun k => Some (id a + Z.of_nat k)) (seq 1 N).
Proof. apply run_calls_consecutive. Qed.

Lemma consecutive_calls_return_consecutive_ids_witness :
  map returned_id
      (run_calls sa_new_call 2
         (snd (allocate_next_id sa_new_call misplaced_world)))
  = [Some 7; Some 8].
Proof.
  assert (Hrun : allocate_next_id sa_new_call misplaced_world
                 = (Ok (allocation_of sa_new_call
                          ["proj"; "superagents"; ".sa"; "registry.json"] 6),
                    snd (allocate_next_id sa_new_call misplaced_world)))
    by (vm_compute; reflexivity).
  assert (Hall : Forall succeeded
                   (run_calls sa_new_call 2
                      (snd (allocate_next_id sa_new_call misplaced_world)))).
  { repeat constructor; eexists; vm_compute; reflexivity. }
  apply (@consecutive_calls_return_consecutive_ids
           sa_new_call misplaced_world _ _ 2 eq_refl Hrun Hall).
Defined.













Lemma confined_mkdir_parents d : confined d (Sys.mkdir_parents d).
Proof.
  intros w es Hd. unfold Sys.mkdir_parents.
  rewrite (@mkdir_p_existing _ _ _ Hd). cbn [snd fs log with_fs].
  exists (fun es0 => es0). symmetry. now apply alter_dir_fixed with (es := es).
Qed.

























Lemma py_int_not_bad_version j : py_int j <> Err bad_version.
Proof.
  unfold bad_version.
  destruct j as [| | |f|s| |]; cbn; try discriminate.
  - destruct f; cbn; discriminate.
  - unfold Py.int_of_str.
    destruct (Py.strip_with Py.is_int_space s) as [|c r];
      [cbn; discriminate|].
    destruct (Ascii.eqb c "-"); [|destruct (Ascii.eqb c "+")];
      destruct (Py.digits_value 0 false _); discriminate.
Qed.

Lemma int_or_not_bad_version m j :
  m <> MsgBadSchemaVersion -> int_or m j <> Err bad_version.
Proof.
  intros Hm. unfold int_or, bad_version.
  destruct (py_int j) as [z|e0] eqn:E; [discriminate|].
  destruct e0; congruence.
Qed.

Lemma normalize_counters_not_bad_version items : forall acc,
  normalize_counters items acc <> Err bad_version.
Proof.
  induction items as [|[k v] rest IH]; intros acc; cbn [normalize_counters];
    [discriminate|].
  destruct (int_or (MsgCounterNotInt k) v) as [z|e0] eqn:E; [apply IH|].
  intros H. apply (@int_or_not_bad_version (MsgCounterNotInt k) v);
    [discriminate|congruence].
Qed.

Lemma check_registry_falsy_version doc :
  truthy (stated_version doc) = false ->
  check_registry (JObj doc)
  = check_registry (JObj (Dict.set "schema_version" (JInt 1) doc)).
Proof.
  intros Hf. unfold check_registry, py_or. fold (stated_version doc).
  rewrite Hf. unfold Dict.get_default. rewrite dict_get_set_same.
  cbn [truthy Z.eqb negb py_int rbind]. now rewrite dict_set_set.
Qed.

Lemma check_registry_bad_version doc :
  check_registry (JObj doc) = Err bad_version
  <-> exists v, truthy (stated_version doc) = true
                /\ py_int (stated_version doc) = Ok v /\ v <= 0.
Proof.
  unfold check_registry, py_or. fold (stated_version doc). split.
  - destruct (truthy (stated_version doc)) eqn:Ht.
    + destruct (py_int (stated_version doc)) as [v|e0] eqn:Ev; cbn [rbind].
      * intros H. exists v. repeat split.
        destruct (Z.eqb_spec v 1) as [->|Hne].
        { exfalso. revert H.
          destruct (Dict.get "last_id" _) as [x|]; [|discriminate].
          destruct (int_or MsgLastIdNotInt x) as [L|e1] eqn:EL; cbn [rbind];
            [discriminate|].
          intros H. apply (@int_or_not_bad_version MsgLastIdNotInt x);
            [discriminate|congruence]. }
        destruct (Z.leb_spec 2 v) as [Hle|Hlt]; [|lia].
        exfalso. revert H.
        destruct (Dict.get "counters" _) as [[| | | | | |cs]|];
          cbn [rbind normalize_counters]; try discriminate.
        destruct (normalize_counters cs []) as [n|e1] eqn:En;
          cbn [rbind]; [discriminate|].
        intros H. apply (normalize_counters_not_bad_version cs []).
        congruence.
      * intros H. exfalso.
        apply (py_int_not_bad_version (stated_version doc)). congruence.
    + cbn [py_int rbind Z.eqb Pos.eqb].
      destruct (Dict.get "last_id" _) as [x|]; [|discriminate].
      destruct (int_or MsgLastIdNotInt x) as [L|e1] eqn:EL; cbn [rbind];
        [discriminate|].
      intros H. exfalso. apply (@int_or_not_bad_version MsgLastIdNotInt x);
        [discriminate|congruence].
  - intros (v & Ht & Hv & Hle). rewrite Ht, Hv. cbn [rbind].
    destruct (Z.eqb_spec v 1); [lia|].
    destruct (Z.leb_spec 2 v); [lia|reflexivity].
Qed.

(** Property X26.  The version of a registry document is read with [or 1]: a document
    whose [schema_version] is falsy (0, null, false, an empty string,
    list or object) is read exactly as if it said 1, and the document
    is refused as having an illegal version exactly if the stated
    version is truthy and converts to an integer that is 0 or less
    (such as -1, or the string 0, or 0.5). *)
Theorem schema_version_is_read_with_or_1 doc :
  (truthy (stated_version doc) = false ->
   check_registry (JObj doc)
   = check_registry (JObj (Dict.set "schema_version" (JInt 1) doc)))
  /\ (check_registry (JObj doc) = Err bad_version
      <-> exists v, truthy (stated_version doc) = true
                    /\ py_int (stated_version doc) = Ok v /\ v <= 0).
Proof.
  split; [apply check_registry_falsy_version|apply check_registry_bad_version].
Qed.

Lemma schema_version_is_read_with_or_1_witness :
  check_registry (JObj [("schema_version", JInt 0); ("last_id", JStr "7")])
  = Ok [("schema_version", JInt 1); ("last_id", JInt 7)]
  /\ check_registry (JObj [("schema_version", JStr "0"); ("last_id", JInt 7)])
     = Err bad_version.
Proof.
  split.
  - rewrite (proj1 (schema_version_is_read_with_or_1
                      [("schema_version", JInt 0); ("last_id", JStr "7")])
                   eq_refl).
    reflexivity.
  - apply (proj2 (schema_version_is_read_with_or_1
                    [("schema_version", JStr "0"); ("last_id", JInt 7)])).
    exists 0. repeat split. lia.
Defined.
